(** * firebolt-python-sdk: the query execution core of [firebolt.async_db]

    A shallow embedding of [_types.py], [cursor.py] and [connection.py]:
    type-name parsing, value conversion, parameter substitution, the cursor
    state machine and the cascading close of a connection.

    Conventions of the embedding.
    - A Python exception is a value of [exn]; a call that may raise returns
      [result A].  Code that mutates an object and may raise returns the
      mutated object together with the [result], because in Python the
      assignments made before a [raise] stay.
    - Python [int] is [Z].  A [str] is a [string] whose characters are code
      points below 256.
    - Third-party code ([sqlparse], [httpx], [ciso8601], the float and
      number parsing of the interpreter) is not part of the repository; it
      enters as the methods of the classes [PyRuntime] and [Transport]. *)

From Stdlib Require Import ZArith Lia Bool Ascii String List.
From Stdlib Require Import Floats.SpecFloat.
From stdpp Require Import base tactics option list strings pretty gmap.

Set Warnings "-register-all".
Local Open Scope Z_scope.

(** ** Exceptions and results *)

(** The exception classes the core raises or lets through.  All of them
    derive from [Exception], so the handler [except Exception] of
    [_do_execute_request] sees every one of them. *)
Inductive exn : Type :=
  | DataError (msg : string)
  | NotSupportedError (msg : string)
  | OperationalError (msg : string)
  | ProgrammingError (msg : string)
  | FireboltDatabaseError (msg : string)
  | EngineNotRunningError (msg : string)
  | CursorClosedError (method_name : string)
  | QueryNotRunError (method_name : string)
  | ConnectionClosedError (msg : string)
  | AssertionError (msg : string)
  | TypeError (msg : string)
  | ValueError (msg : string)
  | KeyError (key : string)
  | IndexError (msg : string)
  | OverflowError (msg : string)
  | HTTPError (msg : string).

Inductive result (A : Type) : Type :=
  | Ok (a : A)
  | Raise (e : exn).
Arguments Ok {A} a.
Arguments Raise {A} e.

Definition is_DataError (e : exn) : bool :=
  match e with DataError _ => true | _ => false end.

Definition raises {A} (r : result A) : bool :=
  match r with Ok _ => false | Raise _ => true end.

Global Instance result_ret : MRet result := fun _ a => Ok a.
Global Instance result_bind : MBind result := fun _ _ k r =>
  match r with
  | Ok a => k a
  | Raise e => Raise e
  end.

(** [[f(x) for x in xs]]: left to right, the first exception ends it. *)
Fixpoint traverse {A B} (f : A -> result B) (xs : list A) : result (list B) :=
  match xs with
  | [] => Ok []
  | x :: xs' => y ← f x; ys ← traverse f xs'; Ok (y :: ys)
  end.

(** ** Strings *)

Module Str.
Definition char_eqb (c d : ascii) : bool := bool_decide (c = d).

Fixpoint startswith (s p : string) {struct p} : bool :=
  match p with
  | EmptyString => true
  | String c p' =>
      match s with
      | EmptyString => false
      | String d s' => char_eqb c d && startswith s' p'
      end
  end.

Fixpoint rev_onto (s acc : string) : string :=
  match s with
  | EmptyString => acc
  | String c s' => rev_onto s' (String c acc)
  end.
Definition rev (s : string) : string := rev_onto s EmptyString.

Definition endswith (s p : string) : bool := startswith (rev s) (rev p).

Fixpoint drop (n : nat) (s : string) : string :=
  match n, s with
  | O, _ => s
  | S _, EmptyString => EmptyString
  | S n', String _ s' => drop n' s'
  end.

(** [s[:-1]] *)
Fixpoint removelast (s : string) : string :=
  match s with
  | EmptyString => EmptyString
  | String c s' =>
      match s' with
      | EmptyString => EmptyString
      | String _ _ => String c (removelast s')
      end
  end.

(** [s[n:-1]] for a literal [n >= 0]. *)
Definition slice_to_last (n : nat) (s : string) : string :=
  removelast (drop n s).

(** [str.isspace] on one character (code points below 256). *)
Definition isspace (c : ascii) : bool :=
  let n := nat_of_ascii c in
  ((9 <=? n) && (n <=? 13) || (28 <=? n) && (n <=? 32)
   || (n =? 133) || (n =? 160))%nat.

Fixpoint lstrip_by (p : ascii -> bool) (s : string) : string :=
  match s with
  | EmptyString => EmptyString
  | String c s' => if p c then lstrip_by p s' else s
  end.
Definition rstrip_by (p : ascii -> bool) (s : string) : string :=
  rev (lstrip_by p (rev s)).

(** [s.strip()] *)
Definition strip (s : string) : string :=
  rstrip_by isspace (lstrip_by isspace s).

Definition mem (chars : string) (c : ascii) : bool :=
  existsb (char_eqb c) (list_ascii_of_string chars).

(** [s.rstrip(chars)] *)
Definition rstrip (chars s : string) : string := rstrip_by (mem chars) s.

Definition newline : string := String "010" EmptyString.

(** [sep.join(parts)] *)
Definition join (sep : string) (parts : list string) : string :=
  String.concat sep parts.

Definition concat (parts : list string) : string :=
  String.concat EmptyString parts.
End Str.

(** ** [_types.py]: the data model *)

(** The members of [_col_types]. *)
Inductive pytype : Type :=
  | py_int | py_float | py_str | py_datetime | py_date
  | py_bool | py_list | py_NoneType.

Global Instance pytype_eq_dec : EqDecision pytype.
Proof. solve_decision. Defined.

(** [t.__name__] and [str(t)] of a class. *)
Definition pytype_name (t : pytype) : string :=
  match t with
  | py_int => "int" | py_float => "float" | py_str => "str"
  | py_datetime => "datetime" | py_date => "date" | py_bool => "bool"
  | py_list => "list" | py_NoneType => "NoneType"
  end.

Definition pytype_str (t : pytype) : string :=
  match t with
  | py_int => "<class 'int'>"
  | py_float => "<class 'float'>"
  | py_str => "<class 'str'>"
  | py_datetime => "<class 'datetime.datetime'>"
  | py_date => "<class 'datetime.date'>"
  | py_bool => "<class 'bool'>"
  | py_list => "<class 'list'>"
  | py_NoneType => "<class 'NoneType'>"
  end.

(** [Union[type, ARRAY]]: the type code of a column. *)
Inductive coltype : Type :=
  | Class (t : pytype)
  | ARRAY (subtype : coltype).

Global Instance coltype_eq_dec : EqDecision coltype.
Proof. solve_decision. Defined.

Module ARRAY_.
Definition _prefix : string := "Array(".

(** [ARRAY.__init__]: the subtype is a column class other than [list], or
    an [ARRAY]. *)
Definition __init__ (subtype : coltype) : result coltype :=
  match subtype with
  | Class py_list =>
      Raise (AssertionError ("Invalid array subtype: " +:+ pytype_str py_list))
  | _ => Ok (ARRAY subtype)
  end.

(** [ARRAY.__str__], with [str] of a class for the innermost subtype. *)
Fixpoint __str__ (t : coltype) : string :=
  match t with
  | Class c => pytype_str c
  | ARRAY subtype => "Array(" +:+ __str__ subtype +:+ ")"
  end.

(** [==] on type codes: [ARRAY.__eq__] compares the subtypes, and returns
    [NotImplemented] against a class, which Python then settles by
    identity; two classes are equal when they are the same class.  The
    source compares [other.subtype] with [self.subtype], the operands in
    the other order; the recursion here keeps them in place, and
    [ARRAY_eq_sym] shows that the order does not matter. *)
Fixpoint __eq__ (a b : coltype) : bool :=
  match a, b with
  | ARRAY x, ARRAY y => __eq__ x y
  | Class c, Class d => bool_decide (c = d)
  | _, _ => false
  end.
End ARRAY_.

Definition NULLABLE_PREFIX : string := "Nullable(".

Inductive _InternalType : Type :=
  | Int8 | UInt8 | Int16 | UInt16 | Int32 | UInt32 | Int64 | UInt64
  | Float32 | Float64 | String_ | Date_ | DateTime | Nothing.

Module InternalType.
Definition all : list _InternalType :=
  [Int8; UInt8; Int16; UInt16; Int32; UInt32; Int64; UInt64;
   Float32; Float64; String_; Date_; DateTime; Nothing].

Definition value (t : _InternalType) : string :=
  match t with
  | Int8 => "Int8" | UInt8 => "UInt8" | Int16 => "Int16"
  | UInt16 => "UInt16" | Int32 => "Int32" | UInt32 => "UInt32"
  | Int64 => "Int64" | UInt64 => "UInt64"
  | Float32 => "Float32" | Float64 => "Float64"
  | String_ => "String" | Date_ => "Date" | DateTime => "DateTime"
  | Nothing => "Nothing"
  end.

(** [_InternalType(raw_type)]: lookup by value; [None] stands for the
    [ValueError] of the enum. *)
Definition of_value (raw_type : string) : option _InternalType :=
  List.find (fun t => bool_decide (value t = raw_type)) all.

Definition python_type (t : _InternalType) : pytype :=
  match t with
  | Int8 | UInt8 | Int16 | UInt16 | Int32 | UInt32 | Int64 | UInt64 => py_int
  | Float32 | Float64 => py_float
  | String_ => py_str
  | Date_ => py_date
  | DateTime => py_datetime
  | Nothing => py_str
  end.
End InternalType.

(** [parse_type] on a [str].  The recursion strips a wrapper at each call, so
    the length of the name bounds its depth: [parse_type_str] starts
    [parse_type_rec] with that much fuel, and [parse_type_unfold] below shows
    that the bound is never met.  The limit of the interpreter on the depth
    of the recursion, at which the source raises [RecursionError], is not
    part of the embedding: a name of [n] wrappers takes [n + 1] calls. *)
Fixpoint parse_type_rec (fuel : nat) (raw_type : string) : result coltype :=
  match fuel with
  | O => Raise (OverflowError "parse_type: recursion bound")
  | S fuel' =>
      if Str.startswith raw_type ARRAY_._prefix && Str.endswith raw_type ")"
      then
        subtype ← parse_type_rec fuel'
          (Str.slice_to_last (String.length ARRAY_._prefix) raw_type);
        ARRAY_.__init__ subtype
      else if Str.startswith raw_type NULLABLE_PREFIX
              && Str.endswith raw_type ")"
      then
        parse_type_rec fuel'
          (Str.slice_to_last (String.length NULLABLE_PREFIX) raw_type)
      else
        match InternalType.of_value raw_type with
        | Some t => Ok (Class (InternalType.python_type t))
        | None => Ok (Class py_str)
        end
  end.

Definition parse_type_str (raw_type : string) : result coltype :=
  parse_type_rec (S (String.length raw_type)) raw_type.

(** A calendar date and a time stamp, as their fields; [tzinfo] is the UTC
    offset in seconds of an aware time stamp. *)
Record date : Type := { year : Z; month : Z; day : Z }.
Record datetime : Type := {
  dt_date : date;
  hour : Z; minute : Z; second : Z; microsecond : Z;
  tzinfo : option Z
}.

(** A binary64 number; every operation on it is the interpreter's. *)
Definition float : Type := spec_float.

(** A [decimal.Decimal], kept as the text [str] gives for it. *)
Record Decimal : Type := { decimal_str : string }.

(** [RawColType]: a value as the JSON decoder returns it. *)
Inductive RawValue : Type :=
  | RNone
  | RBool (b : bool)
  | RInt (z : Z)
  | RFloat (f : float)
  | RStr (s : string)
  | RList (items : list RawValue).

(** [ColType]: a value as a fetch returns it. *)
Inductive ColValue : Type :=
  | CNone
  | CBool (b : bool)
  | CInt (z : Z)
  | CFloat (f : float)
  | CStr (s : string)
  | CDate (d : date)
  | CDatetime (dt : datetime)
  | CList (items : list ColValue).

(** [ParameterType]; [PObject] is a value of any other class, with the text
    of [type(value)]. *)
Inductive ParameterType : Type :=
  | PBool (b : bool)
  | PInt (z : Z)
  | PFloat (f : float)
  | PDecimal (d : Decimal)
  | PStr (s : string)
  | PDatetime (dt : datetime)
  | PDate (d : date)
  | PNone
  | PSeq (items : list ParameterType)
  | PObject (type_str : string).

(** [sqlparse] tokens: a leaf with its token type and text, or a group.  Only
    [Name.Placeholder] and [Text] are told apart by the core. *)
Inductive TokenType : Type :=
  | Name_Placeholder
  | Text
  | OtherTokenType (name : string).

Inductive Token : Type :=
  | Leaf (ttype : TokenType) (value : string)
  | TokenList (tokens : list Token).

(** A [Statement] is the [TokenList] of one statement. *)
Definition Statement : Type := Token.

(** What the core takes from the interpreter and from its libraries. *)
Class PyRuntime : Type := {
  (** [int(s)] and [float(s)] of a [str]: [ValueError] on a bad literal *)
  int_of_str : string -> result Z;
  float_of_str : string -> result float;
  (** [int(f)]: [OverflowError] on an infinity, [ValueError] on a NaN *)
  int_of_float : float -> result Z;
  (** [float(i)]: [OverflowError] when [i] is too large *)
  float_of_int : Z -> result float;
  (** [str(f)] and [repr(s)] *)
  str_of_float : float -> string;
  repr_of_str : string -> string;
  (** [ciso8601.parse_datetime] or [datetime.fromisoformat] *)
  parse_datetime : string -> result datetime;
  (** [value.astimezone(timezone.utc)] *)
  astimezone_utc : datetime -> result datetime;
  (** [value.strftime('%Y-%m-%d %H:%M:%S')] *)
  strftime : datetime -> string;
  (** [sqlparse.parse] *)
  parse_sql : string -> list Statement
}.

(** ** [_types.py]: conversions *)

Section Types.
Context {RT : PyRuntime}.

(** [str(value)] and [repr(value)] of a raw value. *)
Fixpoint repr_ (value : RawValue) : string :=
  match value with
  | RNone => "None"
  | RBool b => if b then "True" else "False"
  | RInt z => pretty z
  | RFloat f => str_of_float f
  | RStr s => repr_of_str s
  | RList items => "[" +:+ Str.join ", " (List.map repr_ items) +:+ "]"
  end.

Definition str_ (value : RawValue) : string :=
  match value with
  | RStr s => s
  | _ => repr_ value
  end.

(** The class of a raw value, for the text of a [TypeError]. *)
Definition raw_class (value : RawValue) : pytype :=
  match value with
  | RNone => py_NoneType
  | RBool _ => py_bool
  | RInt _ => py_int
  | RFloat _ => py_float
  | RStr _ => py_str
  | RList _ => py_list
  end.

(** [int(value)] *)
Definition int_ (value : RawValue) : result Z :=
  match value with
  | RBool b => Ok (if b then 1 else 0)
  | RInt z => Ok z
  | RFloat f => int_of_float f
  | RStr s => int_of_str s
  | RNone | RList _ =>
      Raise (TypeError
        ("int() argument must be a string, a bytes-like object or a real number, not '"
         +:+ pytype_name (raw_class value) +:+ "'"))
  end.

(** [float(value)] *)
Definition float_ (value : RawValue) : result float :=
  match value with
  | RBool b => float_of_int (if b then 1 else 0)
  | RInt z => float_of_int z
  | RFloat f => Ok f
  | RStr s => float_of_str s
  | RNone | RList _ =>
      Raise (TypeError
        ("float() argument must be a string or a real number, not '"
         +:+ pytype_name (raw_class value) +:+ "'"))
  end.

(** [parse_type]: the name must be a [str]. *)
Definition parse_type (raw_type : RawValue) : result coltype :=
  match raw_type with
  | RStr s => parse_type_str s
  | _ =>
      Raise (DataError
        ("Invalid typename " +:+ str_ raw_type +:+ ": str expected"))
  end.

(** [parse_value] *)
Fixpoint parse_value (value : RawValue) (ctype : coltype) {struct ctype}
  : result ColValue :=
  match value with
  | RNone => Ok CNone
  | _ =>
      match ctype with
      | Class py_int => z ← int_ value; Ok (CInt z)
      | Class py_str => Ok (CStr (str_ value))
      | Class py_float => f ← float_ value; Ok (CFloat f)
      | Class py_date =>
          match value with
          | RStr s => dt ← parse_datetime s; Ok (CDate (dt_date dt))
          | _ =>
              Raise (DataError
                ("Invalid date value " +:+ str_ value +:+ ": str expected"))
          end
      | Class py_datetime =>
          match value with
          | RStr s => dt ← parse_datetime s; Ok (CDatetime dt)
          | _ =>
              Raise (DataError
                ("Invalid datetime value " +:+ str_ value
                 +:+ ": str expected"))
          end
      | ARRAY subtype =>
          match value with
          | RList items =>
              its ← traverse (fun it => parse_value it subtype) items;
              Ok (CList its)
          | _ => Raise (AssertionError "")
          end
      | Class t =>
          Raise (DataError
            ("Unsupported data type returned: " +:+ pytype_name t))
      end
  end.

(** [escape_chars.get(c, c)] *)
Definition escape_char (c : ascii) : string :=
  if Str.char_eqb c "000" then "\0"
  else if Str.char_eqb c "\" then "\\"
  else if Str.char_eqb c "'" then "\'"
  else String c EmptyString.

Definition escape (value : string) : string :=
  Str.concat (List.map escape_char (list_ascii_of_string value)).

(** [str(n).zfill(width)] for [n >= 0] *)
Definition zfill (width : nat) (n : Z) : string :=
  let digits := pretty n in
  Str.concat (replicate (width - String.length digits)%nat "0") +:+ digits.

(** [date.isoformat()] *)
Definition isoformat (d : date) : string :=
  zfill 4 (year d) +:+ "-" +:+ zfill 2 (month d) +:+ "-" +:+ zfill 2 (day d).

(** [str(value)] of an [int]: the interpreter refuses to write out more
    digits than [sys.get_int_max_str_digits()], 4300 unless it is set
    otherwise, and raises [ValueError]. *)
Definition int_max_str_digits : nat := 4300.

Definition str_of_int (z : Z) : result string :=
  if bool_decide (String.length (pretty (Z.abs z)) ≤ int_max_str_digits)%nat
  then Ok (pretty z)
  else Raise (ValueError
         ("Exceeds the limit (4300 digits) for integer string conversion; "
          +:+ "use sys.set_int_max_str_digits() to increase the limit")).

(** [format_value].  A sequence takes one more call for each level of
    nesting; the limit of the interpreter on the depth of the recursion, at
    which the source raises [RecursionError], is not part of the
    embedding. *)
Fixpoint format_value (value : ParameterType) : result string :=
  match value with
  | PBool b => Ok (pretty (if b then 1 else 0))
  | PInt z => str_of_int z
  | PFloat f => Ok (str_of_float f)
  | PDecimal d => Ok (decimal_str d)
  | PStr s => Ok ("'" +:+ escape s +:+ "'")
  | PDatetime dt =>
      dt' ← match tzinfo dt with
            | Some _ => astimezone_utc dt
            | None => Ok dt
            end;
      Ok ("'" +:+ strftime dt' +:+ "'")
  | PDate d => Ok ("'" +:+ isoformat d +:+ "'")
  | PNone => Ok "NULL"
  | PSeq items =>
      its ← traverse format_value items;
      Ok ("[" +:+ Str.join ", " its +:+ "]")
  | PObject type_str =>
      Raise (DataError ("unsupported parameter type " +:+ type_str))
  end.

(** [str(token)]: the text of a leaf, the texts of the leaves of a group. *)
Fixpoint token_str (token : Token) : string :=
  match token with
  | Leaf _ value => value
  | TokenList tokens => Str.concat (List.map token_str tokens)
  end.

Definition is_placeholder (ttype : TokenType) : bool :=
  match ttype with Name_Placeholder => true | _ => false end.

(** [process_token] of [format_statement]; the [nonlocal idx] goes in and
    comes out. *)
Fixpoint process_token (parameters : list ParameterType) (token : Token)
    (idx : nat) {struct token} : result (Token * nat) :=
  match token with
  | Leaf ttype value =>
      if is_placeholder ttype then
        if bool_decide (length parameters ≤ idx)%nat then
          Raise (DataError
            ("not enough parameters provided for substitution: given "
             +:+ pretty (length parameters) +:+ ", found one more"))
        else
          match parameters !! idx with
          | Some p =>
              formatted ← format_value p;
              Ok (Leaf Text formatted, S idx)
          | None => Raise (IndexError "list index out of range")
          end
      else Ok (token, idx)
  | TokenList tokens =>
      r ← (fix process_tokens (ts : list Token) (idx : nat)
             : result (list Token * nat) :=
             match ts with
             | [] => Ok ([], idx)
             | t :: ts' =>
                 r ← process_token parameters t idx;
                 rs ← process_tokens ts' r.2;
                 Ok (r.1 :: rs.1, rs.2)
             end) tokens idx;
      Ok (TokenList r.1, r.2)
  end.

(** [format_statement] *)
Definition format_statement (statement : Statement)
    (parameters : list ParameterType) : result string :=
  r ← process_token parameters statement 0%nat;
  let formatted_sql := Str.rstrip ";" (token_str r.1) in
  if bool_decide (r.2 < length parameters)%nat then
    Raise (DataError
      ("too many parameters provided for substitution: given "
       +:+ pretty (length parameters) +:+ ", used only " +:+ pretty r.2))
  else Ok formatted_sql.

(** [split_format_sql] *)
Definition split_format_sql (query : string)
    (parameters : list (list ParameterType)) : result (list string) :=
  let statements := parse_sql query in
  match statements with
  | [] => Ok [query]
  | st0 :: _ =>
      match parameters with
      | _ :: _ =>
          if bool_decide (1 < length statements)%nat then
            Raise (NotSupportedError
              "formatting multistatement queries is not supported")
          else traverse (fun paramset => format_statement st0 paramset)
                 parameters
      | [] =>
          Ok (List.map
                (fun st => Str.rstrip ";" (Str.strip (token_str st)))
                statements)
      end
  end.
End Types.

(** ** State and exceptions together *)

(** A method of an object of type [S]: it returns the object as the method
    left it, and a value or the exception raised. *)
Definition M (S A : Type) : Type := S -> S * result A.

Global Instance M_ret {S} : MRet (M S) := fun _ a s => (s, Ok a).
Global Instance M_bind {S} : MBind (M S) := fun _ _ k m s =>
  match m s with
  | (s', Ok a) => k a s'
  | (s', Raise e) => (s', Raise e)
  end.

Definition raise {S A} (e : exn) : M S A := fun s => (s, Raise e).
Definition lift {S A} (r : result A) : M S A := fun s => (s, r).
Definition get {S} : M S S := fun s => (s, Ok s).
Definition modify {S} (f : S -> S) : M S unit := fun s => (f s, Ok tt).

(** [try: body / except Exception: handler; raise] *)
Definition try_except_reraise {S A} (body : M S A) (handler : S -> S)
  : M S A := fun s =>
  match body s with
  | (s', Ok a) => (s', Ok a)
  | (s', Raise e) => (handler s', Raise e)
  end.

(** ** Python sequences indexed by an [int] *)

Module Py.
(** [l[i]]: a negative index counts from the end. *)
Definition getitem {A} (l : list A) (i : Z) : result A :=
  let n := Z.of_nat (length l) in
  let j := if bool_decide (i < 0) then i + n else i in
  if bool_decide (0 ≤ j < n) then
    match l !! Z.to_nat j with
    | Some x => Ok x
    | None => Raise (IndexError "list index out of range")
    end
  else Raise (IndexError "list index out of range").

(** The bound of a slice: a negative one counts from the end, and both
    ends are clamped to the list. *)
Definition slice_bound (n i : Z) : Z :=
  if bool_decide (i < 0) then Z.max 0 (i + n) else Z.min i n.

(** [l[left:right]] *)
Definition slice {A} (l : list A) (left right : Z) : list A :=
  let n := Z.of_nat (length l) in
  let lo := slice_bound n left in
  let hi := slice_bound n right in
  take (Z.to_nat (hi - lo)) (drop (Z.to_nat lo) l).

(** [enumerate(l)] *)
Definition enumerate {A} (l : list A) : list (nat * A) :=
  imap (fun i x => (i, x)) l.
End Py.

(** ** [cursor.py] *)

Definition JSON_OUTPUT_FORMAT : string := "JSONCompact".

Inductive CursorState : Type := NONE | ERROR | DONE | CLOSED.

Global Instance CursorState_eq_dec : EqDecision CursorState.
Proof. solve_decision. Defined.

(** [Column]; the cursor fills [name] and [type_code] only. *)
Record Column : Type := {
  name : string;
  type_code : coltype;
  display_size : option Z;
  internal_size : option Z;
  precision : option Z;
  scale : option Z;
  null_ok : option bool
}.

Definition Row : Type := list RawValue.

(** An entry of [_row_sets]: row count, descriptions, rows. *)
Definition RowSet : Type := (Z * option (list Column) * option (list Row))%type.

(** The attributes of a [BaseCursor] that hold data; [_client] and
    [connection] are the transport and the connection the methods take. *)
Record Cursor : Type := {
  _arraysize : Z;
  _state : CursorState;
  _descriptions : option (list Column);
  _rowcount : Z;
  _rows : option (list Row);
  _idx : Z;
  _row_sets : list RowSet;
  _next_set_idx : nat
}.

Definition set_state (st : CursorState) (self : Cursor) : Cursor :=
  {| _arraysize := _arraysize self; _state := st;
     _descriptions := _descriptions self; _rowcount := _rowcount self;
     _rows := _rows self; _idx := _idx self; _row_sets := _row_sets self;
     _next_set_idx := _next_set_idx self |}.

Definition set_idx (i : Z) (self : Cursor) : Cursor :=
  {| _arraysize := _arraysize self; _state := _state self;
     _descriptions := _descriptions self; _rowcount := _rowcount self;
     _rows := _rows self; _idx := i; _row_sets := _row_sets self;
     _next_set_idx := _next_set_idx self |}.

Definition set_arraysize (n : Z) (self : Cursor) : Cursor :=
  {| _arraysize := n; _state := _state self;
     _descriptions := _descriptions self; _rowcount := _rowcount self;
     _rows := _rows self; _idx := _idx self; _row_sets := _row_sets self;
     _next_set_idx := _next_set_idx self |}.

Definition append_row_set (row_set : RowSet) (self : Cursor) : Cursor :=
  {| _arraysize := _arraysize self; _state := _state self;
     _descriptions := _descriptions self; _rowcount := _rowcount self;
     _rows := _rows self; _idx := _idx self;
     _row_sets := _row_sets self ++ [row_set];
     _next_set_idx := _next_set_idx self |}.

(** The assignments of [_pop_next_set] when a set is there. *)
Definition activate (row_set : RowSet) (self : Cursor) : Cursor :=
  {| _arraysize := _arraysize self; _state := _state self;
     _descriptions := row_set.1.2; _rowcount := row_set.1.1;
     _rows := row_set.2; _idx := 0; _row_sets := _row_sets self;
     _next_set_idx := S (_next_set_idx self) |}.

(** One entry of ["meta"] and the JSON object of a response body, read the
    way [_append_query_data] reads them: [None] is an absent key. *)
Record MetaEntry : Type := {
  meta_name : option string;
  meta_type : option RawValue
}.

Record QueryData : Type := {
  qd_rows : option RawValue;
  qd_meta : option (list MetaEntry);
  qd_data : option (list Row)
}.

(** What the cursor reads of an [httpx.Response]. *)
Record Response : Type := {
  status_code : Z;
  (** [headers.get("content-length")] *)
  content_length : option string;
  (** [read().decode('utf-8')] *)
  read_text : result string;
  (** [json()] *)
  json : result QueryData;
  (** [raise_for_status()] *)
  raise_for_status : result unit
}.

Module codes.
Definition INTERNAL_SERVER_ERROR : Z := 500.
Definition FORBIDDEN : Z := 403.
Definition SERVICE_UNAVAILABLE : Z := 503.
Definition NOT_FOUND : Z := 404.
End codes.

(** The network: the client of a connection and the two probes of
    [firebolt.async_db.util], as transitions of a transport state [client]. *)
Class Transport (client : Type) : Type := {
  (** [client.request(url, method, params, content)] *)
  request : string -> string -> gmap string string -> string ->
            M client Response;
  (** [is_db_available(connection, database)] *)
  is_db_available : string -> M client bool;
  (** [is_engine_running(connection, engine_url)] *)
  is_engine_running : string -> M client bool;
  (** [client.aclose()] *)
  aclose : M client unit
}.

(** The attributes of a [BaseConnection]; [_client] is the transport state,
    and a cursor is named by its address in the store of cursors. *)
Record Connection : Type := {
  _cursors : list nat;
  database : string;
  engine_url : string;
  api_endpoint : string;
  _is_closed : bool
}.

(** The states a decorated method may run on: a cursor, or a cursor with the
    transport next to it. *)
Class HasCursor (S : Type) : Type := cursor_of : S -> Cursor.
Global Instance Cursor_HasCursor : HasCursor Cursor := fun self => self.
Global Instance pair_HasCursor {client} : HasCursor (client * Cursor) := snd.

Definition on_cursor {client A} (m : M Cursor A) : M (client * Cursor) A :=
  fun s => let '(self, r) := m s.2 in ((s.1, self), r).
Definition on_client {client A} (m : M client A) : M (client * Cursor) A :=
  fun s => let '(cl, r) := m s.1 in ((cl, s.2), r).

Section CursorMethods.
Context {RT : PyRuntime}.

Definition default_arraysize : Z := 1.

Definition closed (self : Cursor) : bool :=
  bool_decide (_state self = CLOSED).

(** The decorators. *)
Definition check_not_closed {S A} `{HasCursor S} (func_name : string)
    (func : M S A) : M S A := fun s =>
  if closed (cursor_of s) then (s, Raise (CursorClosedError func_name))
  else func s.

Definition check_query_executed {S A} `{HasCursor S} (func_name : string)
    (func : M S A) : M S A := fun s =>
  if bool_decide (_state (cursor_of s) = NONE)
  then (s, Raise (QueryNotRunError func_name))
  else func s.

(** The properties. *)
Definition description : M Cursor (option (list Column)) :=
  check_not_closed "description" (self ← get; mret (_descriptions self)).

Definition rowcount : M Cursor Z :=
  check_not_closed "rowcount" (self ← get; mret (_rowcount self)).

Definition arraysize : M Cursor Z := self ← get; mret (_arraysize self).

(** [_reset] *)
Definition _reset (self : Cursor) : Cursor :=
  {| _arraysize := _arraysize self; _state := NONE; _rows := None;
     _descriptions := None; _rowcount := -1; _idx := 0; _row_sets := [];
     _next_set_idx := 0 |}.

(** [__init__] *)
Definition Cursor__init__ : Cursor :=
  _reset {| _arraysize := default_arraysize; _state := NONE; _rows := None;
            _descriptions := None; _rowcount := -1; _idx := 0;
            _row_sets := []; _next_set_idx := 0 |}.

(** [_pop_next_set] *)
Definition _pop_next_set : M Cursor (option bool) := fun self =>
  if bool_decide (length (_row_sets self) ≤ _next_set_idx self)%nat
  then (self, Ok None)
  else
    match _row_sets self !! _next_set_idx self with
    | Some row_set => (activate row_set self, Ok (Some true))
    | None => (self, Raise (IndexError "list index out of range"))
    end.

(** [nextset] *)
Definition nextset : M Cursor (option bool) :=
  check_not_closed "nextset" (check_query_executed "nextset" _pop_next_set).

(** [d[key]] on a decoded JSON object. *)
Definition item {A} (key : string) (v : option A) : result A :=
  match v with
  | Some a => Ok a
  | None => Raise (KeyError key)
  end.

(** The body of the [try] of [_append_query_data]. *)
Definition decode_row_set (response : Response) : result RowSet :=
  query_data ← json response;
  rows_field ← item "rows" (qd_rows query_data);
  rowcount ← int_ rows_field;
  meta ← item "meta" (qd_meta query_data);
  descriptions ← traverse (fun d =>
      d_name ← item "name" (meta_name d);
      d_type ← item "type" (meta_type d);
      type_code ← parse_type d_type;
      Ok {| name := d_name; type_code := type_code;
            display_size := None; internal_size := None;
            precision := None; scale := None; null_ok := None |}) meta;
  rows ← item "data" (qd_data query_data);
  Ok (rowcount, Some descriptions, Some rows).

(** [except (KeyError, ValueError) as err: raise DataError(...)] *)
Definition invalid_query_data {A} (r : result A) : result A :=
  match r with
  | Raise (KeyError key) =>
      Raise (DataError ("Invalid query data format: '" +:+ key +:+ "'"))
  | Raise (ValueError msg) =>
      Raise (DataError ("Invalid query data format: " +:+ msg))
  | _ => r
  end.

(** [_append_query_data] *)
Definition _append_query_data (response : Response) : M Cursor unit :=
  row_set ← lift
    (if bool_decide (default "" (content_length response) ≠ "0")
     then invalid_query_data (decode_row_set response)
     else Ok (-1, None, None));
  modify (append_row_set row_set);;
  self ← get;
  if bool_decide (_next_set_idx self = 0%nat)
  then _pop_next_set;; mret tt
  else mret tt.

(** [_parse_row] *)
Definition _parse_row (row : Row) : M Cursor (list ColValue) :=
  cols ← description;
  match cols with
  | None => raise (TypeError "object of type 'NoneType' has no len()")
  | Some cols =>
      if bool_decide (length row = length cols) then
        lift (traverse (fun ic =>
                match cols !! ic.1 with
                | Some c => parse_value ic.2 (type_code c)
                | None => Raise (IndexError "list index out of range")
                end) (Py.enumerate row))
      else raise (AssertionError "")
  end.

(** [[self._parse_row(row) for row in rows]] *)
Fixpoint _parse_rows (rows : list Row) : M Cursor (list (list ColValue)) :=
  match rows with
  | [] => mret []
  | row :: rows' =>
      r ← _parse_row row; rs ← _parse_rows rows'; mret (r :: rs)
  end.

(** [_get_next_range] *)
Definition _get_next_range (size : Z) : M Cursor (Z * Z) := fun self =>
  match _rows self with
  | None => (self, Raise (DataError "no rows to fetch"))
  | Some rows =>
      let left := _idx self in
      let right := Z.min (_idx self + size) (Z.of_nat (length rows)) in
      (set_idx right self, Ok (left, right))
  end.

(** [assert self._rows is not None] and the read of [self._rows] *)
Definition rows_not_None : M Cursor (list Row) := fun self =>
  match _rows self with
  | Some rows => (self, Ok rows)
  | None => (self, Raise (AssertionError ""))
  end.

(** [fetchone] *)
Definition fetchone : M Cursor (option (list ColValue)) :=
  check_not_closed "fetchone" (check_query_executed "fetchone" (
    range ← _get_next_range 1;
    if bool_decide (range.1 = range.2) then mret None
    else
      rows ← rows_not_None;
      row ← lift (Py.getitem rows range.1);
      parsed ← _parse_row row;
      mret (Some parsed))).

(** [fetchmany] *)
Definition fetchmany (size : option Z) : M Cursor (list (list ColValue)) :=
  check_not_closed "fetchmany" (check_query_executed "fetchmany" (
    size ← match size with
           | Some n => mret n
           | None => arraysize
           end;
    range ← _get_next_range size;
    rows ← rows_not_None;
    _parse_rows (Py.slice rows range.1 range.2))).

(** [fetchall] *)
Definition fetchall : M Cursor (list (list ColValue)) :=
  check_not_closed "fetchall" (check_query_executed "fetchall" (
    size ← rowcount;
    range ← _get_next_range size;
    rows ← rows_not_None;
    _parse_rows (Py.slice rows range.1 range.2))).

Section Execute.
Context {client : Type} {TR : Transport client}.

(** [_raise_if_error] *)
Definition _raise_if_error (connection : Connection) (resp : Response)
  : M client unit :=
  (if bool_decide (status_code resp = codes.INTERNAL_SERVER_ERROR) then
     body ← lift (read_text resp);
     raise (OperationalError ("Error executing query:" +:+ Str.newline +:+ body))
   else mret tt);;
  (if bool_decide (status_code resp = codes.FORBIDDEN) then
     available ← is_db_available (database connection);
     if negb available then
       raise (FireboltDatabaseError
                ("Database " +:+ database connection +:+ " does not exist"))
     else
       body ← lift (read_text resp);
       raise (ProgrammingError body)
   else mret tt);;
  (if bool_decide (status_code resp = codes.SERVICE_UNAVAILABLE)
      || bool_decide (status_code resp = codes.NOT_FOUND) then
     running ← is_engine_running (engine_url connection);
     if negb running then
       raise (EngineNotRunningError
                ("Firebolt engine " +:+ engine_url connection
                 +:+ " needs to be running to run queries against it."))
     else mret tt
   else mret tt);;
  lift (raise_for_status resp).

(** The body of the loop of [_do_execute_request] for one query.  The
    two log calls leave no trace but the read of the [rowcount]
    property. *)
Definition run_query (connection : Connection)
    (set_parameters : option (gmap string string)) (query : string)
  : M (client * Cursor) unit :=
  resp ← on_client (request "/" "POST"
            (default ∅ set_parameters
             ∪ {[ "database" := database connection;
                  "output_format" := JSON_OUTPUT_FORMAT ]})
            query);
  on_client (_raise_if_error connection resp);;
  on_cursor (_append_query_data resp);;
  on_cursor rowcount;;
  mret tt.

Fixpoint run_queries (connection : Connection)
    (set_parameters : option (gmap string string)) (queries : list string)
  : M (client * Cursor) unit :=
  match queries with
  | [] => mret tt
  | query :: queries' =>
      run_query connection set_parameters query;;
      run_queries connection set_parameters queries'
  end.

(** The [try] block of [_do_execute_request]. *)
Definition execute_body (connection : Connection) (query : string)
    (parameters : list (list ParameterType))
    (set_parameters : option (gmap string string))
  : M (client * Cursor) unit :=
  queries ← lift (split_format_sql query parameters);
  run_queries connection set_parameters queries;;
  on_cursor (modify (set_state DONE)).

(** [_do_execute_request] *)
Definition _do_execute_request (connection : Connection) (query : string)
    (parameters : list (list ParameterType))
    (set_parameters : option (gmap string string))
  : M (client * Cursor) unit :=
  on_cursor (modify _reset);;
  try_except_reraise
    (execute_body connection query parameters set_parameters)
    (fun s => (s.1, set_state ERROR s.2)).

(** [execute] *)
Definition execute (connection : Connection) (query : string)
    (parameters : option (list ParameterType))
    (set_parameters : option (gmap string string))
  : M (client * Cursor) Z :=
  check_not_closed "execute" (
    let params_list :=
      match parameters with
      | Some (p :: ps) => [p :: ps]
      | _ => []
      end in
    _do_execute_request connection query params_list set_parameters;;
    on_cursor rowcount).

(** [executemany] *)
Definition executemany (connection : Connection) (query : string)
    (parameters_seq : list (list ParameterType))
  : M (client * Cursor) Z :=
  check_not_closed "executemany" (
    _do_execute_request connection query parameters_seq None;;
    on_cursor rowcount).
End Execute.
End CursorMethods.

(** ** [connection.py] *)

(** A connection with the cursors it has created.  Python shares a cursor
    between [_cursors] and the caller by reference: [store] holds the cursor
    objects, and a reference is an index into it. *)
Record World (client : Type) : Type := {
  connection : Connection;
  store : list Cursor;
  client_state : client
}.
Arguments connection {client} w.
Arguments store {client} w.
Arguments client_state {client} w.

Section ConnectionMethods.
Context {RT : PyRuntime} {client : Type} {TR : Transport client}.

(** The part of [BaseConnection.__init__] that the core reads. *)
Definition Connection__init__ (engine_url database api_endpoint : string)
    (cl : client) : World client :=
  {| connection := {| _cursors := []; database := database;
                      engine_url := engine_url;
                      api_endpoint := api_endpoint; _is_closed := false |};
     store := []; client_state := cl |}.

Definition set_cursors (cursors : list nat) (conn : Connection)
  : Connection :=
  {| _cursors := cursors; database := database conn;
     engine_url := engine_url conn; api_endpoint := api_endpoint conn;
     _is_closed := _is_closed conn |}.

Definition set_is_closed (b : bool) (conn : Connection) : Connection :=
  {| _cursors := _cursors conn; database := database conn;
     engine_url := engine_url conn; api_endpoint := api_endpoint conn;
     _is_closed := b |}.

Definition on_connection (f : Connection -> Connection)
  : M (World client) unit := fun w =>
  ({| connection := f (connection w); store := store w;
      client_state := client_state w |}, Ok tt).

(** A call of a cursor method through a reference.  Every reference the
    connection hands out is in [store]; the last case is there for the
    totality of the function. *)
Definition call {A} (cursor : nat) (method : M (client * Cursor) A)
  : M (World client) A := fun w =>
  match store w !! cursor with
  | Some self =>
      let '((cl, self'), r) := method (client_state w, self) in
      ({| connection := connection w;
          store := <[cursor := self']> (store w);
          client_state := cl |}, r)
  | None => (w, Raise (AssertionError "no such cursor"))
  end.

(** [BaseConnection.closed] *)
Definition connection_closed (w : World client) : bool :=
  _is_closed (connection w).

(** [BaseConnection._cursor] *)
Definition _cursor : M (World client) nat := fun w =>
  if connection_closed w then
    (w, Raise (ConnectionClosedError
                 "Unable to create cursor: connection closed"))
  else
    let c := length (store w) in
    ({| connection :=
          set_cursors (_cursors (connection w) ++ [c]) (connection w);
        store := store w ++ [Cursor__init__];
        client_state := client_state w |}, Ok c).

(** [list.remove(x)] inside [try: ... except ValueError: pass] *)
Fixpoint remove_first (x : nat) (l : list nat) : list nat :=
  match l with
  | [] => []
  | y :: l' => if decide (x = y) then l' else y :: remove_first x l'
  end.

(** [BaseConnection._remove_cursor] *)
Definition _remove_cursor (cursor : nat) : M (World client) unit :=
  on_connection (fun conn =>
    set_cursors (remove_first cursor (_cursors conn)) conn).

(** [BaseCursor.close] *)
Definition close (cursor : nat) : M (World client) unit :=
  call cursor (on_cursor (modify (set_state CLOSED)));;
  _remove_cursor cursor.

(** [for c in cursors: c.close()] *)
Fixpoint close_all (cursors : list nat) : M (World client) unit :=
  match cursors with
  | [] => mret tt
  | c :: cursors' => close c;; close_all cursors'
  end.

(** [BaseConnection._aclose] *)
Definition _aclose : M (World client) unit := fun w =>
  if connection_closed w then (w, Ok tt)
  else
    (let cursors := _cursors (connection w) in
     close_all cursors;;
     (fun w => let '(cl, r) := aclose (client_state w) in
               ({| connection := connection w; store := store w;
                   client_state := cl |}, r));;
     on_connection (set_is_closed true)) w.

(** [BaseConnection.commit] *)
Definition commit : M (World client) unit := fun w =>
  if connection_closed w then
    (w, Raise (ConnectionClosedError "Unable to commit: connection closed"))
  else (w, Ok tt).

(** The calls a program can make on a connection and on its cursors. *)
Inductive Call : Type :=
  | call_cursor
  | call_aclose
  | call_commit
  | call_close (c : nat)
  | call_execute (c : nat) (query : string)
      (parameters : option (list ParameterType))
      (set_parameters : option (gmap string string))
  | call_executemany (c : nat) (query : string)
      (parameters_seq : list (list ParameterType))
  | call_nextset (c : nat)
  | call_fetchone (c : nat)
  | call_fetchmany (c : nat) (size : option Z)
  | call_fetchall (c : nat)
  | call_set_arraysize (c : nat) (value : Z).

(** The world after one call; what the call returns or raises is dropped,
    as by a caller that catches every exception. *)
Definition after (op : Call) (w : World client) : World client :=
  match op with
  | call_cursor => (_cursor w).1
  | call_aclose => (_aclose w).1
  | call_commit => (commit w).1
  | call_close c => (close c w).1
  | call_execute c query parameters set_parameters =>
      (call c (execute (connection w) query parameters set_parameters) w).1
  | call_executemany c query parameters_seq =>
      (call c (executemany (connection w) query parameters_seq) w).1
  | call_nextset c => (call c (on_cursor nextset) w).1
  | call_fetchone c => (call c (on_cursor fetchone) w).1
  | call_fetchmany c size => (call c (on_cursor (fetchmany size)) w).1
  | call_fetchall c => (call c (on_cursor fetchall) w).1
  | call_set_arraysize c value =>
      (call c (on_cursor (modify (set_arraysize value))) w).1
  end.

Definition after_all (ops : list Call) (w : World client) : World client :=
  fold_left (fun w op => after op w) ops w.
End ConnectionMethods.

(** ** Concrete libraries for the examples *)

Module Fixture.
(** Plain decimal literals, with a sign; the examples use no other. *)
Fixpoint digits (s : string) (acc : Z) : option Z :=
  match s with
  | EmptyString => Some acc
  | String c s' =>
      match Ascii.is_nat c with
      | Some d => digits s' (10 * acc + Z.of_nat d)
      | None => None
      end
  end.

Definition decimal_int (s : string) : result Z :=
  let bad := Raise (ValueError ("invalid literal for int() with base 10: '"
                                +:+ s +:+ "'")) in
  match s with
  | EmptyString => bad
  | String "-" (String c s') =>
      match digits (String c s') 0 with Some z => Ok (- z) | None => bad end
  | _ => match digits s 0 with Some z => Ok z | None => bad end
  end.

Definition trunc_float (f : float) : result Z :=
  match f with
  | S754_zero _ => Ok 0
  | S754_finite s m e =>
      let mag := if bool_decide (0 ≤ e) then Z.pos m * 2 ^ e
                 else Z.pos m / 2 ^ (- e) in
      Ok (if s then - mag else mag)
  | S754_infinity _ =>
      Raise (OverflowError "cannot convert float infinity to integer")
  | S754_nan => Raise (ValueError "cannot convert float NaN to integer")
  end.

Definition round_int (z : Z) : result float :=
  match binary_normalize 53 1024 z 0 false with
  | S754_infinity _ =>
      Raise (OverflowError "int too large to convert to float")
  | f => Ok f
  end.

(** The statements [sqlparse] makes of the queries of the examples; no
    statement for any other query. *)
Definition Keyword_DML : TokenType := OtherTokenType "Keyword.DML".
Definition Whitespace : TokenType := OtherTokenType "Text.Whitespace".
Definition Newline : TokenType := OtherTokenType "Text.Whitespace.Newline".
Definition Number_Integer : TokenType :=
  OtherTokenType "Literal.Number.Integer".
Definition Punctuation : TokenType := OtherTokenType "Punctuation".

Definition select_1_semicolon_space : Statement :=
  TokenList [Leaf Keyword_DML "SELECT"; Leaf Whitespace " ";
             Leaf Number_Integer "1"; Leaf Punctuation ";";
             Leaf Whitespace " "].
Definition select_1_semicolon : Statement :=
  TokenList [Leaf Keyword_DML "SELECT"; Leaf Whitespace " ";
             Leaf Number_Integer "1"; Leaf Punctuation ";"].
Definition select_2 : Statement :=
  TokenList [Leaf Keyword_DML "SELECT"; Leaf Whitespace " ";
             Leaf Number_Integer "2"].
Definition newline_select_2 : Statement :=
  TokenList [Leaf Newline Str.newline; Leaf Keyword_DML "SELECT";
             Leaf Whitespace " "; Leaf Number_Integer "2"].
Definition select_placeholder : Statement :=
  TokenList [Leaf Keyword_DML "SELECT"; Leaf Whitespace " ";
             Leaf Name_Placeholder "?"].
(** [SELECT ?, ?]: the two placeholders sit in an identifier list. *)
Definition select_two_placeholders : Statement :=
  TokenList [Leaf Keyword_DML "SELECT"; Leaf Whitespace " ";
             TokenList [Leaf Name_Placeholder "?"; Leaf Punctuation ",";
                        Leaf Whitespace " "; Leaf Name_Placeholder "?"]].

Definition statements_of (query : string) : list Statement :=
  if bool_decide (query = "SELECT 1; SELECT 2")
  then [select_1_semicolon_space; select_2]
  else if bool_decide (query = "SELECT 1;" +:+ Str.newline +:+ "SELECT 2")
  then [select_1_semicolon; newline_select_2]
  else if bool_decide (query = "SELECT 2") then [select_2]
  else if bool_decide (query = "SELECT ?") then [select_placeholder]
  else if bool_decide (query = "SELECT ?, ?")
  then [select_two_placeholders]
  else [].

(** The runtime of the examples.  They hold no float, date or time stamp:
    the methods for those are not exercised. *)
Definition runtime : PyRuntime := {|
  int_of_str := decimal_int;
  float_of_str := fun s =>
    Raise (ValueError ("could not convert string to float: '" +:+ s +:+ "'"));
  int_of_float := trunc_float;
  float_of_int := round_int;
  str_of_float := fun _ => "nan";
  repr_of_str := fun s => "'" +:+ s +:+ "'";
  parse_datetime := fun s =>
    Raise (ValueError ("Invalid isoformat string: '" +:+ s +:+ "'"));
  astimezone_utc := fun dt => Ok dt;
  strftime := fun dt =>
    pretty (year (dt_date dt)) +:+ "-" +:+ pretty (month (dt_date dt))
    +:+ "-" +:+ pretty (day (dt_date dt)) +:+ " " +:+ pretty (hour dt)
    +:+ ":" +:+ pretty (minute dt) +:+ ":" +:+ pretty (second dt);
  parse_sql := statements_of
|}.

(** A transport that answers from a script: the next response, or the
    next exception, for each request; the probes say yes. *)
Definition script : Type := list (result Response).

Definition transport : Transport script := {|
  request := fun _ _ _ _ cl =>
    match cl with
    | [] => ([], Raise (HTTPError "connection refused"))
    | r :: cl' => (cl', r)
    end;
  is_db_available := fun _ cl => (cl, Ok true);
  is_engine_running := fun _ cl => (cl, Ok true);
  aclose := fun cl => (cl, Ok tt)
|}.

(** A response with status 200 and a body. *)
Definition ok_response (data : QueryData) : Response :=
  {| status_code := 200; content_length := None; read_text := Ok "";
     json := Ok data; raise_for_status := Ok tt |}.

(** A response with status 200 and an empty body. *)
Definition empty_response : Response :=
  {| status_code := 200; content_length := Some "0"; read_text := Ok "";
     json := Raise (ValueError "Expecting value"); raise_for_status := Ok tt |}.

Definition internal_error (body : string) : Response :=
  {| status_code := 500; content_length := None; read_text := Ok body;
     json := Raise (ValueError "Expecting value");
     raise_for_status := Raise (HTTPError "500 Internal Server Error") |}.

(** One [Int32] column [x] with the given values. *)
Definition ints (rows_field : Z) (values : list Z) : QueryData :=
  {| qd_rows := Some (RInt rows_field);
     qd_meta := Some [{| meta_name := Some "x";
                         meta_type := Some (RStr "Int32") |}];
     qd_data := Some (List.map (fun z => [RInt z]) values) |}.

Definition conn : Connection :=
  {| _cursors := []; database := "db"; engine_url := "https://engine";
     api_endpoint := "api.app.firebolt.io"; _is_closed := false |}.
(** Two statements: the first answers one row, the second fails on the
    server. *)
Definition second_fails : script :=
  [Ok (ok_response (ints 1 [7])); Ok (internal_error "boom")].

(** Two statements, both answered. *)
Definition both_answer : script :=
  [Ok (ok_response (ints 1 [7])); Ok (ok_response (ints 3 [10; 20; 30]))].

Definition int_column : list Column :=
  [{| name := "x"; type_code := Class py_int; display_size := None;
      internal_size := None; precision := None; scale := None;
      null_ok := None |}].

Definition one_row : RowSet := (1, Some int_column, Some [[RInt 7]]).
Definition three_rows : RowSet :=
  (3, Some int_column, Some [[RInt 10]; [RInt 20]; [RInt 30]]).
(** A connection with two cursors: the first closed by the caller, the
    second used for one query. *)
Definition two_cursors : World script :=
  after_all (RT := runtime) (TR := transport)
    [call_cursor; call_cursor; call_close 0;
     call_execute 1 "SELECT 2" None None]
    (Connection__init__ "https://engine" "db" "api.app.firebolt.io"
       [Ok (ok_response (ints 1 [7]))]).
End Fixture.

(** ** Vocabulary of the specification *)

(** The well-formed type names: a scalar name of the known set, wrapped in
    [Array(...)] and [Nullable(...)]. *)
Inductive type_name : Type :=
  | Scalar (t : _InternalType)
  | Array_of (x : type_name)
  | Nullable_of (x : type_name).

Fixpoint type_name_str (x : type_name) : string :=
  match x with
  | Scalar t => InternalType.value t
  | Array_of x' => "Array(" +:+ type_name_str x' +:+ ")"
  | Nullable_of x' => "Nullable(" +:+ type_name_str x' +:+ ")"
  end.

Fixpoint scalar_of (x : type_name) : _InternalType :=
  match x with
  | Scalar t => t
  | Array_of x' | Nullable_of x' => scalar_of x'
  end.

Fixpoint nesting_depth (x : type_name) : nat :=
  match x with
  | Scalar _ => 0
  | Array_of x' | Nullable_of x' => S (nesting_depth x')
  end.

(** The type code a well-formed name stands for: nullability is dropped. *)
Fixpoint semantic_type (x : type_name) : coltype :=
  match x with
  | Scalar t => Class (InternalType.python_type t)
  | Array_of x' => ARRAY (semantic_type x')
  | Nullable_of x' => semantic_type x'
  end.

(** The innermost class of a type code, and the type code with that class
    replaced by [str]. *)
Fixpoint innermost (t : coltype) : pytype :=
  match t with
  | Class c => c
  | ARRAY subtype => innermost subtype
  end.

Fixpoint as_strings (t : coltype) : coltype :=
  match t with
  | Class _ => Class py_str
  | ARRAY subtype => ARRAY (as_strings subtype)
  end.

(** One call of [parse_type] on a [str], as the source has it. *)
Definition parse_type_step (rec : string -> result coltype)
    (raw_type : string) : result coltype :=
  if Str.startswith raw_type ARRAY_._prefix && Str.endswith raw_type ")"
  then
    subtype ← rec (Str.slice_to_last (String.length ARRAY_._prefix) raw_type);
    ARRAY_.__init__ subtype
  else if Str.startswith raw_type NULLABLE_PREFIX && Str.endswith raw_type ")"
  then rec (Str.slice_to_last (String.length NULLABLE_PREFIX) raw_type)
  else
    match InternalType.of_value raw_type with
    | Some t => Ok (Class (InternalType.python_type t))
    | None => Ok (Class py_str)
    end.

(** The leaves of a statement, depth first and left to right. *)
Fixpoint leaves (token : Token) : list (TokenType * string) :=
  match token with
  | Leaf ttype value => [(ttype, value)]
  | TokenList tokens => flat_map leaves tokens
  end.

Definition count_placeholders (token : Token) : nat :=
  length (filter (fun l => is_placeholder l.1 = true) (leaves token)).

(** The text of a sequence of leaves in which each placeholder, from the
    left, takes the next literal; a placeholder with no literal left keeps
    its own text. *)
Fixpoint substitute (ls : list (TokenType * string)) (literals : list string)
  : string :=
  match ls with
  | [] => ""
  | (ttype, value) :: ls' =>
      if is_placeholder ttype then
        match literals with
        | lit :: literals' => lit +:+ substitute ls' literals'
        | [] => value +:+ substitute ls' []
        end
      else value +:+ substitute ls' literals
  end.

Definition not_enough_parameters (given : nat) : exn :=
  DataError ("not enough parameters provided for substitution: given "
             +:+ pretty given +:+ ", found one more").

Definition too_many_parameters (given used : nat) : exn :=
  DataError ("too many parameters provided for substitution: given "
             +:+ pretty given +:+ ", used only " +:+ pretty used).

Section Vocabulary.
Context {RT : PyRuntime}.

(** The loop of [process_token] over the children of a group. *)
Definition process_tokens (parameters : list ParameterType)
  : list Token -> nat -> result (list Token * nat) :=
  fix process_tokens (ts : list Token) (idx : nat) :=
    match ts with
    | [] => Ok ([], idx)
    | t :: ts' =>
        r ← process_token parameters t idx;
        rs ← process_tokens ts' r.2;
        Ok (r.1 :: rs.1, rs.2)
    end.
(** The values the placeholders of [token] take are the parameters from
    [idx] on, one each, in the order of the leaves. *)
Definition process_token_spec (parameters : list ParameterType)
    (literals : list string) (token : Token) : Prop :=
  forall idx, (idx ≤ length parameters)%nat ->
    if decide (idx + count_placeholders token ≤ length parameters)%nat then
      exists token',
        process_token parameters token idx
        = Ok (token', (idx + count_placeholders token)%nat) /\
        forall rest,
          token_str token'
          +:+ substitute rest
                (drop (idx + count_placeholders token) literals)
          = substitute (leaves token ++ rest) (drop idx literals)
    else
      process_token parameters token idx
      = Raise (not_enough_parameters (length parameters)).

(** The substitution of [process_token] read over the leaves of the
    statement: the text so far and the index of the next parameter.  A
    placeholder takes the parameter at the index, which is formatted then;
    any other leaf keeps its text. *)
Fixpoint substitute_from (parameters : list ParameterType)
    (ls : list (TokenType * string)) (idx : nat) : result (string * nat) :=
  match ls with
  | [] => Ok ("", idx)
  | (ttype, value) :: ls' =>
      if is_placeholder ttype then
        if bool_decide (length parameters ≤ idx)%nat then
          Raise (not_enough_parameters (length parameters))
        else
          match parameters !! idx with
          | Some p =>
              formatted ← format_value p;
              r ← substitute_from parameters ls' (S idx);
              Ok (formatted +:+ r.1, r.2)
          | None => Raise (IndexError "list index out of range")
          end
      else
        r ← substitute_from parameters ls' idx;
        Ok (value +:+ r.1, r.2)
  end.
End Vocabulary.

(** Predicates on the characters of a string. *)
Fixpoint all_chars (p : ascii -> bool) (s : string) : bool :=
  match s with
  | EmptyString => true
  | String c s' => p c && all_chars p s'
  end.

Definition first_char_is (p : ascii -> bool) (s : string) : bool :=
  match s with
  | EmptyString => false
  | String c _ => p c
  end.

Definition last_char_is (p : ascii -> bool) (s : string) : bool :=
  first_char_is p (Str.rev s).

(** [result] is [text] without its leading and trailing whitespace and, after
    that, without its trailing semicolons. *)
Definition trimmed (text result : string) : Prop :=
  exists lead semis trail,
    text = lead +:+ (result +:+ semis) +:+ trail /\
    all_chars Str.isspace lead = true /\
    all_chars Str.isspace trail = true /\
    all_chars (Str.mem ";") semis = true /\
    first_char_is Str.isspace (result +:+ semis) = false /\
    last_char_is Str.isspace (result +:+ semis) = false /\
    last_char_is (Str.mem ";") result = false.

(** The trimming as the specification words it: the trailing whitespace
    goes, then one trailing semicolon; nothing else changes. *)
Definition trim_as_specified (text : string) : string :=
  let s := Str.rstrip_by Str.isspace text in
  if Str.endswith s ";" then Str.removelast s else s.

(** The cursor right after [sets] have been buffered by one call: the first
    set is active at position 0, the others wait. *)
Definition loaded (arraysize : Z) (st : CursorState) (sets : list RowSet)
  : Cursor :=
  match sets with
  | [] =>
      {| _arraysize := arraysize; _state := st; _descriptions := None;
         _rowcount := -1; _rows := None; _idx := 0; _row_sets := [];
         _next_set_idx := 0 |}
  | first :: _ =>
      {| _arraysize := arraysize; _state := st; _descriptions := first.1.2;
         _rowcount := first.1.1; _rows := first.2; _idx := 0;
         _row_sets := sets; _next_set_idx := 1 |}
  end.

(** A cursor on which a query has been executed and that is not closed. *)
Definition executed_open (self : Cursor) : Prop :=
  _state self = DONE \/ _state self = ERROR.

(** [n] calls of [nextset] in a row, with what each returns. *)
Fixpoint nextsets (n : nat) (self : Cursor)
  : Cursor * list (result (option bool)) :=
  match n with
  | O => (self, [])
  | S n' =>
      let '(self', r) := nextset self in
      let '(self'', rs) := nextsets n' self' in
      (self'', r :: rs)
  end.

Section CursorVocabulary.
Context {RT : PyRuntime} {client : Type} {TR : Transport client}.

(** The row set [_append_query_data] makes of a response. *)
Definition response_row_set (response : Response) : result RowSet :=
  if bool_decide (default "" (content_length response) ≠ "0")
  then invalid_query_data (decode_row_set response)
  else Ok (-1, None, None).

(** The request of one statement and the check of its response. *)
Definition checked_response (connection : Connection)
    (set_parameters : option (gmap string string)) (query : string)
  : M client Response :=
  resp ← request "/" "POST"
           (default ∅ set_parameters
            ∪ {[ "database" := database connection;
                 "output_format" := JSON_OUTPUT_FORMAT ]})
           query;
  _raise_if_error connection resp;;
  mret resp.

(** One statement: request, check, decoding. *)
Definition statement_row_set (connection : Connection)
    (set_parameters : option (gmap string string)) (query : string)
  : M client RowSet :=
  resp ← checked_response connection set_parameters query;
  lift (response_row_set resp).

(** The statements one after the other, up to the first that raises: the
    row sets of those before it, and what it raised. *)
Fixpoint collect (connection : Connection)
    (set_parameters : option (gmap string string)) (queries : list string)
    (cl : client) : client * (list RowSet * result unit) :=
  match queries with
  | [] => (cl, ([], Ok tt))
  | query :: queries' =>
      match statement_row_set connection set_parameters query cl with
      | (cl', Raise e) => (cl', ([], Raise e))
      | (cl', Ok row_set) =>
          let '(cl'', (sets, r)) :=
            collect connection set_parameters queries' cl' in
          (cl'', (row_set :: sets, r))
      end
  end.

(** The list of parameter sets [execute] passes on. *)
Definition params_list (parameters : option (list ParameterType))
  : list (list ParameterType) :=
  match parameters with
  | Some (p :: ps) => [p :: ps]
  | _ => []
  end.

(** What holds after a call of [_do_execute_request] on [(cl, self)] has
    raised [e] and left [(cl', self')]: the state is [ERROR]; [e] is what
    [split_format_sql] raised, or what the loop raised at the statement
    [failing] after the statements [done] had gone through; the cursor
    holds the row sets of [done], and serves them as the cursor of a
    successful call would, only in state [ERROR]. *)
Definition failed_call (connection : Connection) (query : string)
    (parameters : list (list ParameterType))
    (set_parameters : option (gmap string string))
    (cl : client) (self : Cursor) (cl' : client) (self' : Cursor)
    (e : exn) : Prop :=
  _state self' = ERROR /\
  exists sets,
    self' = loaded (_arraysize self) ERROR sets /\
    ((split_format_sql query parameters = Raise e /\ sets = [] /\ cl' = cl)
     \/
     (exists queries done failing rest cl1,
        split_format_sql query parameters = Ok queries /\
        queries = done ++ failing :: rest /\
        run_queries connection set_parameters done (cl, _reset self)
        = ((cl1, loaded (_arraysize self) NONE sets), Ok tt) /\
        length sets = length done /\
        run_query connection set_parameters failing
          (cl1, loaded (_arraysize self) NONE sets)
        = ((cl', loaded (_arraysize self) NONE sets), Raise e))) /\
    let served := loaded (_arraysize self) DONE sets in
    fetchone self'
    = (set_state ERROR (fetchone served).1, (fetchone served).2) /\
    (forall size,
       fetchmany size self'
       = (set_state ERROR (fetchmany size served).1,
          (fetchmany size served).2)) /\
    fetchall self'
    = (set_state ERROR (fetchall served).1, (fetchall served).2) /\
    nextset self'
    = (set_state ERROR (nextset served).1, (nextset served).2).
End CursorVocabulary.

(** A method that reads the state of the cursor only to tell an executed,
    open cursor from the others: it leaves the state alone and does the same
    in state [DONE] and in state [ERROR]. *)
Definition state_blind {A} (m : M Cursor A) : Prop :=
  forall self st,
    executed_open self -> st = DONE \/ st = ERROR ->
    _state (m self).1 = _state self /\
    m (set_state st self) = (set_state st (m self).1, (m self).2).

(** The cursor with [sets] buffered, set number [k] active and the fetch
    position at [i]. *)
Definition at_set (arraysize : Z) (st : CursorState) (sets : list RowSet)
    (k : nat) (row_set : RowSet) (i : Z) : Cursor :=
  {| _arraysize := arraysize; _state := st; _descriptions := row_set.1.2;
     _rowcount := row_set.1.1; _rows := row_set.2; _idx := i;
     _row_sets := sets; _next_set_idx := S k |}.

(** A row set has descriptions and rows, or neither. *)
Definition paired (row_set : RowSet) : Prop :=
  row_set.1.2 = None <-> row_set.2 = None.

(** A cursor method that leaves a closed cursor closed. *)
Definition keeps_closed {client A} (m : M (client * Cursor) A) : Prop :=
  forall cl self, _state self = CLOSED -> _state (m (cl, self)).1.2 = CLOSED.

(** Every cursor of the store is registered with the connection or closed,
    every registered reference is in the store, and a closed connection has
    closed cursors only. *)
Definition registered_or_closed {client} (w : World client) : Prop :=
  (forall c self, store w !! c = Some self ->
     c ∈ _cursors (connection w) \/ _state self = CLOSED) /\
  (forall c, c ∈ _cursors (connection w) -> (c < length (store w))%nat) /\
  (_is_closed (connection w) = true ->
   forall c self, store w !! c = Some self -> _state self = CLOSED).

(** The connection is closed and so is every cursor of the store. *)
Definition all_closed {client} (w : World client) : Prop :=
  _is_closed (connection w) = true /\
  forall c self, store w !! c = Some self -> _state self = CLOSED.

(** ** Vocabulary of the further properties *)

(** The classes [parse_type] gives to scalar names. *)
Definition scalar_class (c : pytype) : bool :=
  match c with
  | py_int | py_float | py_str | py_date | py_datetime => true
  | py_bool | py_list | py_NoneType => false
  end.

(** A well-formed type name without its [Nullable(...)] wrappers. *)
Fixpoint erase_nullable (x : type_name) : type_name :=
  match x with
  | Scalar t => Scalar t
  | Array_of x' => Array_of (erase_nullable x')
  | Nullable_of x' => erase_nullable x'
  end.

(** A reader of a quoted SQL literal, started after the opening quote: a
    backslash takes the character after it along, a quote that is not taken
    along closes the literal.  It returns the text after the closing quote,
    [None] if the literal is not closed. *)
Fixpoint literal_rest (s : string) : option string :=
  match s with
  | EmptyString => None
  | String c s' =>
      if Str.char_eqb c "'" then Some s'
      else if Str.char_eqb c "\" then
        match s' with
        | EmptyString => None
        | String _ s'' => literal_rest s''
        end
      else literal_rest s'
  end.

(** The reading back of an escaped text: the inverse of [escape_chars]. *)
Fixpoint unescape (s : string) : string :=
  match s with
  | EmptyString => EmptyString
  | String c s' =>
      if Str.char_eqb c "\" then
        match s' with
        | EmptyString => String c EmptyString
        | String d s'' =>
            String (if Str.char_eqb d "0" then "000"%char else d) (unescape s'')
        end
      else String c (unescape s')
  end.

(** The decoding of a row against given descriptions, without the cursor. *)
Definition parse_row_with `{PyRuntime} (cols : option (list Column))
    (row : Row) : result (list ColValue) :=
  match cols with
  | None => Raise (TypeError "object of type 'NoneType' has no len()")
  | Some cols =>
      if bool_decide (length row = length cols) then
        traverse (fun ic =>
            match cols !! ic.1 with
            | Some c => parse_value ic.2 (type_code c)
            | None => Raise (IndexError "list index out of range")
            end) (Py.enumerate row)
      else Raise (AssertionError "")
  end.

(** The registry of a connection holds each cursor that is not closed, once,
    and no other reference. *)
Definition registry_exact {client} (w : World client) : Prop :=
  NoDup (_cursors (connection w)) /\
  forall c, c ∈ _cursors (connection w) <->
            exists self, store w !! c = Some self /\ _state self ≠ CLOSED.

(** A cursor method that does not close a cursor. *)
Definition keeps_open {client A} (m : M (client * Cursor) A) : Prop :=
  forall cl self, _state self ≠ CLOSED -> _state (m (cl, self)).1.2 ≠ CLOSED.

(** [fetchone] called until it returns [None], at most [fuel] times: the
    rows it has returned, or the first exception. *)
Fixpoint fetchone_until_None `{PyRuntime} (fuel : nat) (self : Cursor)
  : Cursor * result (list (list ColValue)) :=
  match fuel with
  | O => (self, Ok [])
  | S fuel' =>
      match fetchone self with
      | (self', Ok None) => (self', Ok [])
      | (self', Ok (Some row)) =>
          match fetchone_until_None fuel' self' with
          | (self'', Ok rows) => (self'', Ok (row :: rows))
          | (self'', Raise e) => (self'', Raise e)
          end
      | (self', Raise e) => (self', Raise e)
      end
  end.

(** An executed, open cursor whose active set has the rows [rows], with
    the fetch position inside them. *)
Definition in_range (self : Cursor) (rows : list Row) : Prop :=
  executed_open self /\ _rows self = Some rows /\
  0 ≤ _idx self ≤ Z.of_nat (length rows).

(** A transport that answers as the one of the examples, but whose close
    fails. *)
Definition refusing_close : Transport Fixture.script := {|
  request := request (Transport := Fixture.transport);
  is_db_available := is_db_available (Transport := Fixture.transport);
  is_engine_running := is_engine_running (Transport := Fixture.transport);
  aclose := fun cl => (cl, Raise (HTTPError "connection reset"))
|}.

(** The cursor on which no query has been run, with its [arraysize]. *)
Definition unexecuted `{PyRuntime} (arraysize : Z) : Cursor :=
  set_arraysize arraysize Cursor__init__.

(** The active set of a cursor is the buffered set before [_next_set_idx],
    and no set is active when none is buffered; each buffered set has
    descriptions and rows, or neither. *)
Definition active_is_buffered (self : Cursor) : Prop :=
  Forall paired (_row_sets self) /\
  match _next_set_idx self with
  | O => _row_sets self = [] /\ _rowcount self = -1 /\
         _descriptions self = None /\ _rows self = None
  | S k => _row_sets self !! k
           = Some (_rowcount self, _descriptions self, _rows self)
  end.

(** A fetched value is of a type code: [None] is of every one, a list is
    of [ARRAY(subtype)] when its items are of [subtype], and the others are
    of their class. *)
Fixpoint has_type (value : ColValue) (ctype : coltype) {struct ctype} : bool :=
  match value with
  | CNone => true
  | _ =>
      match ctype with
      | Class py_int => match value with CInt _ => true | _ => false end
      | Class py_float => match value with CFloat _ => true | _ => false end
      | Class py_str => match value with CStr _ => true | _ => false end
      | Class py_date => match value with CDate _ => true | _ => false end
      | Class py_datetime =>
          match value with CDatetime _ => true | _ => false end
      | Class _ => false
      | ARRAY subtype =>
          match value with
          | CList items => forallb (fun item => has_type item subtype) items
          | _ => false
          end
      end
  end.

(** A row has one value for each column, of the type code of the column. *)
Definition row_typed (cols : list Column) (row : list ColValue) : Prop :=
  Forall2 (fun col value => has_type value (type_code col) = true) cols row.

(** The type text of the first item, depth first and left to right, that
    [format_value] has no literal for. *)
Fixpoint first_unsupported (value : ParameterType) : option string :=
  match value with
  | PObject type_str => Some type_str
  | PSeq items =>
      (fix first (items : list ParameterType) : option string :=
         match items with
         | [] => None
         | item :: items' =>
             match first_unsupported item with
             | Some type_str => Some type_str
             | None => first items'
             end
         end) items
  | _ => None
  end.

(** The wrappers [parse_type] strips from a name before it looks it up:
    each takes one more call of the recursion. *)
Fixpoint wrappers_rec (fuel : nat) (raw_type : string) : nat :=
  match fuel with
  | O => 0
  | S fuel' =>
      if Str.startswith raw_type ARRAY_._prefix && Str.endswith raw_type ")"
      then
        S (wrappers_rec fuel'
             (Str.slice_to_last (String.length ARRAY_._prefix) raw_type))
      else if Str.startswith raw_type NULLABLE_PREFIX
              && Str.endswith raw_type ")"
      then
        S (wrappers_rec fuel'
             (Str.slice_to_last (String.length NULLABLE_PREFIX) raw_type))
      else 0
  end.

Definition wrappers (raw_type : string) : nat :=
  wrappers_rec (String.length raw_type) raw_type.

(** A depth of nesting that stays far inside the limit of the interpreter on
    the depth of the recursion, 1000 frames unless it is set otherwise. *)
Definition nesting_bound : nat := 100.

(** A parameter that [format_value] goes through inside the limits of the
    interpreter: every [int] has a text, and the sequences are nested less
    than [frames] deep. *)
Fixpoint within_limits (frames : nat) (value : ParameterType) {struct frames}
  : bool :=
  match value with
  | PInt z =>
      bool_decide (String.length (pretty (Z.abs z)) ≤ int_max_str_digits)%nat
  | PSeq items =>
      match frames with
      | O => false
      | S frames' => forallb (within_limits frames') items
      end
  | _ => true
  end.

(** The parameters of the request of a statement. *)
Definition request_params (connection : Connection)
    (set_parameters : option (gmap string string)) : gmap string string :=
  default ∅ set_parameters
  ∪ {[ "database" := database connection;
       "output_format" := JSON_OUTPUT_FORMAT ]}.

(** The column a cursor makes of an entry of ["meta"]. *)
Definition column_of `{PyRuntime} (entry : MetaEntry) (col : Column) : Prop :=
  meta_name entry = Some (name col) /\
  (exists raw_type,
     meta_type entry = Some raw_type /\
     parse_type raw_type = Ok (type_code col)) /\
  display_size col = None /\ internal_size col = None /\
  precision col = None /\ scale col = None /\ null_ok col = None.

(** What the failure of a statement makes of a call. *)
Section FailureVocabulary.
Context {RT : PyRuntime} {client : Type} {TR : Transport client}.

(** A failure inside a call of [execute] or [executemany] on [(cl, self)]
    is the failure of the call, where [outcome] is what the call gives:
    when [split_format_sql] raises [e], the call raises [e] on the cursor
    reset and in state [ERROR]; when the loop has run the statements
    [done] and [run_query] raises [e] at the statement [failing], the call
    raises [e] and leaves the cursor as the loop had it then, with one row
    set for each statement of [done], in state [ERROR]. *)
Definition failure_propagates (connection : Connection) (query : string)
    (parameters : list (list ParameterType))
    (set_parameters : option (gmap string string))
    (cl : client) (self : Cursor)
    (outcome : (client * Cursor) * result Z) : Prop :=
  (forall e,
     split_format_sql query parameters = Raise e ->
     outcome = ((cl, set_state ERROR (_reset self)), Raise e)) /\
  (forall queries done failing rest cl1 self1 cl' self' e,
     split_format_sql query parameters = Ok queries ->
     queries = done ++ failing :: rest ->
     run_queries connection set_parameters done (cl, _reset self)
     = ((cl1, self1), Ok tt) ->
     run_query connection set_parameters failing (cl1, self1)
     = ((cl', self'), Raise e) ->
     self' = self1 /\
     length (_row_sets self1) = length done /\
     outcome = ((cl', set_state ERROR self1), Raise e)).

(** A failure of one of the steps of [run_query] on a statement is the
    failure of [run_query]: of the request, of the check of the response,
    of its decoding.  The first two leave the cursor as it was. *)
Definition step_failure_propagates (connection : Connection)
    (set_parameters : option (gmap string string)) (statement : string)
    (cl : client) (self : Cursor) : Prop :=
  match request "/" "POST" (request_params connection set_parameters)
          statement cl with
  | (cl1, Raise e) =>
      run_query connection set_parameters statement (cl, self)
      = ((cl1, self), Raise e)
  | (cl1, Ok response) =>
      match _raise_if_error connection response cl1 with
      | (cl2, Raise e) =>
          run_query connection set_parameters statement (cl, self)
          = ((cl2, self), Raise e)
      | (cl2, Ok _) =>
          match _append_query_data response self with
          | (self', Raise e) =>
              run_query connection set_parameters statement (cl, self)
              = ((cl2, self'), Raise e)
          | (_, Ok _) => True
          end
      end
  end.
End FailureVocabulary.

(** ** [client.py] *)

(** The exceptions of the client and of [connect], next to the built-in
    ones. *)
Inductive error : Type :=
  | AuthenticationError (cause : RawValue) (api_endpoint : string)
  | InterfaceError (msg : string)
  | Builtin (e : exn).

(** What a call of the client or of [connect] ends with. *)
Inductive outcome (A : Type) : Type :=
  | Return (a : A)
  | Throw (e : error).
Arguments Return {A} a.
Arguments Throw {A} e.

(** A computation on a state [S] that returns or throws. *)
Definition Act (S A : Type) : Type := S -> S * outcome A.

Global Instance Act_ret {S} : MRet (Act S) := fun _ a s => (s, Return a).
Global Instance Act_bind {S} : MBind (Act S) := fun _ _ k m s =>
  match m s with
  | (s', Return a) => k a s'
  | (s', Throw e) => (s', Throw e)
  end.

(** A result of the core, with its exception as a built-in one. *)
Definition of_result {S A} (r : result A) : Act S A := fun s =>
  match r with
  | Ok a => (s, Return a)
  | Raise e => (s, Throw (Builtin e))
  end.

(** The truth value of a JSON value. *)
Definition truthy (value : RawValue) : bool :=
  match value with
  | RNone => false
  | RBool b => b
  | RInt z => negb (bool_decide (z = 0))
  | RFloat (S754_zero _) => false
  | RFloat _ => true
  | RStr s => negb (bool_decide (s = ""))
  | RList items => negb (bool_decide (items = []))
  end.

Module Auth.
(** What [FireboltAuth] reads of the response of the login request. *)
Record LoginResponse : Type := {
  (** [raise_for_status()] *)
  login_raise_for_status : result unit;
  (** [json()] *)
  login_json : result (gmap string RawValue)
}.

(** The network and the clock, as transitions of a state [net]. *)
Class Network (net : Type) : Type := {
  (** [httpx.post(url, headers, json={username, password}, timeout)] *)
  post : string -> string -> string -> net -> net * result LoginResponse;
  (** [int(time.time())] *)
  time : net -> net * Z;
  (** [repr(e)] *)
  repr_exn : exn -> string
}.

(** The attributes of a [FireboltAuth]. *)
Record FireboltAuth : Type := {
  username : string;
  password : string;
  _api_endpoint : string;
  _token : RawValue;
  _expires : option Z
}.

Definition set_token (value : RawValue) (self : FireboltAuth) : FireboltAuth :=
  {| username := username self; password := password self;
     _api_endpoint := _api_endpoint self; _token := value;
     _expires := _expires self |}.

Definition set_expires (value : Z) (self : FireboltAuth) : FireboltAuth :=
  {| username := username self; password := password self;
     _api_endpoint := _api_endpoint self; _token := _token self;
     _expires := Some value |}.

(** [_REQUEST_ERRORS]: the exceptions that [get_new_token] turns into an
    [AuthenticationError].  [HTTPError] stands for the exceptions of
    [httpx] in the tuple; [JSONDecodeError] is a [ValueError]. *)
Definition is_request_error (e : exn) : bool :=
  match e with
  | HTTPError _ | KeyError _ | ValueError _ => true
  | _ => false
  end.

Section Methods.
Context {RT : PyRuntime} {net : Type} {NW : Network net}.

(** [__init__] *)
Definition __init__ (username password api_endpoint : string)
  : FireboltAuth :=
  {| username := username; password := password;
     _api_endpoint := api_endpoint; _token := RNone; _expires := None |}.

(** A step of the network, and an assignment to the attributes. *)
Definition on_net {A} (m : net -> net * A) : Act (net * FireboltAuth) A :=
  fun s => let '(n, a) := m s.1 in ((n, s.2), Return a).

Definition on_auth (f : FireboltAuth -> FireboltAuth)
  : Act (net * FireboltAuth) unit :=
  fun s => ((s.1, f s.2), Return tt).

(** [expired] *)
Definition expired : Act (net * FireboltAuth) bool := fun s =>
  match _expires s.2 with
  | None => (s, Return false)
  | Some expires => on_net (fun n =>
      let '(n', t) := time n in (n', bool_decide (expires ≤ t))) s
  end.

(** [_check_response_error] *)
Definition _check_response_error (response : gmap string RawValue)
  : Act (net * FireboltAuth) unit := fun s =>
  if bool_decide (is_Some (response !! "error")) then
    (s, Throw (AuthenticationError
                 (default (RStr "unknown server error")
                    (response !! "message"))
                 (_api_endpoint s.2)))
  else (s, Return tt).

(** The body of the [try] of [get_new_token]. *)
Definition request_token : Act (net * FireboltAuth) unit :=
  response ← (fun s =>
     let '(n, r) := post ("https://" +:+ _api_endpoint s.2 +:+ "/auth/v1/login")
                      (username s.2) (password s.2) s.1 in
     of_result r (n, s.2));
  of_result (login_raise_for_status response);;
  parsed ← of_result (login_json response);
  _check_response_error parsed;;
  access_token ← of_result (item "access_token" (parsed !! "access_token"));
  on_auth (set_token access_token);;
  t ← on_net time;
  expiry ← of_result (raw ← item "expiry" (parsed !! "expiry"); int_ raw);
  on_auth (set_expires (t + expiry)).

(** [get_new_token] *)
Definition get_new_token : Act (net * FireboltAuth) unit := fun s =>
  match request_token s with
  | (s', Throw (Builtin e)) =>
      if is_request_error e then
        (s', Throw (AuthenticationError (RStr (repr_exn e))
                      (_api_endpoint s'.2)))
      else (s', Throw (Builtin e))
  | r => r
  end.

(** [token] *)
Definition token : Act (net * FireboltAuth) RawValue :=
  refresh ← ((fun s =>
     if negb (truthy (_token s.2)) then (s, Return true) else expired s)
     : Act (net * FireboltAuth) bool);
  ((if (refresh : bool) then get_new_token else mret tt)
     : Act (net * FireboltAuth) unit);;
  ((fun s => (s, Return (_token s.2))) : Act (net * FireboltAuth) RawValue).

(** The header [auth_flow] sets on a request. *)
Definition auth_flow : Act (net * FireboltAuth) string :=
  value ← token;
  mret ("Bearer " +:+ str_ value).
End Methods.
End Auth.

(** ** [connection.py]: [connect] *)

(** The truth value of an optional [str] argument. *)
Definition given (argument : option string) : bool :=
  match argument with
  | Some (String _ _) => true
  | _ => false
  end.

Section Connect.
Context {RT : PyRuntime} {client net : Type}.
(** [firebolt.common.util.fix_url_schema] *)
Variable fix_url_schema : string -> string.
(** [_resolve_engine_url(engine_name, username, password, api_endpoint,
    account_name)], a conversation with the API *)
Variable _resolve_engine_url :
  string -> string -> string -> string -> option string ->
  Act net string.
(** The client [BaseConnection.__init__] makes of the user name, the
    password, the engine URL and the API endpoint *)
Variable AsyncClient : string -> string -> string -> string -> client.

(** [if not param: raise InterfaceError(f"{name} is required to connect.")] *)
Definition required (param : option string) (name : string)
  : Act net string := fun n =>
  match param with
  | Some (String c s) => (n, Return (String c s))
  | _ => (n, Throw (InterfaceError (name +:+ " is required to connect.")))
  end.

(** [connect_inner] of [async_connect_factory], for the connection class
    [Connection].  The loop over database, user name and password is
    written out; past the two checks of the engine one of [engine_name] and
    [engine_url] is a [str] that is not empty, the one that is read. *)
Definition connect_inner
    (database username password engine_name engine_url account_name
       : option string)
    (api_endpoint : string) : Act net (World client) :=
  if given engine_name && given engine_url then
    fun n => (n, Throw (InterfaceError
      "Both engine_name and engine_url are provided. Provide only one to connect."))
  else if negb (given engine_name) && negb (given engine_url) then
    fun n => (n, Throw (InterfaceError
      "Neither engine_name nor engine_url is provided. Provide one to connect."))
  else
    let api_endpoint := fix_url_schema api_endpoint in
    database ← required database "database";
    username ← required username "username";
    password ← required password "password";
    engine_url ←
      (if given engine_name then
         _resolve_engine_url (default "" engine_name) username password
           api_endpoint account_name
       else mret (default "" engine_url));
    let engine_url := fix_url_schema engine_url in
    mret (Connection__init__ engine_url database api_endpoint
            (AsyncClient username password engine_url api_endpoint)).
End Connect.

(** A network for the examples: the responses to the next login requests,
    and a clock that each reading advances by one second. *)
Definition scripted_login : Auth.Network (list (result Auth.LoginResponse) * Z) := {|
  Auth.post := fun _ _ _ n =>
    match n.1 with
    | [] => (n, Raise (HTTPError "connection refused"))
    | r :: rest => ((rest, n.2), r)
    end;
  Auth.time := fun n => ((n.1, n.2 + 1), n.2);
  Auth.repr_exn := fun e =>
    match e with
    | KeyError key => "KeyError('" +:+ key +:+ "')"
    | _ => "Exception()"
    end
|}.

Definition login_ok (fields : gmap string RawValue) : Auth.LoginResponse :=
  {| Auth.login_raise_for_status := Ok tt; Auth.login_json := Ok fields |}.

(** * Properties *)

(** ** Strings *)

Lemma string_app_cons (c : ascii) (s t : string) :
  String c s +:+ t = String c (s +:+ t).
Proof. reflexivity. Qed.

Lemma string_app_nil_l (t : string) : "" +:+ t = t.
Proof. reflexivity. Qed.

Lemma string_app_nil_r (s : string) : s +:+ "" = s.
Proof. induction s as [|c s IH]; [done|]. by rewrite string_app_cons, IH. Qed.

Lemma string_app_assoc (s t u : string) : (s +:+ t) +:+ u = s +:+ t +:+ u.
Proof. induction s as [|c s IH]; [done|]. by rewrite !string_app_cons, IH. Qed.

Lemma string_length_app (s t : string) :
  String.length (s +:+ t) = (String.length s + String.length t)%nat.
Proof. induction s as [|c s IH]; [done|]. rewrite string_app_cons. simpl. by rewrite IH. Qed.

Lemma rev_onto_app (s t acc : string) :
  Str.rev_onto (s +:+ t) acc = Str.rev_onto t (Str.rev_onto s acc).
Proof.
  revert acc. induction s as [|c s IH]; intros acc; [done|].
  rewrite string_app_cons. simpl. by rewrite IH.
Qed.

Lemma rev_onto_acc (s acc : string) :
  Str.rev_onto s acc = Str.rev s +:+ acc.
Proof.
  unfold Str.rev. revert acc.
  induction s as [|c s IH]; intros acc; simpl; [done|].
  rewrite (IH (String c acc)), (IH (String c EmptyString)).
  by rewrite string_app_assoc.
Qed.

Lemma rev_app (s t : string) : Str.rev (s +:+ t) = Str.rev t +:+ Str.rev s.
Proof.
  unfold Str.rev at 1. rewrite rev_onto_app, rev_onto_acc. done.
Qed.

Lemma rev_cons (c : ascii) (s : string) :
  Str.rev (String c s) = Str.rev s +:+ String c "".
Proof. unfold Str.rev at 1. simpl. by rewrite rev_onto_acc. Qed.

Lemma rev_involutive (s : string) : Str.rev (Str.rev s) = s.
Proof.
  induction s as [|c s IH]; [done|].
  rewrite rev_cons, rev_app, IH. done.
Qed.

Lemma endswith_app_char (s : string) (c : ascii) :
  Str.endswith (s +:+ String c "") (String c "") = true.
Proof.
  unfold Str.endswith. rewrite rev_app.
  change (Str.rev (String c "")) with (String c "").
  rewrite string_app_cons. simpl.
  unfold Str.char_eqb. by rewrite bool_decide_eq_true_2.
Qed.

Lemma removelast_app_char (s : string) (c : ascii) :
  Str.removelast (s +:+ String c "") = s.
Proof.
  induction s as [|d s IH]; [done|].
  rewrite string_app_cons. simpl. rewrite IH.
  destruct s; [done|]. by rewrite string_app_cons.
Qed.

Lemma length_drop_le (n : nat) (s : string) :
  (String.length (Str.drop n s) ≤ String.length s)%nat.
Proof.
  revert s. induction n as [|n IH]; intros [|c s]; simpl; try lia.
  specialize (IH s). lia.
Qed.

Lemma length_removelast (s : string) :
  String.length (Str.removelast s) = pred (String.length s).
Proof.
  induction s as [|c s IH]; [done|].
  destruct s as [|d s]; [done|].
  change (Str.removelast (String c (String d s)))
    with (String c (Str.removelast (String d s))).
  simpl String.length in *. rewrite IH. done.
Qed.

Lemma slice_to_last_shorter (n : nat) (s : string) :
  s ≠ "" ->
  (String.length (Str.slice_to_last n s) < String.length s)%nat.
Proof.
  intros Hs. unfold Str.slice_to_last. rewrite length_removelast.
  pose proof (length_drop_le n s). destruct s; [done|]. simpl in *. lia.
Qed.

Lemma startswith_nonempty (s : string) (c : ascii) (p : string) :
  Str.startswith s (String c p) = true -> s ≠ "".
Proof. by destruct s. Qed.

(** ** [parse_type] *)

Lemma ARRAY_eq_spec (a b : coltype) : ARRAY_.__eq__ a b = true <-> a = b.
Proof.
  revert b. induction a as [c|a IH]; intros [d|b]; simpl; try done.
  - rewrite bool_decide_eq_true. split; congruence.
  - rewrite IH. split; congruence.
Qed.

Lemma ARRAY_eq_sym (a b : coltype) : ARRAY_.__eq__ a b = ARRAY_.__eq__ b a.
Proof.
  destruct (ARRAY_.__eq__ a b) eqn:Hab, (ARRAY_.__eq__ b a) eqn:Hba; try done.
  - apply ARRAY_eq_spec in Hab. subst.
    pose proof (proj2 (ARRAY_eq_spec b b) eq_refl). congruence.
  - apply ARRAY_eq_spec in Hba. subst.
    pose proof (proj2 (ARRAY_eq_spec a a) eq_refl). congruence.
Qed.

Lemma parse_type_rec_S (fuel : nat) (raw_type : string) :
  parse_type_rec (S fuel) raw_type
  = parse_type_step (parse_type_rec fuel) raw_type.
Proof. reflexivity. Qed.

Lemma parse_type_step_ext (rec1 rec2 : string -> result coltype) (s : string) :
  (forall s', (String.length s' < String.length s)%nat -> rec1 s' = rec2 s') ->
  parse_type_step rec1 s = parse_type_step rec2 s.
Proof.
  intros H. unfold parse_type_step.
  destruct (Str.startswith s ARRAY_._prefix) eqn:Ha;
    destruct (Str.startswith s NULLABLE_PREFIX) eqn:Hn;
    destruct (Str.endswith s ")"); cbn [andb]; try done.
  all: rewrite H; [done|].
  all: apply slice_to_last_shorter; eapply startswith_nonempty; eauto.
Qed.

Lemma parse_type_rec_fuel (n m : nat) (s : string) :
  (String.length s < n)%nat -> (String.length s < m)%nat ->
  parse_type_rec n s = parse_type_rec m s.
Proof.
  revert m s. induction n as [|n IH]; intros m s Hn Hm; [lia|].
  destruct m as [|m]; [lia|].
  rewrite !parse_type_rec_S. apply parse_type_step_ext.
  intros s' Hs'. apply IH; lia.
Qed.

(** [parse_type_str] satisfies the recursive equation of the source: the
    fuel never runs out. *)
Lemma parse_type_unfold (raw_type : string) :
  parse_type_str raw_type = parse_type_step parse_type_str raw_type.
Proof.
  unfold parse_type_str at 1. rewrite parse_type_rec_S.
  apply parse_type_step_ext. intros s' Hs'.
  unfold parse_type_str. apply parse_type_rec_fuel; lia.
Qed.

Lemma ARRAY_init_ok (t : coltype) :
  innermost t ≠ py_list -> ARRAY_.__init__ t = Ok (ARRAY t).
Proof. destruct t as [[]|]; simpl; done. Qed.

(** [parse_type] returns a type code for every name: the recursion bound is
    not met and the assertion of [ARRAY] holds. *)
Lemma parse_type_total (raw_type : string) :
  exists t, parse_type_str raw_type = Ok t /\ innermost t ≠ py_list.
Proof.
  remember (String.length raw_type) as n eqn:Hn.
  revert raw_type Hn. induction n as [n IH] using lt_wf_ind.
  intros s ->. rewrite parse_type_unfold. unfold parse_type_step.
  assert (exists t,
            match InternalType.of_value s with
            | Some t => Ok (Class (InternalType.python_type t))
            | None => Ok (Class py_str)
            end = Ok t /\ innermost t ≠ py_list) as Hscalar.
  { destruct (InternalType.of_value s) as [t|]; eexists;
      (split; [reflexivity|]); simpl; [by destruct t|done]. }
  assert (forall k, s ≠ "" ->
            exists t, parse_type_str (Str.slice_to_last k s) = Ok t /\
                      innermost t ≠ py_list) as Hrec.
  { intros k Hne. eapply IH; [|reflexivity]. by apply slice_to_last_shorter. }
  destruct (Str.startswith s ARRAY_._prefix) eqn:Ha;
    destruct (Str.startswith s NULLABLE_PREFIX) eqn:Hn;
    destruct (Str.endswith s ")"); cbn [andb]; try exact Hscalar.
  - destruct (Hrec (String.length ARRAY_._prefix)) as (t & -> & Ht);
      [by eapply startswith_nonempty|].
    simpl. rewrite ARRAY_init_ok by done. by eexists.
  - destruct (Hrec (String.length ARRAY_._prefix)) as (t & -> & Ht);
      [by eapply startswith_nonempty|].
    simpl. rewrite ARRAY_init_ok by done. by eexists.
  - apply Hrec. by eapply startswith_nonempty.
Qed.

Lemma parse_type_Array (s : string) :
  parse_type_str ("Array(" +:+ s +:+ ")")
  = (subtype ← parse_type_str s; ARRAY_.__init__ subtype).
Proof.
  rewrite parse_type_unfold. unfold parse_type_step.
  assert (Str.startswith ("Array(" +:+ s +:+ ")") ARRAY_._prefix = true)
    as -> by reflexivity.
  assert (Str.endswith ("Array(" +:+ s +:+ ")") ")" = true) as ->.
  { rewrite <- string_app_assoc. apply endswith_app_char. }
  cbn [andb].
  assert (Str.slice_to_last (String.length ARRAY_._prefix)
            ("Array(" +:+ s +:+ ")") = s) as ->; [|done].
  change (Str.removelast (s +:+ ")") = s). apply removelast_app_char.
Qed.

Lemma parse_type_Nullable (s : string) :
  parse_type_str ("Nullable(" +:+ s +:+ ")") = parse_type_str s.
Proof.
  rewrite parse_type_unfold. unfold parse_type_step.
  assert (Str.startswith ("Nullable(" +:+ s +:+ ")") ARRAY_._prefix = false)
    as -> by reflexivity.
  assert (Str.startswith ("Nullable(" +:+ s +:+ ")") NULLABLE_PREFIX = true)
    as -> by reflexivity.
  assert (Str.endswith ("Nullable(" +:+ s +:+ ")") ")" = true) as ->.
  { rewrite <- string_app_assoc. apply endswith_app_char. }
  cbn [andb].
  assert (Str.slice_to_last (String.length NULLABLE_PREFIX)
            ("Nullable(" +:+ s +:+ ")") = s) as ->; [|done].
  change (Str.removelast (s +:+ ")") = s). apply removelast_app_char.
Qed.

Lemma parse_type_scalar (t : _InternalType) :
  parse_type_str (InternalType.value t)
  = Ok (Class (InternalType.python_type t)).
Proof. destruct t; vm_compute; reflexivity. Qed.

Lemma parse_type_class_str (c : pytype) :
  parse_type_str (pytype_str c) = Ok (Class py_str).
Proof. destruct c; vm_compute; reflexivity. Qed.

Lemma innermost_semantic_type (x : type_name) :
  innermost (semantic_type x) = InternalType.python_type (scalar_of x).
Proof. induction x; simpl; done. Qed.

Lemma python_type_not_list (t : _InternalType) :
  InternalType.python_type t ≠ py_list.
Proof. by destruct t. Qed.

(** A well-formed name parses to the type code it stands for. *)
Lemma parse_type_well_formed (x : type_name) :
  parse_type_str (type_name_str x) = Ok (semantic_type x).
Proof.
  induction x as [t|x IH|x IH]; simpl.
  - apply parse_type_scalar.
  - rewrite parse_type_Array, IH. simpl. apply ARRAY_init_ok.
    rewrite innermost_semantic_type. apply python_type_not_list.
  - by rewrite parse_type_Nullable.
Qed.

Lemma innermost_as_strings (t : coltype) : innermost (as_strings t) = py_str.
Proof. induction t; simpl; done. Qed.

(** Parsing the text of a type code keeps the nesting and makes the
    innermost class [str]. *)
Lemma parse_type_of_str (t : coltype) :
  parse_type_str (ARRAY_.__str__ t) = Ok (as_strings t).
Proof.
  induction t as [c|t IH]; simpl.
  - apply parse_type_class_str.
  - rewrite parse_type_Array, IH. simpl. apply ARRAY_init_ok.
    by rewrite innermost_as_strings.
Qed.

Lemma as_strings_fixed (t : coltype) :
  as_strings t = t <-> innermost t = py_str.
Proof.
  induction t as [c|t IH]; simpl.
  - split; congruence.
  - rewrite <- IH. split; congruence.
Qed.

(** C8, as the code has it: for every well-formed type name [x], of any
    nesting depth, [parse_type(x)] is the type code [x] stands for, and
    parsing [str] of that type code gives the same [Array] nesting with the
    innermost class replaced by [str]; the result is equal (by [__eq__]) to
    [parse_type(x)] exactly when the scalar name of [x] maps to [str], that
    is for [String] and [Nothing]. *)
Theorem parse_type_reserialized (x : type_name) :
  exists t t',
    parse_type_str (type_name_str x) = Ok t /\
    parse_type_str (ARRAY_.__str__ t) = Ok t' /\
    t' = as_strings t /\
    (ARRAY_.__eq__ t' t = true
     <-> scalar_of x = String_ \/ scalar_of x = Nothing).
Proof.
  exists (semantic_type x), (as_strings (semantic_type x)).
  split; [apply parse_type_well_formed|].
  split; [apply parse_type_of_str|].
  split; [done|].
  rewrite ARRAY_eq_spec, as_strings_fixed, innermost_semantic_type.
  destruct (scalar_of x); simpl; intuition congruence.
Qed.

(** C8 fails as stated: [Int8] is well formed with no wrapper, it parses to
    [int], [str(int)] is the text of the class, and that text parses to
    [str], which is not [int]. *)
Lemma parse_type_reserialized_Int8 :
  nesting_depth (Scalar Int8) = 0%nat /\
  parse_type_str (type_name_str (Scalar Int8)) = Ok (Class py_int) /\
  ARRAY_.__str__ (Class py_int) = "<class 'int'>" /\
  parse_type_str (ARRAY_.__str__ (Class py_int)) = Ok (Class py_str) /\
  ARRAY_.__eq__ (Class py_str) (Class py_int) = false.
Proof. vm_compute. done. Qed.

(** ** [parse_value] and [format_statement] *)

Lemma Token_ind' (P : Token -> Prop)
    (Hleaf : forall ttype value, P (Leaf ttype value))
    (Hlist : forall tokens, Forall P tokens -> P (TokenList tokens)) :
  forall token, P token.
Proof.
  fix IH 1. intros [ttype value|tokens]; [apply Hleaf|].
  apply Hlist. induction tokens as [|t ts IHts]; constructor; [apply IH|done].
Qed.

Lemma concat_cons (x : string) (xs : list string) :
  Str.concat (x :: xs) = x +:+ Str.concat xs.
Proof.
  unfold Str.concat. destruct xs as [|y ys]; simpl.
  - by rewrite string_app_nil_r.
  - done.
Qed.

Lemma substitute_plain (ttype : TokenType) (value : string)
    (ls : list (TokenType * string)) (literals : list string) :
  is_placeholder ttype = false ->
  substitute ((ttype, value) :: ls) literals
  = value +:+ substitute ls literals.
Proof. intros H. simpl. by rewrite H. Qed.

Section TypesProperties.
Context {RT : PyRuntime}.

Lemma process_token_TokenList (parameters : list ParameterType)
    (tokens : list Token) (idx : nat) :
  process_token parameters (TokenList tokens) idx
  = (r ← process_tokens parameters tokens idx; Ok (TokenList r.1, r.2)).
Proof. reflexivity. Qed.

Lemma process_tokens_cons (parameters : list ParameterType) (t : Token)
    (ts : list Token) (idx : nat) :
  process_tokens parameters (t :: ts) idx
  = (r ← process_token parameters t idx;
     rs ← process_tokens parameters ts r.2;
     Ok (r.1 :: rs.1, rs.2)).
Proof. reflexivity. Qed.

Lemma traverse_length {A B} (f : A -> result B) (xs : list A)
    (ys : list B) :
  traverse f xs = Ok ys -> length ys = length xs.
Proof.
  revert ys. induction xs as [|x xs IH]; intros ys; simpl.
  - by intros [= <-].
  - destruct (f x) as [y|]; simpl; [|done].
    destruct (traverse f xs) as [ys'|]; simpl; [|done].
    intros [= <-]. simpl. by rewrite (IH ys').
Qed.

Lemma traverse_lookup {A B} (f : A -> result B) (xs : list A)
    (ys : list B) (i : nat) (x : A) :
  traverse f xs = Ok ys -> xs !! i = Some x ->
  exists y, f x = Ok y /\ ys !! i = Some y.
Proof.
  revert ys i. induction xs as [|x' xs IH]; intros ys i; simpl; [done|].
  destruct (f x') as [y'|] eqn:Hy; simpl; [|done].
  destruct (traverse f xs) as [ys'|]; simpl; [|done].
  intros [= <-]. destruct i as [|i]; simpl.
  - intros [= ->]. eauto.
  - intros Hx. by apply (IH ys').
Qed.

Lemma process_token_leaf (parameters : list ParameterType)
    (literals : list string) (ttype : TokenType) (value : string) :
  traverse format_value parameters = Ok literals ->
  process_token_spec parameters literals (Leaf ttype value).
Proof.
  intros Hlits idx Hidx.
  pose proof (traverse_length _ _ _ Hlits) as Hlen.
  unfold count_placeholders. simpl.
  destruct (is_placeholder ttype) eqn:Hp.
  - rewrite filter_cons_True by done. simpl.
    destruct (decide (idx + 1 ≤ length parameters)%nat) as [Hle|Hgt].
    + rewrite bool_decide_eq_false_2 by lia.
      destruct (lookup_lt_is_Some_2 parameters idx) as [p Hp']; [lia|].
      rewrite Hp'.
      destruct (traverse_lookup _ _ _ _ _ Hlits Hp') as (lit & Hf & Hl).
      rewrite Hf. simpl. eexists. split.
      * by replace (idx + 1)%nat with (S idx) by lia.
      * intros rest. rewrite (drop_S _ _ _ Hl). simpl. rewrite ?Hp.
        by replace (idx + 1)%nat with (S idx) by lia.
    + rewrite bool_decide_eq_true_2 by lia. done.
  - rewrite filter_cons_False by (simpl; congruence). simpl.
    rewrite decide_True by lia. eexists. split.
    + by replace (idx + 0)%nat with idx by lia.
    + intros rest. simpl. rewrite ?Hp.
      by replace (idx + 0)%nat with idx by lia.
Qed.

Lemma count_placeholders_cons (t : Token) (ts : list Token) :
  count_placeholders (TokenList (t :: ts))
  = (count_placeholders t + count_placeholders (TokenList ts))%nat.
Proof.
  unfold count_placeholders. simpl. by rewrite filter_app, length_app.
Qed.

Lemma process_token_list (parameters : list ParameterType)
    (literals : list string) (tokens : list Token) :
  Forall (process_token_spec parameters literals) tokens ->
  process_token_spec parameters literals (TokenList tokens).
Proof.
  intros Hall.
  assert (forall idx, (idx ≤ length parameters)%nat ->
    let n := count_placeholders (TokenList tokens) in
    if decide (idx + n ≤ length parameters)%nat then
      exists tokens',
        process_tokens parameters tokens idx = Ok (tokens', (idx + n)%nat) /\
        forall rest,
          Str.concat (List.map token_str tokens')
          +:+ substitute rest (drop (idx + n) literals)
          = substitute (flat_map leaves tokens ++ rest) (drop idx literals)
    else process_tokens parameters tokens idx
         = Raise (not_enough_parameters (length parameters))) as Hloop.
  { induction Hall as [|t ts Ht _ IH]; intros idx Hidx n; subst n.
    - change (count_placeholders (TokenList [])) with 0%nat.
      rewrite decide_True by lia. exists []. split.
      + simpl. by replace (idx + 0)%nat with idx by lia.
      + intros rest. simpl. by replace (idx + 0)%nat with idx by lia.
    - rewrite count_placeholders_cons, process_tokens_cons.
      specialize (Ht idx Hidx).
      destruct (decide (idx + count_placeholders t ≤ length parameters)%nat)
        as [Hle|Hgt].
      + destruct Ht as (t' & -> & Ht'). simpl.
        specialize (IH (idx + count_placeholders t)%nat Hle). simpl in IH.
        destruct (decide (idx + count_placeholders t
                          + count_placeholders (TokenList ts)
                          ≤ length parameters)%nat) as [Hle2|Hgt2].
        * rewrite decide_True by lia.
          destruct IH as (ts' & -> & Hts'). simpl.
          eexists. split; [f_equal; f_equal; lia|].
          intros rest. simpl. rewrite concat_cons, string_app_assoc.
          rewrite <- app_assoc, <- Ht'. f_equal.
          rewrite <- Hts'. f_equal. f_equal. f_equal. lia.
        * rewrite decide_False by lia. by rewrite IH.
      + rewrite decide_False by lia. by rewrite Ht. }
  intros idx Hidx. specialize (Hloop idx Hidx). simpl in Hloop.
  rewrite process_token_TokenList.
  destruct (decide _) as [Hle|Hgt].
  - destruct Hloop as (ts' & -> & Hts'). simpl. eauto.
  - by rewrite Hloop.
Qed.

Lemma process_token_correct (parameters : list ParameterType)
    (literals : list string) (token : Token) :
  traverse format_value parameters = Ok literals ->
  process_token_spec parameters literals token.
Proof.
  intros Hlits. induction token as [ttype value|tokens IH] using Token_ind'.
  - by apply process_token_leaf.
  - by apply process_token_list.
Qed.

(** A substitution that succeeds has used one parameter for each
    placeholder, and had them. *)
Lemma process_token_used (parameters : list ParameterType) (token : Token) :
  forall idx token' idx',
    process_token parameters token idx = Ok (token', idx') ->
    (idx ≤ length parameters)%nat ->
    idx' = (idx + count_placeholders token)%nat /\
    (idx' ≤ length parameters)%nat.
Proof.
  induction token as [ttype value|tokens IH] using Token_ind'.
  - intros idx token' idx'. unfold count_placeholders. simpl.
    destruct (is_placeholder ttype) eqn:Hp.
    + rewrite filter_cons_True by done. simpl.
      case_bool_decide as Hlen; [done|].
      destruct (parameters !! idx) as [p|]; [|done].
      destruct (format_value p); simpl; [|done].
      intros [= <- <-] _. lia.
    + rewrite filter_cons_False by (simpl; congruence). simpl.
      intros [= <- <-] ?. lia.
  - assert (forall idx tokens' idx',
      process_tokens parameters tokens idx = Ok (tokens', idx') ->
      (idx ≤ length parameters)%nat ->
      idx' = (idx + count_placeholders (TokenList tokens))%nat /\
      (idx' ≤ length parameters)%nat) as Hloop.
    { induction IH as [|t ts Ht _ IHts]; intros idx tokens' idx'.
      - simpl. intros [= <- <-] ?.
        change (count_placeholders (TokenList [])) with 0%nat. lia.
      - rewrite process_tokens_cons, count_placeholders_cons.
        destruct (process_token parameters t idx) as [[t' idx1]|] eqn:Ht';
          simpl; [|done].
        destruct (process_tokens parameters ts idx1) as [[ts' idx2]|]
          eqn:Hts'; simpl; [|done].
        intros [= <- <-] Hidx.
        destruct (Ht _ _ _ Ht' Hidx) as [-> Hle].
        destruct (IHts _ _ _ Hts' Hle) as [-> Hle']. lia. }
    intros idx token' idx'. rewrite process_token_TokenList.
    destruct (process_tokens parameters tokens idx) as [[ts' idx1]|]
      eqn:Hts; simpl; [|done].
    intros [= <- <-]. by eapply Hloop.
Qed.

Lemma substitute_from_app (parameters : list ParameterType)
    (ls1 ls2 : list (TokenType * string)) (idx : nat) :
  substitute_from parameters (ls1 ++ ls2) idx
  = (r1 ← substitute_from parameters ls1 idx;
     r2 ← substitute_from parameters ls2 r1.2;
     Ok (r1.1 +:+ r2.1, r2.2)).
Proof.
  revert idx. induction ls1 as [|[ttype value] ls1 IH]; intros idx; simpl.
  - destruct (substitute_from parameters ls2 idx) as [[s i]|]; simpl; [|done].
    by rewrite string_app_nil_l.
  - destruct (is_placeholder ttype).
    + case_bool_decide; [done|].
      destruct (parameters !! idx) as [p|]; [|done].
      destruct (format_value p) as [lit|]; simpl; [|done].
      rewrite IH.
      destruct (substitute_from parameters ls1 (S idx)) as [[s1 i1]|]; simpl;
        [|done].
      destruct (substitute_from parameters ls2 i1) as [[s2 i2]|]; simpl;
        [|done].
      by rewrite string_app_assoc.
    + rewrite IH.
      destruct (substitute_from parameters ls1 idx) as [[s1 i1]|]; simpl;
        [|done].
      destruct (substitute_from parameters ls2 i1) as [[s2 i2]|]; simpl;
        [|done].
      by rewrite string_app_assoc.
Qed.

(** [process_token] is the substitution over the leaves. *)
Lemma process_token_leaves (parameters : list ParameterType) (token : Token) :
  forall idx,
    (r ← process_token parameters token idx; Ok (token_str r.1, r.2))
    = substitute_from parameters (leaves token) idx.
Proof.
  induction token as [ttype value|tokens IH] using Token_ind'.
  - intros idx. simpl. destruct (is_placeholder ttype); simpl.
    + case_bool_decide; [done|].
      destruct (parameters !! idx) as [p|]; [|done].
      destruct (format_value p) as [lit|]; simpl; [|done].
      by rewrite string_app_nil_r.
    + by rewrite string_app_nil_r.
  - assert (forall idx,
      (r ← process_tokens parameters tokens idx;
       Ok (Str.concat (List.map token_str r.1), r.2))
      = substitute_from parameters (flat_map leaves tokens) idx) as Hloop.
    { induction IH as [|t ts Ht _ IHts]; intros idx; [done|].
      rewrite process_tokens_cons. simpl flat_map.
      rewrite substitute_from_app, <- Ht.
      destruct (process_token parameters t idx) as [[t' idx1]|]; simpl;
        [|done].
      rewrite <- IHts.
      destruct (process_tokens parameters ts idx1) as [[ts' idx2]|]; simpl;
        [|done].
      by rewrite concat_cons. }
    intros idx. rewrite process_token_TokenList. simpl leaves.
    rewrite <- Hloop.
    by destruct (process_tokens parameters tokens idx) as [[ts' idx1]|].
Qed.

(** The substitution over the leaves formats the parameters it consumes,
    and no other. *)
Lemma substitute_from_consumed (parameters : list ParameterType)
    (ls : list (TokenType * string)) :
  forall idx, (idx ≤ length parameters)%nat ->
    substitute_from parameters ls idx
    = match traverse format_value
              (take (length (filter (fun l => is_placeholder l.1 = true) ls))
                 (drop idx parameters)) with
      | Raise e => Raise e
      | Ok literals =>
          if bool_decide
               (length parameters
                < idx + length (filter (fun l => is_placeholder l.1 = true) ls))%nat
          then Raise (not_enough_parameters (length parameters))
          else Ok (substitute ls literals,
                   (idx + length (filter (fun l => is_placeholder l.1 = true) ls))%nat)
      end.
Proof.
  induction ls as [|[ttype value] ls IH]; intros idx Hidx.
  - simpl. rewrite bool_decide_eq_false_2 by lia.
    by replace (idx + 0)%nat with idx by lia.
  - simpl substitute_from. destruct (is_placeholder ttype) eqn:Hp.
    + rewrite filter_cons_True by done. simpl length.
      destruct (decide (length parameters ≤ idx)%nat) as [Hend|Hin].
      * rewrite bool_decide_eq_true_2 by done.
        rewrite drop_ge by done. rewrite take_nil. simpl.
        by rewrite bool_decide_eq_true_2 by lia.
      * rewrite bool_decide_eq_false_2 by done.
        destruct (lookup_lt_is_Some_2 parameters idx) as [p Hp']; [lia|].
        rewrite Hp', (drop_S _ _ _ Hp'). simpl.
        destruct (format_value p) as [lit|]; simpl; [|done].
        rewrite IH by lia.
        destruct (traverse format_value _) as [lits|]; simpl; [|done].
        replace (idx + S (length (filter (fun l => is_placeholder l.1 = true) ls)))%nat
          with (S idx + length (filter (fun l => is_placeholder l.1 = true) ls))%nat
          by lia.
        destruct (bool_decide _); simpl; [done|]. by rewrite Hp.
    + rewrite filter_cons_False by (simpl; congruence).
      rewrite IH by done.
      destruct (traverse format_value _) as [lits|]; simpl; [|done].
      destruct (bool_decide _); simpl; [done|]. by rewrite Hp.
Qed.

(** C4: [format_statement] formats the values it consumes, one for each
    placeholder from the left, and no other.  If one of them has no
    literal, the error of the first such value is the error of the call,
    whatever the counts.  Otherwise it raises [DataError] "not enough
    parameters" when the parameter set holds fewer values than the
    statement has placeholders, raises [DataError] "too many parameters"
    when values remain unconsumed, and in the remaining case returns the
    text of the statement in which the placeholders, left to right, have
    taken the literals of the values, one each and in their order, with the
    trailing semicolons stripped.  So it returns only when the parameter
    set holds as many values as the statement has placeholders. *)
Theorem format_statement_counts (statement : Statement)
    (parameters : list ParameterType) :
  (forall text,
     format_statement statement parameters = Ok text ->
     count_placeholders statement = length parameters) /\
  format_statement statement parameters =
    match traverse format_value
            (take (count_placeholders statement) parameters) with
    | Raise e => Raise e
    | Ok literals =>
        if bool_decide (length parameters < count_placeholders statement)%nat
        then Raise (not_enough_parameters (length parameters))
        else if bool_decide
                  (count_placeholders statement < length parameters)%nat
        then Raise (too_many_parameters (length parameters)
                      (count_placeholders statement))
        else Ok (Str.rstrip ";" (substitute (leaves statement) literals))
    end.
Proof.
  assert (format_statement statement parameters =
    match traverse format_value
            (take (count_placeholders statement) parameters) with
    | Raise e => Raise e
    | Ok literals =>
        if bool_decide (length parameters < count_placeholders statement)%nat
        then Raise (not_enough_parameters (length parameters))
        else if bool_decide
                  (count_placeholders statement < length parameters)%nat
        then Raise (too_many_parameters (length parameters)
                      (count_placeholders statement))
        else Ok (Str.rstrip ";" (substitute (leaves statement) literals))
    end) as Hrun.
  { unfold format_statement.
    pose proof (process_token_leaves parameters statement 0%nat) as Hleaves.
    rewrite substitute_from_consumed in Hleaves by lia.
    rewrite drop_0 in Hleaves. fold (count_placeholders statement) in Hleaves.
    simpl in Hleaves.
    destruct (traverse format_value _) as [literals|e].
    - destruct (bool_decide
                  (length parameters < count_placeholders statement)%nat).
      + destruct (process_token parameters statement 0) as [[t' i']|];
          simpl in *; congruence.
      + destruct (process_token parameters statement 0) as [[t' i']|];
          simpl in *; [|done].
        injection Hleaves as -> ->. done.
    - destruct (process_token parameters statement 0) as [[t' i']|];
        simpl in *; congruence. }
  split; [|done].
  intros text. rewrite Hrun.
  destruct (traverse format_value _) as [literals|e]; [|done].
  repeat case_bool_decide; try done. intros _. lia.
Qed.

(** C5: a query of more than one statement with a non-empty sequence of
    parameter sets raises [NotSupportedError]. *)
Theorem split_format_sql_multistatement (query : string)
    (parameters : list (list ParameterType)) :
  (1 < length (parse_sql query))%nat -> parameters ≠ [] ->
  split_format_sql query parameters
  = Raise (NotSupportedError
             "formatting multistatement queries is not supported").
Proof.
  intros Hlen Hparams. unfold split_format_sql.
  destruct (parse_sql query) as [|st0 sts]; [simpl in Hlen; lia|].
  destruct parameters as [|p ps]; [done|].
  by rewrite bool_decide_eq_true_2.
Qed.
End TypesProperties.

(** ** Stripping *)

Lemma all_chars_app (p : ascii -> bool) (s t : string) :
  all_chars p (s +:+ t) = all_chars p s && all_chars p t.
Proof.
  induction s as [|c s IH]; [done|].
  rewrite string_app_cons. simpl. rewrite IH. by rewrite andb_assoc.
Qed.

Lemma all_chars_rev (p : ascii -> bool) (s : string) :
  all_chars p (Str.rev s) = all_chars p s.
Proof.
  induction s as [|c s IH]; [done|].
  rewrite rev_cons, all_chars_app, IH. simpl.
  rewrite andb_true_r. apply andb_comm.
Qed.

Lemma lstrip_by_spec (p : ascii -> bool) (s : string) :
  exists lead,
    s = lead +:+ Str.lstrip_by p s /\
    all_chars p lead = true /\
    first_char_is p (Str.lstrip_by p s) = false.
Proof.
  induction s as [|c s (lead & Hs & Hlead & Hfirst)].
  - by exists "".
  - simpl. destruct (p c) eqn:Hc.
    + exists (String c lead). rewrite string_app_cons, <- Hs. simpl.
      by rewrite Hc, Hlead.
    + exists "". simpl. by rewrite Hc.
Qed.

Lemma rstrip_by_spec (p : ascii -> bool) (s : string) :
  exists trail,
    s = Str.rstrip_by p s +:+ trail /\
    all_chars p trail = true /\
    last_char_is p (Str.rstrip_by p s) = false.
Proof.
  destruct (lstrip_by_spec p (Str.rev s)) as (lead & Hs & Hlead & Hfirst).
  exists (Str.rev lead). unfold Str.rstrip_by, last_char_is.
  rewrite <- rev_app, <- Hs, !rev_involutive, all_chars_rev. done.
Qed.

Lemma first_char_is_prefix (p : ascii -> bool) (s t : string) :
  first_char_is p (s +:+ t) = false -> first_char_is p s = false.
Proof. by destruct s. Qed.

(** What [str(st).strip().rstrip(";")] makes of a text. *)
Lemma strip_rstrip_trimmed (text : string) :
  trimmed text (Str.rstrip ";" (Str.strip text)).
Proof.
  destruct (lstrip_by_spec Str.isspace text) as (lead & H1 & Hlead & Hfirst).
  destruct (rstrip_by_spec Str.isspace (Str.lstrip_by Str.isspace text))
    as (trail & H2 & Htrail & Hlast).
  fold (Str.strip text) in H2, Hlast.
  destruct (rstrip_by_spec (Str.mem ";") (Str.strip text))
    as (semis & H3 & Hsemis & Hlast').
  fold (Str.rstrip ";" (Str.strip text)) in H3, Hlast'.
  exists lead, semis, trail. rewrite <- H3.
  split; [by rewrite <- H2|].
  repeat split; try done.
  rewrite H2 in Hfirst. by apply first_char_is_prefix in Hfirst.
Qed.

Section TypesProperties2.
Context {RT : PyRuntime}.

(** C10, as the code has it: with no parameter set, a query of no
    statement comes back as it is, and otherwise each statement, in order,
    gives its text without the leading and the trailing whitespace and,
    after that, without its trailing semicolons, all of them. *)
Theorem split_format_sql_no_parameters (query : string) :
  exists texts,
    split_format_sql query [] = Ok texts /\
    (parse_sql query = [] -> texts = [query]) /\
    (parse_sql query ≠ [] ->
     Forall2 (fun st text => trimmed (token_str st) text)
       (parse_sql query) texts).
Proof.
  unfold split_format_sql.
  destruct (parse_sql query) as [|st0 sts] eqn:Hst.
  - exists [query]. done.
  - eexists. split; [done|]. split; [done|]. intros _.
    generalize (st0 :: sts). intros l.
    induction l as [|st l IH]; simpl; constructor; [|done].
    apply strip_rstrip_trimmed.
Qed.

(** C7, as the code has it: [None] comes back for every type code; a list
    for an [ARRAY] is converted item by item with the subtype, the first
    failure ending it; a value other than [None] and a [str] fails with
    [DataError] for [date] and [datetime]; [int] and [float] go through
    the conversion of the interpreter and fail with what it raises, a
    [TypeError] for a list; a type code that is no supported class fails
    with [DataError]. *)
Theorem parse_value_shapes :
  (forall ctype, parse_value RNone ctype = Ok CNone) /\
  (forall items subtype,
     parse_value (RList items) (ARRAY subtype)
     = (its ← traverse (fun it => parse_value it subtype) items;
        Ok (CList its))) /\
  (forall value t,
     raw_class value ≠ py_NoneType -> raw_class value ≠ py_str ->
     t = py_date \/ t = py_datetime ->
     exists msg, parse_value value (Class t) = Raise (DataError msg)) /\
  (forall value,
     raw_class value ≠ py_NoneType ->
     parse_value value (Class py_int) = (z ← int_ value; Ok (CInt z)) /\
     parse_value value (Class py_float)
     = (f ← float_ value; Ok (CFloat f))) /\
  (forall items, exists msg,
     parse_value (RList items) (Class py_int) = Raise (TypeError msg)) /\
  (forall value t,
     raw_class value ≠ py_NoneType ->
     t = py_bool \/ t = py_list \/ t = py_NoneType ->
     parse_value value (Class t)
     = Raise (DataError
                ("Unsupported data type returned: " +:+ pytype_name t))).
Proof.
  repeat split.
  - by intros [[]|].
  - intros [] t ?? [-> | ->]; simpl; try done; eauto.
  - by destruct value.
  - by destruct value.
  - intros items. simpl. eauto.
  - intros [] t ? [-> | [-> | ->]]; simpl; done.
Qed.
End TypesProperties2.

(** C4 on [SELECT ?, ?] with the parameters [1] and ['a']. *)
Lemma format_statement_counts_witness :
  format_statement (RT := Fixture.runtime) Fixture.select_two_placeholders
    [PInt 1; PStr "a"]
  = Ok "SELECT 1, 'a'" /\
  format_statement (RT := Fixture.runtime) Fixture.select_placeholder
    [PInt 1; PObject "<class 'dict'>"]
  = Raise (too_many_parameters 2 1).
Proof.
  split.
  - rewrite (proj2 (format_statement_counts (RT := Fixture.runtime)
                      Fixture.select_two_placeholders [PInt 1; PStr "a"])).
    reflexivity.
  - rewrite (proj2 (format_statement_counts (RT := Fixture.runtime)
                      Fixture.select_placeholder
                      [PInt 1; PObject "<class 'dict'>"])).
    reflexivity.
Defined.

(** A parameter set of one value for a statement of two placeholders, where
    the call raises [DataError], but not the one of the count: the value
    has no literal, and it is formatted before the second placeholder is
    met. *)
Lemma format_statement_unsupported_before_count :
  count_placeholders Fixture.select_two_placeholders = 2%nat /\
  format_statement (RT := Fixture.runtime) Fixture.select_two_placeholders
    [PObject "<class 'dict'>"]
  = Raise (DataError "unsupported parameter type <class 'dict'>") /\
  format_statement (RT := Fixture.runtime) Fixture.select_two_placeholders
    [PObject "<class 'dict'>"]
  <> Raise (not_enough_parameters 1).
Proof.
  split; [reflexivity|]. split; [reflexivity|]. vm_compute. congruence.
Qed.

(** C5 on [SELECT 1; SELECT 2] with one parameter set. *)
Lemma split_format_sql_multistatement_witness :
  (1 < length (parse_sql (PyRuntime := Fixture.runtime) "SELECT 1; SELECT 2"))%nat
  /\ [[PInt 1]] ≠ [] /\
  split_format_sql (RT := Fixture.runtime) "SELECT 1; SELECT 2" [[PInt 1]]
  = Raise (NotSupportedError
             "formatting multistatement queries is not supported").
Proof.
  assert (1 < length (parse_sql (PyRuntime := Fixture.runtime)
                        "SELECT 1; SELECT 2"))%nat as H1
    by (vm_compute; lia).
  assert ([[PInt 1]] ≠ @nil (list ParameterType)) as H2 by discriminate.
  split; [exact H1|]. split; [exact H2|].
  exact (split_format_sql_multistatement (RT := Fixture.runtime)
           "SELECT 1; SELECT 2" [[PInt 1]] H1 H2).
Defined.

(** C7 on the integer [1] read as a [date], and on [True] read with the
    type code [bool]. *)
Lemma parse_value_shapes_witness :
  (exists msg,
     parse_value (RT := Fixture.runtime) (RInt 1) (Class py_date)
     = Raise (DataError msg)) /\
  parse_value (RT := Fixture.runtime) (RBool true) (Class py_bool)
  = Raise (DataError "Unsupported data type returned: bool").
Proof.
  destruct (parse_value_shapes (RT := Fixture.runtime))
    as (_ & _ & Hdate & _ & _ & Hother).
  split.
  - apply (Hdate (RInt 1) py_date); [discriminate|discriminate|by left].
  - apply (Hother (RBool true) py_bool); [discriminate|by left].
Defined.

(** C7 fails as stated: an integer for an [ARRAY] fails the assertion, and a
    list for [int] raises the [TypeError] of [int()]; neither is a
    [DataError]. *)
Lemma parse_value_mismatch_not_DataError :
  parse_value (RT := Fixture.runtime) (RInt 1) (ARRAY (Class py_int))
  = Raise (AssertionError "") /\
  parse_value (RT := Fixture.runtime) (RList []) (Class py_int)
  = Raise (TypeError
      "int() argument must be a string, a bytes-like object or a real number, not 'list'")
  /\ is_DataError (AssertionError "") = false
  /\ (forall msg, is_DataError (TypeError msg) = false).
Proof. repeat split. Qed.

(** C10 on [SELECT 1;] and [SELECT 2] in two lines. *)
Lemma split_format_sql_no_parameters_witness :
  parse_sql (PyRuntime := Fixture.runtime)
    ("SELECT 1;" +:+ Str.newline +:+ "SELECT 2") ≠ [] /\
  exists texts,
    split_format_sql (RT := Fixture.runtime)
      ("SELECT 1;" +:+ Str.newline +:+ "SELECT 2") [] = Ok texts /\
    Forall2 (fun st text => trimmed (token_str st) text)
      (parse_sql (PyRuntime := Fixture.runtime)
         ("SELECT 1;" +:+ Str.newline +:+ "SELECT 2")) texts.
Proof.
  assert (parse_sql (PyRuntime := Fixture.runtime)
            ("SELECT 1;" +:+ Str.newline +:+ "SELECT 2") ≠ []) as Hne
    by (vm_compute; discriminate).
  split; [exact Hne|].
  destruct (split_format_sql_no_parameters (RT := Fixture.runtime)
              ("SELECT 1;" +:+ Str.newline +:+ "SELECT 2"))
    as (texts & Heq & _ & Htrim).
  exists texts. split; [exact Heq|exact (Htrim Hne)].
Defined.

(** C10 fails as stated: the second statement of the two-line query starts
    with the line break; the code strips it, and the trimming the
    specification words keeps it. *)
Lemma split_format_sql_strips_leading_whitespace :
  split_format_sql (RT := Fixture.runtime)
    ("SELECT 1;" +:+ Str.newline +:+ "SELECT 2") []
  = Ok ["SELECT 1"; "SELECT 2"] /\
  List.map (fun st => trim_as_specified (token_str st))
    (parse_sql (PyRuntime := Fixture.runtime)
       ("SELECT 1;" +:+ Str.newline +:+ "SELECT 2"))
  = ["SELECT 1"; Str.newline +:+ "SELECT 2"] /\
  ["SELECT 1"; "SELECT 2"] ≠ ["SELECT 1"; Str.newline +:+ "SELECT 2"].
Proof. split; [|split]; [vm_compute; reflexivity..|discriminate]. Qed.

(** ** The cursor *)

(** Unfolding of the monad of methods. *)
Ltac unfold_M :=
  unfold mbind, M_bind, mret, M_ret, lift, raise, modify, get, on_cursor,
    on_client, try_except_reraise, check_not_closed, check_query_executed,
    cursor_of, Cursor_HasCursor, pair_HasCursor, closed in *.

Lemma reset_loaded (self : Cursor) :
  _reset self = loaded (_arraysize self) NONE [].
Proof. reflexivity. Qed.

Lemma loaded_state (a : Z) (st : CursorState) (sets : list RowSet) :
  _state (loaded a st sets) = st.
Proof. by destruct sets. Qed.

Lemma loaded_arraysize (a : Z) (st : CursorState) (sets : list RowSet) :
  _arraysize (loaded a st sets) = a.
Proof. by destruct sets. Qed.

Lemma loaded_row_sets (a : Z) (st : CursorState) (sets : list RowSet) :
  _row_sets (loaded a st sets) = sets.
Proof. by destruct sets. Qed.

Lemma set_state_loaded (a : Z) (st st' : CursorState) (sets : list RowSet) :
  set_state st' (loaded a st sets) = loaded a st' sets.
Proof. by destruct sets. Qed.

Section CursorProperties.
Context {RT : PyRuntime} {client : Type} {TR : Transport client}.

Lemma append_loaded (resp : Response) (a : Z) (st : CursorState)
    (sets : list RowSet) :
  _append_query_data resp (loaded a st sets)
  = match response_row_set resp with
    | Ok row_set => (loaded a st (sets ++ [row_set]), Ok tt)
    | Raise e => (loaded a st sets, Raise e)
    end.
Proof.
  unfold _append_query_data. fold (response_row_set resp). unfold_M.
  destruct (response_row_set resp) as [row_set|e]; [|done].
  destruct sets as [|first rest]; reflexivity.
Qed.

Lemma rowcount_loaded (a : Z) (st : CursorState) (sets : list RowSet) :
  st ≠ CLOSED ->
  rowcount (loaded a st sets)
  = (loaded a st sets, Ok (_rowcount (loaded a st sets))).
Proof.
  intros Hst. unfold rowcount. unfold_M. rewrite loaded_state.
  by rewrite bool_decide_eq_false_2.
Qed.

Lemma run_query_loaded (connection : Connection)
    (set_parameters : option (gmap string string)) (query : string)
    (cl : client) (a : Z) (sets : list RowSet) :
  run_query connection set_parameters query (cl, loaded a NONE sets)
  = match statement_row_set connection set_parameters query cl with
    | (cl', Ok row_set) => ((cl', loaded a NONE (sets ++ [row_set])), Ok tt)
    | (cl', Raise e) => ((cl', loaded a NONE sets), Raise e)
    end.
Proof.
  unfold run_query, statement_row_set, checked_response. unfold_M.
  cbn [fst snd].
  destruct (request _ _ _ _ cl) as [cl1 [resp|e]]; cbn [fst snd]; [|done].
  destruct (_raise_if_error connection resp cl1) as [cl2 [[]|e]];
    cbn [fst snd]; [|done].
  rewrite append_loaded.
  destruct (response_row_set resp) as [row_set|e]; cbn [fst snd]; [|done].
  by rewrite rowcount_loaded.
Qed.

Lemma run_queries_loaded (connection : Connection)
    (set_parameters : option (gmap string string)) (queries : list string)
    (cl : client) (a : Z) (sets : list RowSet) :
  run_queries connection set_parameters queries (cl, loaded a NONE sets)
  = let '(cl', (new, r)) := collect connection set_parameters queries cl in
    ((cl', loaded a NONE (sets ++ new)), r).
Proof.
  revert cl sets. induction queries as [|query queries IH]; intros cl sets.
  - simpl. by rewrite app_nil_r.
  - cbn [run_queries collect]. unfold mbind at 1. unfold M_bind at 1.
    rewrite run_query_loaded.
    destruct (statement_row_set _ _ _ cl) as [cl1 [row_set|e]].
    + rewrite IH.
      destruct (collect _ _ queries cl1) as [cl2 [new r]].
      by rewrite <- app_assoc.
    + by rewrite app_nil_r.
Qed.

(** [_do_execute_request] by its result: the row sets collected, in a
    cursor in state [DONE] or [ERROR]. *)
Lemma do_execute_request_loaded (connection : Connection) (query : string)
    (parameters : list (list ParameterType))
    (set_parameters : option (gmap string string))
    (cl : client) (self : Cursor) :
  _do_execute_request connection query parameters set_parameters (cl, self)
  = match split_format_sql query parameters with
    | Raise e => ((cl, loaded (_arraysize self) ERROR []), Raise e)
    | Ok queries =>
        let '(cl', (sets, r)) :=
          collect connection set_parameters queries cl in
        match r with
        | Ok _ => ((cl', loaded (_arraysize self) DONE sets), Ok tt)
        | Raise e => ((cl', loaded (_arraysize self) ERROR sets), Raise e)
        end
    end.
Proof.
  unfold _do_execute_request, execute_body.
  unfold mbind at 1. unfold M_bind at 1.
  unfold on_cursor at 1, modify at 1. cbn [fst snd].
  rewrite reset_loaded. unfold try_except_reraise.
  unfold mbind at 1. unfold M_bind at 1. unfold lift at 1.
  destruct (split_format_sql query parameters) as [queries|e]; [|done].
  unfold mbind at 1. unfold M_bind at 1.
  rewrite run_queries_loaded.
  destruct (collect _ _ queries cl) as [cl' [sets [[]|e]]]; simpl.
  - unfold on_cursor, modify. simpl. by rewrite set_state_loaded.
  - by rewrite set_state_loaded.
Qed.
End CursorProperties.

(** ** Fetching in state [DONE] and in state [ERROR] *)

Lemma executed_open_set_state (self : Cursor) (st : CursorState) :
  st = DONE \/ st = ERROR -> executed_open (set_state st self).
Proof. by intros [-> | ->]; [left|right]. Qed.

Lemma executed_open_not_closed (self : Cursor) :
  executed_open self -> closed self = false /\ _state self ≠ NONE.
Proof.
  unfold closed. intros [H|H]; rewrite H; split; done.
Qed.

Lemma state_blind_ret {A} (a : A) : state_blind (mret a).
Proof. by intros self st _ _. Qed.

Lemma state_blind_raise {A} (e : exn) : state_blind (raise (A := A) e).
Proof. by intros self st _ _. Qed.

Lemma state_blind_lift {A} (r : result A) : state_blind (lift r).
Proof. by intros self st _ _. Qed.

Lemma state_blind_bind {A B} (m : M Cursor A) (k : A -> M Cursor B) :
  state_blind m -> (forall a, state_blind (k a)) -> state_blind (m ≫= k).
Proof.
  intros Hm Hk self st Hself Hst.
  destruct (Hm self st Hself Hst) as [Hm1 Hm2].
  unfold mbind, M_bind. rewrite Hm2.
  destruct (m self) as [self1 [a|e]] eqn:Hrun; simpl in *; [|done].
  assert (executed_open self1) as Hself1.
  { unfold executed_open in *. by rewrite Hm1. }
  destruct (Hk a self1 st Hself1 Hst) as [Hk1 Hk2].
  split; [congruence|done].
Qed.

Lemma state_blind_check_not_closed {A} (func_name : string)
    (m : M Cursor A) :
  state_blind m -> state_blind (check_not_closed func_name m).
Proof.
  intros Hm self st Hself Hst. unfold check_not_closed, cursor_of,
    Cursor_HasCursor.
  destruct (executed_open_not_closed _ Hself) as [-> _].
  destruct (executed_open_not_closed _ (executed_open_set_state self st Hst))
    as [-> _].
  by apply Hm.
Qed.

Lemma state_blind_check_query_executed {A} (func_name : string)
    (m : M Cursor A) :
  state_blind m -> state_blind (check_query_executed func_name m).
Proof.
  intros Hm self st Hself Hst. unfold check_query_executed, cursor_of,
    Cursor_HasCursor.
  destruct (executed_open_not_closed _ Hself) as [_ H1].
  destruct (executed_open_not_closed _ (executed_open_set_state self st Hst))
    as [_ H2].
  rewrite !bool_decide_eq_false_2 by done. by apply Hm.
Qed.

Lemma state_blind_get_field {A} (f : Cursor -> A) :
  (forall self st, f (set_state st self) = f self) ->
  state_blind (self ← get; mret (f self)).
Proof. intros Hf self st _ _. unfold_M. simpl. by rewrite Hf. Qed.

Lemma state_blind_pop_next_set : state_blind _pop_next_set.
Proof.
  intros self st _ _. unfold _pop_next_set. simpl.
  case_bool_decide; [done|].
  by destruct (_row_sets self !! _next_set_idx self).
Qed.

Lemma state_blind_get_next_range (size : Z) :
  state_blind (_get_next_range size).
Proof.
  intros self st _ _. unfold _get_next_range. simpl.
  by destruct (_rows self).
Qed.

Lemma state_blind_rows_not_None : state_blind rows_not_None.
Proof.
  intros self st _ _. unfold rows_not_None. simpl. by destruct (_rows self).
Qed.

Section FetchProperties.
Context {RT : PyRuntime}.

Lemma state_blind_description : state_blind description.
Proof.
  apply state_blind_check_not_closed.
  by apply (state_blind_get_field _descriptions).
Qed.

Lemma state_blind_rowcount : state_blind rowcount.
Proof.
  apply state_blind_check_not_closed.
  by apply (state_blind_get_field _rowcount).
Qed.

Lemma state_blind_parse_row (row : Row) : state_blind (_parse_row row).
Proof.
  apply state_blind_bind; [apply state_blind_description|].
  intros [cols|]; [|apply state_blind_raise].
  case_bool_decide; [apply state_blind_lift|apply state_blind_raise].
Qed.

Lemma state_blind_parse_rows (rows : list Row) :
  state_blind (_parse_rows rows).
Proof.
  induction rows as [|row rows IH]; [apply state_blind_ret|].
  apply state_blind_bind; [apply state_blind_parse_row|]. intros r.
  apply state_blind_bind; [done|]. intros rs. apply state_blind_ret.
Qed.

Lemma state_blind_fetchone : state_blind fetchone.
Proof.
  apply state_blind_check_not_closed, state_blind_check_query_executed.
  apply state_blind_bind; [apply state_blind_get_next_range|].
  intros range. case_bool_decide; [apply state_blind_ret|].
  apply state_blind_bind; [apply state_blind_rows_not_None|]. intros rows.
  apply state_blind_bind; [apply state_blind_lift|]. intros row.
  apply state_blind_bind; [apply state_blind_parse_row|]. intros parsed.
  apply state_blind_ret.
Qed.

Lemma state_blind_fetchmany (size : option Z) :
  state_blind (fetchmany size).
Proof.
  apply state_blind_check_not_closed, state_blind_check_query_executed.
  apply state_blind_bind.
  { destruct size; [apply state_blind_ret|].
    by apply (state_blind_get_field _arraysize). }
  intros n.
  apply state_blind_bind; [apply state_blind_get_next_range|].
  intros range.
  apply state_blind_bind; [apply state_blind_rows_not_None|]. intros rows.
  apply state_blind_parse_rows.
Qed.

Lemma state_blind_fetchall : state_blind fetchall.
Proof.
  apply state_blind_check_not_closed, state_blind_check_query_executed.
  apply state_blind_bind; [apply state_blind_rowcount|]. intros n.
  apply state_blind_bind; [apply state_blind_get_next_range|].
  intros range.
  apply state_blind_bind; [apply state_blind_rows_not_None|]. intros rows.
  apply state_blind_parse_rows.
Qed.

Lemma state_blind_nextset : state_blind nextset.
Proof.
  apply state_blind_check_not_closed, state_blind_check_query_executed.
  apply state_blind_pop_next_set.
Qed.
End FetchProperties.

(** ** A call that raises *)

Section ExecuteProperties.
Context {RT : PyRuntime} {client : Type} {TR : Transport client}.

Lemma collect_length (connection : Connection)
    (set_parameters : option (gmap string string)) (queries : list string)
    (cl cl' : client) (sets : list RowSet) (r : result unit) :
  collect connection set_parameters queries cl = (cl', (sets, r)) ->
  match r with
  | Ok _ => length sets = length queries
  | Raise _ => (length sets < length queries)%nat
  end.
Proof.
  revert cl cl' sets r.
  induction queries as [|query queries IH]; intros cl cl' sets r; simpl.
  - intros [= <- <- <-]. done.
  - destruct (statement_row_set _ _ query cl) as [cl1 [row_set|e]].
    + destruct (collect _ _ queries cl1) as [cl2 [new r']] eqn:Hrest.
      intros [= <- <- <-]. specialize (IH _ _ _ _ Hrest).
      destruct r'; simpl; lia.
    + intros [= <- <- <-]. simpl. lia.
Qed.

(** Where [collect] stops: the statements before the failing one all
    gave their row set. *)
Lemma collect_raise (connection : Connection)
    (set_parameters : option (gmap string string)) (queries : list string)
    (cl cl' : client) (sets : list RowSet) (e : exn) :
  collect connection set_parameters queries cl = (cl', (sets, Raise e)) ->
  exists done failing rest cl1,
    queries = done ++ failing :: rest /\
    collect connection set_parameters done cl = (cl1, (sets, Ok tt)) /\
    length sets = length done /\
    statement_row_set connection set_parameters failing cl1
    = (cl', Raise e).
Proof.
  revert cl cl' sets.
  induction queries as [|query queries IH]; intros cl cl' sets; simpl;
    [done|].
  destruct (statement_row_set _ _ query cl) as [cl1 [row_set|e']] eqn:Hq.
  - destruct (collect _ _ queries cl1) as [cl2 [new r']] eqn:Hrest.
    intros [= <- <- ->].
    destruct (IH _ _ _ Hrest) as (done & failing & rest & cl3
                                  & -> & Hdone & Hlen & Hfail).
    exists (query :: done), failing, rest, cl3. simpl.
    rewrite Hq, Hdone. simpl. by rewrite Hlen.
  - intros [= <- <- <-]. by exists [], query, queries, cl.
Qed.

Lemma do_execute_request_raise (connection : Connection) (query : string)
    (parameters : list (list ParameterType))
    (set_parameters : option (gmap string string))
    (cl cl' : client) (self self' : Cursor) (e : exn) :
  _do_execute_request connection query parameters set_parameters (cl, self)
  = ((cl', self'), Raise e) ->
  failed_call connection query parameters set_parameters cl self cl' self' e.
Proof.
  rewrite do_execute_request_loaded. intros Hrun.
  assert (forall sets,
    let served := loaded (_arraysize self) DONE sets in
    let self' := loaded (_arraysize self) ERROR sets in
    fetchone self'
    = (set_state ERROR (fetchone served).1, (fetchone served).2) /\
    (forall size,
       fetchmany size self'
       = (set_state ERROR (fetchmany size served).1,
          (fetchmany size served).2)) /\
    fetchall self'
    = (set_state ERROR (fetchall served).1, (fetchall served).2) /\
    nextset self'
    = (set_state ERROR (nextset served).1, (nextset served).2)) as Hserve.
  { intros sets served self0. subst served self0.
    rewrite <- (set_state_loaded _ DONE ERROR).
    assert (executed_open (loaded (_arraysize self) DONE sets)) as Hopen
      by (left; apply loaded_state).
    repeat split; intros;
      [ apply state_blind_fetchone | apply state_blind_fetchmany
      | apply state_blind_fetchall | apply state_blind_nextset ];
      auto. }
  destruct (split_format_sql query parameters) as [queries|e'] eqn:Hsplit.
  - destruct (collect _ _ queries cl) as [cl1 [sets [[]|e']]] eqn:Hcollect;
      [done|].
    injection Hrun as <- <- <-.
    split; [apply loaded_state|].
    exists sets. split; [done|]. split; [|apply Hserve].
    right. destruct (collect_raise _ _ _ _ _ _ _ Hcollect)
      as (done & failing & rest & cl2 & -> & Hdone & Hlen & Hfail).
    exists (done ++ failing :: rest), done, failing, rest, cl2.
    rewrite reset_loaded, run_queries_loaded, Hdone.
    rewrite run_query_loaded, Hfail. done.
  - injection Hrun as <- <- <-.
    split; [done|]. exists []. split; [done|]. split; [|apply (Hserve [])].
    by left.
Qed.

Lemma execute_unfold (connection : Connection) (query : string)
    (parameters : option (list ParameterType))
    (set_parameters : option (gmap string string))
    (cl : client) (self : Cursor) :
  closed self = false ->
  execute connection query parameters set_parameters (cl, self)
  = match split_format_sql query (params_list parameters) with
    | Raise e => ((cl, loaded (_arraysize self) ERROR []), Raise e)
    | Ok queries =>
        let '(cl', (sets, r)) :=
          collect connection set_parameters queries cl in
        match r with
        | Ok _ =>
            ((cl', loaded (_arraysize self) DONE sets),
             Ok (_rowcount (loaded (_arraysize self) DONE sets)))
        | Raise e => ((cl', loaded (_arraysize self) ERROR sets), Raise e)
        end
    end.
Proof.
  intros Hopen. unfold execute, check_not_closed.
  unfold cursor_of, pair_HasCursor. simpl. rewrite Hopen.
  fold (params_list parameters).
  unfold mbind at 1. unfold M_bind at 1.
  rewrite do_execute_request_loaded.
  destruct (split_format_sql _ _) as [queries|]; [|done].
  destruct (collect _ _ _ cl) as [cl2 [sets [[]|?]]]; [|done].
  unfold on_cursor. simpl. by rewrite rowcount_loaded.
Qed.

Lemma executemany_unfold (connection : Connection) (query : string)
    (parameters_seq : list (list ParameterType))
    (cl : client) (self : Cursor) :
  closed self = false ->
  executemany connection query parameters_seq (cl, self)
  = match split_format_sql query parameters_seq with
    | Raise e => ((cl, loaded (_arraysize self) ERROR []), Raise e)
    | Ok queries =>
        let '(cl', (sets, r)) := collect connection None queries cl in
        match r with
        | Ok _ =>
            ((cl', loaded (_arraysize self) DONE sets),
             Ok (_rowcount (loaded (_arraysize self) DONE sets)))
        | Raise e => ((cl', loaded (_arraysize self) ERROR sets), Raise e)
        end
    end.
Proof.
  intros Hopen. unfold executemany, check_not_closed.
  unfold cursor_of, pair_HasCursor. simpl. rewrite Hopen.
  unfold mbind at 1. unfold M_bind at 1.
  rewrite do_execute_request_loaded.
  destruct (split_format_sql _ _) as [queries|]; [|done].
  destruct (collect _ _ _ cl) as [cl2 [sets [[]|?]]]; [|done].
  unfold on_cursor. simpl. by rewrite rowcount_loaded.
Qed.

(** Where [collect] stops, the other way round. *)
Lemma collect_app_raise (connection : Connection)
    (set_parameters : option (gmap string string))
    (done : list string) (failing : string) (rest : list string)
    (cl cl1 cl' : client) (sets : list RowSet) (e : exn) :
  collect connection set_parameters done cl = (cl1, (sets, Ok tt)) ->
  statement_row_set connection set_parameters failing cl1 = (cl', Raise e) ->
  collect connection set_parameters (done ++ failing :: rest) cl
  = (cl', (sets, Raise e)).
Proof.
  revert cl sets. induction done as [|query done IH]; intros cl sets; simpl.
  - intros [= <- <-] ->. done.
  - destruct (statement_row_set _ _ query cl) as [cl2 [row_set|e']];
      [|done].
    destruct (collect _ _ done cl2) as [cl3 [new r]] eqn:Hdone.
    intros [= -> <- ->] Hfail. by rewrite (IH _ _ Hdone Hfail).
Qed.

Lemma run_queries_failure (connection : Connection)
    (set_parameters : option (gmap string string))
    (done : list string) (failing : string) (rest : list string)
    (cl cl1 cl' : client) (self self1 self' : Cursor) (e : exn) :
  run_queries connection set_parameters done (cl, _reset self)
  = ((cl1, self1), Ok tt) ->
  run_query connection set_parameters failing (cl1, self1)
  = ((cl', self'), Raise e) ->
  exists sets,
    self1 = loaded (_arraysize self) NONE sets /\ self' = self1 /\
    length sets = length done /\
    collect connection set_parameters (done ++ failing :: rest) cl
    = (cl', (sets, Raise e)).
Proof.
  rewrite reset_loaded, run_queries_loaded.
  destruct (collect _ _ done cl) as [cl2 [new r]] eqn:Hdone.
  simpl. intros [= -> <- ->]. rewrite run_query_loaded.
  destruct (statement_row_set _ _ failing cl1) as [cl3 [row_set|e']]
    eqn:Hfail; [done|].
  intros [= -> <- ->]. exists new. split; [done|]. split; [done|].
  split; [apply (collect_length _ _ _ _ _ _ _ Hdone)|].
  by apply (collect_app_raise _ _ _ _ _ _ _ _ _ _ Hdone).
Qed.

Lemma run_query_step_failure (connection : Connection)
    (set_parameters : option (gmap string string)) (statement : string)
    (cl : client) (self : Cursor) :
  step_failure_propagates connection set_parameters statement cl self.
Proof.
  unfold step_failure_propagates, run_query, request_params. unfold_M.
  cbn [fst snd].
  destruct (request _ _ _ _ cl) as [cl1 [resp|e]]; cbn [fst snd]; [|done].
  destruct (_raise_if_error connection resp cl1) as [cl2 [[]|e]];
    cbn [fst snd]; [|done].
  by destruct (_append_query_data resp self) as [self' [[]|e]].
Qed.

(** C1: on a cursor that is not closed, a failure inside a call of
    [execute] or [executemany] is the failure of the call.  When the
    formatting raises [e], the call raises [e]; when the loop raises [e]
    at a statement, after the statements before it have gone through, the
    call raises [e], and the cursor holds one row set for each of them; in
    both cases the cursor is left in state [ERROR].  The loop raises at a
    statement what its request, the check of its response or its decoding
    raises.  And the other way round: when the call raises [e], the cursor
    is in state [ERROR]; [e] is the exception that the formatting or the
    loop raised, as it was raised; and the cursor holds the row sets of
    the statements before the failing one, and fetches and advances over
    them as after a call that has succeeded. *)
Theorem execute_failure_keeps_results (connection : Connection)
    (query : string) (cl : client) (self : Cursor) :
  closed self = false ->
  (forall parameters set_parameters,
     failure_propagates connection query (params_list parameters)
       set_parameters cl self
       (execute connection query parameters set_parameters (cl, self))) /\
  (forall parameters_seq,
     failure_propagates connection query parameters_seq None cl self
       (executemany connection query parameters_seq (cl, self))) /\
  (forall set_parameters statement cl1 self1,
     step_failure_propagates connection set_parameters statement cl1 self1) /\
  (forall parameters set_parameters cl' self' e,
     execute connection query parameters set_parameters (cl, self)
     = ((cl', self'), Raise e) ->
     failed_call connection query (params_list parameters) set_parameters
       cl self cl' self' e) /\
  (forall parameters_seq cl' self' e,
     executemany connection query parameters_seq (cl, self)
     = ((cl', self'), Raise e) ->
     failed_call connection query parameters_seq None cl self cl' self' e).
Proof.
  intros Hopen.
  assert (forall parameters set_parameters outcome,
    outcome
    = match split_format_sql query parameters with
      | Raise e => ((cl, loaded (_arraysize self) ERROR []), Raise e)
      | Ok queries =>
          let '(cl', (sets, r)) :=
            collect connection set_parameters queries cl in
          match r with
          | Ok _ =>
              ((cl', loaded (_arraysize self) DONE sets),
               Ok (_rowcount (loaded (_arraysize self) DONE sets)))
          | Raise e => ((cl', loaded (_arraysize self) ERROR sets), Raise e)
          end
      end ->
    failure_propagates connection query parameters set_parameters cl self
      outcome /\
    (forall cl' self' e,
       outcome = ((cl', self'), Raise e) ->
       failed_call connection query parameters set_parameters
         cl self cl' self' e)) as Hcall.
  { intros parameters set_parameters outcome ->. split; [split|].
    - intros e ->. by rewrite reset_loaded, set_state_loaded.
    - intros queries done failing rest cl1 self1 cl' self' e -> -> Hdone Hfail.
      destruct (run_queries_failure _ _ _ _ rest _ _ _ _ _ _ _ Hdone Hfail)
        as (sets & -> & -> & Hlen & ->).
      by rewrite loaded_row_sets, set_state_loaded.
    - intros cl' self' e Hrun.
      apply do_execute_request_raise. rewrite do_execute_request_loaded.
      destruct (split_format_sql query parameters) as [queries|e'];
        [|by injection Hrun as <- <- <-].
      destruct (collect _ _ queries cl) as [cl1 [sets [[]|e']]]; [done|].
      by injection Hrun as <- <- <-. }
  split; [|split; [|split; [|split]]].
  - intros parameters set_parameters.
    by apply Hcall, execute_unfold.
  - intros parameters_seq. by apply Hcall, executemany_unfold.
  - intros set_parameters statement cl1 self1. apply run_query_step_failure.
  - intros parameters set_parameters.
    by apply Hcall, execute_unfold.
  - intros parameters_seq. by apply Hcall, executemany_unfold.
Qed.
End ExecuteProperties.

(** C1 on two statements of which the second fails on the server, given
    as two statements to [execute] and as one statement with two parameter
    sets to [executemany]: the call raises the error of the server, and the
    row of the first statement is still served. *)
Lemma execute_failure_keeps_results_witness :
  execute (RT := Fixture.runtime) (TR := Fixture.transport) Fixture.conn
    "SELECT 1; SELECT 2" None None (Fixture.second_fails, Cursor__init__)
  = (([], loaded 1 ERROR [Fixture.one_row]),
     Raise (OperationalError
              ("Error executing query:" +:+ Str.newline +:+ "boom"))) /\
  executemany (RT := Fixture.runtime) (TR := Fixture.transport) Fixture.conn
    "SELECT ?" [[PInt 1]; [PInt 2]] (Fixture.second_fails, Cursor__init__)
  = (([], loaded 1 ERROR [Fixture.one_row]),
     Raise (OperationalError
              ("Error executing query:" +:+ Str.newline +:+ "boom"))) /\
  failed_call (RT := Fixture.runtime) (TR := Fixture.transport) Fixture.conn
    "SELECT ?" [[PInt 1]; [PInt 2]] None
    Fixture.second_fails Cursor__init__
    [] (loaded 1 ERROR [Fixture.one_row])
    (OperationalError ("Error executing query:" +:+ Str.newline +:+ "boom")) /\
  fetchone (RT := Fixture.runtime) (loaded 1 ERROR [Fixture.one_row])
  = (set_idx 1 (loaded 1 ERROR [Fixture.one_row]), Ok (Some [CInt 7])).
Proof.
  pose proof (execute_failure_keeps_results (RT := Fixture.runtime)
                (TR := Fixture.transport) Fixture.conn "SELECT 1; SELECT 2"
                Fixture.second_fails Cursor__init__ eq_refl)
    as (Hexecute & _).
  pose proof (execute_failure_keeps_results (RT := Fixture.runtime)
                (TR := Fixture.transport) Fixture.conn "SELECT ?"
                Fixture.second_fails Cursor__init__ eq_refl)
    as (_ & Hmany & _ & _ & Hheld).
  split; [|split; [|split]].
  - apply (proj2 (Hexecute None None)
             ["SELECT 1"; "SELECT 2"] ["SELECT 1"] "SELECT 2" []
             (tail Fixture.second_fails) (loaded 1 NONE [Fixture.one_row])
             [] (loaded 1 NONE [Fixture.one_row])
             (OperationalError
                ("Error executing query:" +:+ Str.newline +:+ "boom")));
      vm_compute; reflexivity.
  - apply (proj2 (Hmany [[PInt 1]; [PInt 2]])
             ["SELECT 1"; "SELECT 2"] ["SELECT 1"] "SELECT 2" []
             (tail Fixture.second_fails) (loaded 1 NONE [Fixture.one_row])
             [] (loaded 1 NONE [Fixture.one_row])
             (OperationalError
                ("Error executing query:" +:+ Str.newline +:+ "boom")));
      vm_compute; reflexivity.
  - apply (Hheld [[PInt 1]; [PInt 2]]).
    apply (proj2 (Hmany [[PInt 1]; [PInt 2]])
             ["SELECT 1"; "SELECT 2"] ["SELECT 1"] "SELECT 2" []
             (tail Fixture.second_fails) (loaded 1 NONE [Fixture.one_row])
             [] (loaded 1 NONE [Fixture.one_row])
             (OperationalError
                ("Error executing query:" +:+ Str.newline +:+ "boom")));
      vm_compute; reflexivity.
  - vm_compute. reflexivity.
Defined.

(** ** [nextset] *)

Lemma loaded_at_set (a : Z) (st : CursorState) (first : RowSet)
    (rest : list RowSet) :
  loaded a st (first :: rest) = at_set a st (first :: rest) 0 first 0.
Proof. reflexivity. Qed.

Lemma nextset_at_set (a : Z) (st : CursorState) (sets : list RowSet)
    (k : nat) (row_set : RowSet) (i : Z) :
  st = DONE \/ st = ERROR ->
  nextset (at_set a st sets k row_set i)
  = match sets !! S k with
    | Some next => (at_set a st sets (S k) next 0, Ok (Some true))
    | None => (at_set a st sets k row_set i, Ok None)
    end.
Proof.
  intros Hst. unfold nextset, check_not_closed, check_query_executed,
    cursor_of, Cursor_HasCursor, closed, _pop_next_set. simpl.
  rewrite !bool_decide_eq_false_2 by (destruct Hst; congruence).
  destruct (sets !! S k) as [next|] eqn:Hk.
  - rewrite bool_decide_eq_false_2; [done|].
    apply lookup_lt_Some in Hk. lia.
  - rewrite bool_decide_eq_true_2; [done|].
    by apply lookup_ge_None in Hk.
Qed.

Lemma nextsets_app (n m : nat) (self : Cursor) :
  nextsets (n + m) self
  = let '(self1, r1) := nextsets n self in
    let '(self2, r2) := nextsets m self1 in
    (self2, r1 ++ r2).
Proof.
  revert self. induction n as [|n IH]; intros self; simpl.
  - by destruct (nextsets m self).
  - destruct (nextset self) as [self' r]. rewrite IH.
    destruct (nextsets n self') as [self1 r1].
    by destruct (nextsets m self1).
Qed.

(** From set [k], [n] calls that stay within the buffered sets all return
    [True] and leave set [k + n] active at position 0. *)
Lemma nextsets_advance (a : Z) (st : CursorState) (sets : list RowSet)
    (n k : nat) (row_set : RowSet) (i : Z) :
  st = DONE \/ st = ERROR ->
  sets !! k = Some row_set ->
  (k + n < length sets)%nat ->
  exists last j,
    nextsets n (at_set a st sets k row_set i)
    = (at_set a st sets (k + n) last j, replicate n (Ok (Some true))) /\
    sets !! (k + n)%nat = Some last /\
    (n = 0%nat -> j = i) /\ (n ≠ 0%nat -> j = 0).
Proof.
  intros Hst. revert k row_set i.
  induction n as [|n IH]; intros k row_set i Hk Hlen.
  - exists row_set, i. replace (k + 0)%nat with k by lia. done.
  - destruct (lookup_lt_is_Some_2 sets (S k)) as [next Hnext]; [lia|].
    destruct (IH (S k) next 0 Hnext) as (last & j & Hrun & Hlast & _ & Hj);
      [lia|].
    exists last, 0. cbn [nextsets]. rewrite nextset_at_set, Hnext by done.
    rewrite Hrun. replace (k + S n)%nat with (S k + n)%nat by lia.
    repeat split; try done.
    destruct n; [|by rewrite Hj]. simpl in Hrun.
    injection Hrun as Hrun. unfold at_set in Hrun. by simplify_eq.
Qed.

(** On the last set every call returns [None] and changes nothing. *)
Lemma nextsets_exhausted (a : Z) (st : CursorState) (sets : list RowSet)
    (m k : nat) (row_set : RowSet) (i : Z) :
  st = DONE \/ st = ERROR ->
  (length sets ≤ S k)%nat ->
  nextsets m (at_set a st sets k row_set i)
  = (at_set a st sets k row_set i, replicate m (Ok None)).
Proof.
  intros Hst Hlen. induction m as [|m IH]; [done|].
  cbn [nextsets]. rewrite nextset_at_set by done.
  rewrite (lookup_ge_None_2 sets (S k)) by lia. by rewrite IH.
Qed.

Lemma split_format_sql_nonempty `{PyRuntime} (query : string)
    (parameters : list (list ParameterType)) (queries : list string) :
  split_format_sql query parameters = Ok queries -> queries ≠ [].
Proof.
  unfold split_format_sql.
  destruct (parse_sql query) as [|st0 sts]; [by intros [= <-]|].
  destruct parameters as [|p ps]; [by intros [= <-]|].
  case_bool_decide; [done|]. simpl.
  destruct (format_statement st0 p); simpl; [|done].
  destruct (traverse _ ps); simpl; [|done]. by intros [= <-].
Qed.

Section NextsetProperties.
Context {RT : PyRuntime} {client : Type} {TR : Transport client}.

(** A call of [execute] that returns leaves a loaded cursor in state
    [DONE], with one row set for each statement, and returns the row count
    of the active set. *)
Lemma execute_ok (connection : Connection) (query : string)
    (parameters : option (list ParameterType))
    (set_parameters : option (gmap string string))
    (cl cl' : client) (self self' : Cursor) (n : Z) :
  closed self = false ->
  execute connection query parameters set_parameters (cl, self)
  = ((cl', self'), Ok n) ->
  exists queries sets,
    split_format_sql query (params_list parameters) = Ok queries /\
    collect connection set_parameters queries cl = (cl', (sets, Ok tt)) /\
    length sets = length queries /\ sets ≠ [] /\
    self' = loaded (_arraysize self) DONE sets /\
    n = _rowcount self'.
Proof.
  intros Hopen. unfold execute, check_not_closed.
  unfold cursor_of, pair_HasCursor. simpl. rewrite Hopen.
  fold (params_list parameters).
  unfold mbind at 1. unfold M_bind at 1.
  rewrite do_execute_request_loaded.
  destruct (split_format_sql _ _) as [queries|] eqn:Hsplit; [|done].
  destruct (collect _ _ _ cl) as [cl2 [sets [[]|?]]] eqn:Hcollect; [|done].
  unfold on_cursor. simpl. rewrite rowcount_loaded by done.
  intros [= <- <- <-]. exists queries, sets.
  pose proof (collect_length _ _ _ _ _ _ _ Hcollect) as Hlen.
  simpl in Hlen. repeat split; try done.
  apply split_format_sql_nonempty in Hsplit.
  destruct sets; [|done]. by destruct queries.
Qed.

(** C6: after an [execute] that has returned, with [N] row sets buffered,
    [N >= 1], the first set is active at position 0; of [N - 1 + m] calls
    of [nextset] in a row the first [N - 1] return [True] and the others
    [None]; after [k < N] calls set [k] is active at position 0; and a
    call of [nextset] that finds a next set gives the same cursor whatever
    the position it is called at, so the rows not yet fetched are
    dropped. *)
Theorem nextset_cycles (connection : Connection) (query : string)
    (parameters : option (list ParameterType))
    (set_parameters : option (gmap string string))
    (cl cl' : client) (self self' : Cursor) (n : Z) :
  closed self = false ->
  execute connection query parameters set_parameters (cl, self)
  = ((cl', self'), Ok n) ->
  let sets := _row_sets self' in
  let N := length sets in
  (1 ≤ N)%nat /\
  sets !! 0%nat = Some (_rowcount self', _descriptions self', _rows self') /\
  _idx self' = 0 /\
  (forall m,
     (nextsets (N - 1 + m) self').2
     = replicate (N - 1) (Ok (Some true)) ++ replicate m (Ok None)) /\
  (forall k, (k < N)%nat ->
     let after_k := (nextsets k self').1 in
     sets !! k = Some (_rowcount after_k, _descriptions after_k,
                       _rows after_k) /\
     _idx after_k = 0 /\
     _row_sets after_k = sets /\
     forall i, (S k < N)%nat ->
       nextset (set_idx i after_k) = nextset after_k).
Proof.
  intros Hopen Hrun.
  destruct (execute_ok _ _ _ _ _ _ _ _ _ Hopen Hrun)
    as (queries & sets & _ & _ & _ & Hne & -> & _).
  rewrite loaded_row_sets. simpl.
  destruct sets as [|first rest]; [done|]. clear Hne.
  rewrite loaded_at_set. set (all := first :: rest).
  assert (DONE = DONE \/ DONE = ERROR) as Hst by by left.
  split; [simpl; lia|].
  split; [by destruct first as [[??]?]|].
  split; [done|]. split.
  - intros m. rewrite nextsets_app.
    destruct (nextsets_advance (_arraysize self) DONE all
                (length all - 1) 0 first 0 Hst eq_refl)
      as (last & j & -> & Hlast & _); [simpl; lia|].
    rewrite nextsets_exhausted by (done || simpl; lia). done.
  - intros k Hk.
    destruct (nextsets_advance (_arraysize self) DONE all k 0 first 0
                Hst eq_refl) as (last & j & -> & Hlast & Hj0 & Hj); [lia|].
    simpl in *. repeat split.
    + by destruct last as [[??]?].
    + destruct k; [by rewrite Hj0|by rewrite Hj].
    + intros i Hnext. unfold set_idx, at_set. simpl.
      fold (at_set (_arraysize self) DONE all k last i).
      fold (at_set (_arraysize self) DONE all k last j).
      rewrite !nextset_at_set by done.
      destruct (lookup_lt_is_Some_2 all (S k)) as [next ->]; [|done].
      simpl. lia.
Qed.
End NextsetProperties.

(** ** Fetching *)

Lemma set_idx_same (self : Cursor) : set_idx (_idx self) self = self.
Proof. by destruct self. Qed.

Lemma slice_rest {A} (l : list A) (i : Z) :
  0 ≤ i ≤ Z.of_nat (length l) ->
  Py.slice l i (Z.of_nat (length l)) = drop (Z.to_nat i) l.
Proof.
  intros Hi. unfold Py.slice, Py.slice_bound.
  rewrite !bool_decide_eq_false_2 by lia.
  rewrite !Z.min_l by lia.
  apply take_ge. rewrite length_drop. lia.
Qed.

Lemma slice_empty {A} (l : list A) (i : Z) : Py.slice l i i = [].
Proof. unfold Py.slice. by rewrite Z.sub_diag. Qed.

Section FetchProperties2.
Context {RT : PyRuntime} {client : Type} {TR : Transport client}.

Lemma parse_row_cursor (row : Row) (self : Cursor) :
  (_parse_row row self).1 = self.
Proof.
  unfold _parse_row, description. unfold_M.
  destruct (bool_decide (_state self = CLOSED)); [done|]. simpl.
  destruct (_descriptions self); [|done].
  by case_bool_decide.
Qed.

Lemma parse_rows_cursor (rows : list Row) (self : Cursor) :
  (_parse_rows rows self).1 = self.
Proof.
  induction rows as [|row rows IH]; [done|].
  cbn [_parse_rows]. unfold mbind, M_bind.
  pose proof (parse_row_cursor row self) as Hrow.
  destruct (_parse_row row self) as [self1 [r|e]]; simpl in Hrow; subst;
    [|done].
  destruct (_parse_rows rows self) as [self2 [rs|e]]; simpl in IH; subst;
    done.
Qed.

Lemma parse_rows_length (rows : list Row) (self self' : Cursor)
    (out : list (list ColValue)) :
  _parse_rows rows self = (self', Ok out) -> length out = length rows.
Proof.
  revert self' out. induction rows as [|row rows IH]; intros self' out.
  - by intros [= <- <-].
  - cbn [_parse_rows]. unfold mbind, M_bind.
    pose proof (parse_row_cursor row self) as Hrow.
    destruct (_parse_row row self) as [self1 [r|e]]; simpl in Hrow; subst;
      [|done].
    destruct (_parse_rows rows self) as [self2 [rs|e]] eqn:Hrest; [|done].
    intros [= <- <-]. simpl. by rewrite (IH _ _ eq_refl).
Qed.

Lemma response_row_set_paired (resp : Response) (row_set : RowSet) :
  response_row_set resp = Ok row_set -> paired row_set.
Proof.
  unfold response_row_set, paired. case_bool_decide; [|by intros [= <-]].
  unfold decode_row_set.
  destruct (json resp) as [data|[]]; simpl; try done.
  destruct (item "rows" _) as [?|[]]; simpl; try done.
  destruct (int_ _) as [?|[]]; simpl; try done.
  destruct (item "meta" _) as [?|[]]; simpl; try done.
  destruct (traverse _ _) as [?|[]]; simpl; try done.
  destruct (item "data" _) as [?|[]]; simpl; try done.
  by intros [= <-].
Qed.

Lemma collect_paired (connection : Connection)
    (set_parameters : option (gmap string string)) (queries : list string)
    (cl cl' : client) (sets : list RowSet) (r : result unit) :
  collect connection set_parameters queries cl = (cl', (sets, r)) ->
  Forall paired sets.
Proof.
  revert cl cl' sets r.
  induction queries as [|query queries IH]; intros cl cl' sets r; simpl.
  - by intros [= <- <- <-].
  - unfold statement_row_set at 1. unfold mbind, M_bind, lift.
    destruct (checked_response _ _ query cl) as [cl1 [resp|e]].
    + destruct (response_row_set resp) as [row_set|e] eqn:Hset.
      * destruct (collect _ _ queries cl1) as [cl2 [new r']] eqn:Hrest.
        intros [= <- <- <-]. constructor; [|by eapply IH].
        by eapply response_row_set_paired.
      * by intros [= <- <- <-].
    + by intros [= <- <- <-].
Qed.

(** C3: on an executed, open cursor, [fetchone] at the end of the rows
    returns [None]; a [fetchmany] or [fetchall] that asks for at least the
    rows that remain decodes exactly those, so it returns that many rows,
    none at the end, and fails only if a row fails to decode; after an
    [execute] that returns the row count 0 with descriptions [fetchall]
    returns the empty list; and with no rows every fetch raises
    [DataError] "no rows to fetch". *)
Theorem fetch_at_the_end :
  (forall self rows,
     executed_open self -> _rows self = Some rows ->
     _idx self = Z.of_nat (length rows) ->
     fetchone self = (self, Ok None)) /\
  (forall self rows size,
     executed_open self -> _rows self = Some rows ->
     0 ≤ _idx self ≤ Z.of_nat (length rows) ->
     Z.of_nat (length rows) - _idx self ≤ size ->
     let rest := drop (Z.to_nat (_idx self)) rows in
     let at_end := set_idx (Z.of_nat (length rows)) self in
     fetchmany (Some size) self = _parse_rows rest at_end /\
     (size = _rowcount self -> fetchall self = _parse_rows rest at_end) /\
     (_parse_rows rest at_end).1 = at_end /\
     (rest = [] -> fetchmany (Some size) self = (at_end, Ok [])) /\
     (forall self' out,
        fetchmany (Some size) self = (self', Ok out) ->
        Z.of_nat (length out) = Z.of_nat (length rows) - _idx self)) /\
  (forall connection query parameters set_parameters cl cl' self self',
     closed self = false ->
     execute connection query parameters set_parameters (cl, self)
     = ((cl', self'), Ok 0) ->
     _descriptions self' ≠ None ->
     fetchall self' = (self', Ok [])) /\
  (forall self,
     executed_open self -> _rows self = None ->
     fetchone self = (self, Raise (DataError "no rows to fetch")) /\
     (forall size,
        fetchmany size self = (self, Raise (DataError "no rows to fetch")))
     /\ fetchall self = (self, Raise (DataError "no rows to fetch"))).
Proof.
  split; [|split; [|split]].
  - intros self rows Hopen Hrows Hidx.
    destruct (executed_open_not_closed _ Hopen) as [Hc Hn].
    unfold fetchone, _get_next_range. unfold_M. rewrite Hc.
    rewrite bool_decide_eq_false_2 by done. rewrite Hrows. simpl.
    rewrite Z.min_r by lia. rewrite bool_decide_eq_true_2 by lia.
    by rewrite <- Hidx, set_idx_same.
  - intros self rows size Hopen Hrows Hidx Hsize rest at_end.
    destruct (executed_open_not_closed _ Hopen) as [Hc Hn].
    assert (forall n, Z.of_nat (length rows) - _idx self ≤ n ->
      (range ← _get_next_range n; rows ← rows_not_None;
       _parse_rows (Py.slice rows range.1 range.2)) self
      = _parse_rows rest at_end) as Hbody.
    { intros n Hn'. unfold _get_next_range, rows_not_None. unfold_M.
      rewrite Hrows. simpl. rewrite Hrows.
      rewrite Z.min_r by lia. by rewrite slice_rest. }
    assert (fetchmany (Some size) self = _parse_rows rest at_end) as Hmany.
    { unfold fetchmany, check_not_closed, check_query_executed, cursor_of,
        Cursor_HasCursor. rewrite Hc.
      rewrite bool_decide_eq_false_2 by done.
      rewrite <- (Hbody size Hsize). done. }
    split; [done|]. split; [|split; [|split]].
    + intros ->. unfold fetchall, check_not_closed, check_query_executed,
        cursor_of, Cursor_HasCursor. rewrite Hc.
      rewrite bool_decide_eq_false_2 by done.
      rewrite <- (Hbody (_rowcount self) Hsize).
      unfold rowcount, check_not_closed, cursor_of, Cursor_HasCursor.
      unfold mbind at 1. unfold M_bind at 1. by rewrite Hc.
    + apply parse_rows_cursor.
    + intros Hrest. by rewrite Hmany, Hrest.
    + intros self' out. rewrite Hmany. intros Hout.
      apply parse_rows_length in Hout. subst rest.
      rewrite length_drop in Hout. lia.
  - intros connection query parameters set_parameters cl cl' self self'
      Hopen Hrun Hdescr.
    destruct (execute_ok _ _ _ _ _ _ _ _ _ Hopen Hrun)
      as (queries & sets & _ & Hcollect & _ & _ & -> & Hcount).
    apply collect_paired in Hcollect.
    destruct sets as [|[[count descr] rows] rest]; [done|].
    apply Forall_cons_1 in Hcollect as [Hpaired _].
    unfold paired in Hpaired. simpl in *. subst count.
    destruct rows as [rows|]; [|by destruct Hdescr; apply Hpaired].
    unfold fetchall, rowcount, _get_next_range, rows_not_None. unfold_M.
    simpl. rewrite Z.min_l by lia. by rewrite slice_empty.
  - intros self Hopen Hrows.
    destruct (executed_open_not_closed _ Hopen) as [Hc Hn].
    unfold fetchone, fetchmany, fetchall, rowcount, arraysize,
      _get_next_range. unfold_M. rewrite Hc.
    rewrite bool_decide_eq_false_2 by done. rewrite Hrows.
    repeat split. intros [size|]; simpl; by rewrite Hrows.
Qed.
End FetchProperties2.

(** C3 at the end of three rows, and on a statement without rows. *)
Lemma fetch_at_the_end_witness :
  fetchone (RT := Fixture.runtime)
    (set_idx 3 (loaded 1 DONE [Fixture.three_rows]))
  = (set_idx 3 (loaded 1 DONE [Fixture.three_rows]), Ok None) /\
  fetchall (RT := Fixture.runtime) (loaded 1 DONE [(-1, None, None)])
  = (loaded 1 DONE [(-1, None, None)], Raise (DataError "no rows to fetch")).
Proof.
  destruct (fetch_at_the_end (RT := Fixture.runtime)
              (TR := Fixture.transport)) as (Hend & _ & _ & Hnone).
  split.
  - apply (Hend _ [[RInt 10]; [RInt 20]; [RInt 30]]);
      [by left|reflexivity|reflexivity].
  - apply Hnone; [by left|reflexivity].
Defined.

(** C6 on two statements: one [True], then [None]. *)
Lemma nextset_cycles_witness :
  (nextsets 2 (loaded 1 DONE [Fixture.one_row; Fixture.three_rows])).2
  = [Ok (Some true); Ok None].
Proof.
  destruct (nextset_cycles (RT := Fixture.runtime) (TR := Fixture.transport)
              Fixture.conn "SELECT 1; SELECT 2" None None
              Fixture.both_answer [] Cursor__init__
              (loaded 1 DONE [Fixture.one_row; Fixture.three_rows]) 1
              eq_refl ltac:(vm_compute; reflexivity))
    as (_ & _ & _ & Hcalls & _).
  exact (Hcalls 1%nat).
Defined.

(** ** The fetch position *)

Section PositionProperties.
Context {RT : PyRuntime}.

Lemma fetch_body_position (n : Z) (self : Cursor) (rows : list Row) :
  _rows self = Some rows ->
  0 ≤ _idx self ≤ Z.of_nat (length rows) -> 0 ≤ n ->
  let after := ((range ← _get_next_range n; rows ← rows_not_None;
                 _parse_rows (Py.slice rows range.1 range.2)) self).1 in
  _rows after = Some rows /\ 0 ≤ _idx after ≤ Z.of_nat (length rows).
Proof.
  intros Hrows Hidx Hn. unfold _get_next_range, rows_not_None. unfold_M.
  rewrite Hrows. simpl. rewrite Hrows.
  match goal with |- context [_parse_rows ?l ?c] =>
    pose proof (parse_rows_cursor l c) as Hc;
    destruct (_parse_rows l c) as [c' r] end.
  simpl in *. subst c'. simpl. split; [done|lia].
Qed.

(** With sizes that are not negative the position stays between 0 and
    the number of rows: where C9 does hold. *)
Lemma position_in_range_nonnegative (self : Cursor) (rows : list Row) :
  executed_open self -> _rows self = Some rows ->
  0 ≤ _idx self ≤ Z.of_nat (length rows) ->
  (let after := (fetchone self).1 in
   _rows after = Some rows /\ 0 ≤ _idx after ≤ Z.of_nat (length rows)) /\
  (forall size, 0 ≤ size ->
     let after := (fetchmany (Some size) self).1 in
     _rows after = Some rows /\ 0 ≤ _idx after ≤ Z.of_nat (length rows)) /\
  (0 ≤ _arraysize self ->
     let after := (fetchmany None self).1 in
     _rows after = Some rows /\ 0 ≤ _idx after ≤ Z.of_nat (length rows)) /\
  (0 ≤ _rowcount self ->
     let after := (fetchall self).1 in
     _rows after = Some rows /\ 0 ≤ _idx after ≤ Z.of_nat (length rows)) /\
  (let after := (nextset self).1 in
   forall rows', _rows after = Some rows' ->
     0 ≤ _idx after ≤ Z.of_nat (length rows')).
Proof.
  intros Hopen Hrows Hidx.
  destruct (executed_open_not_closed _ Hopen) as [Hc Hn].
  split; [|split; [|split; [|split]]].
  - unfold fetchone, _get_next_range, rows_not_None. unfold_M.
    rewrite Hc. rewrite bool_decide_eq_false_2 by done.
    rewrite Hrows. simpl.
    destruct (bool_decide (_idx self = _)); simpl; [split; [done|lia]|].
    rewrite Hrows.
    destruct (Py.getitem rows (_idx self)); simpl; [|split; [done|lia]].
    match goal with |- context [_parse_row ?r ?c] =>
      pose proof (parse_row_cursor r c) as Hrow;
      destruct (_parse_row r c) as [c' [?|?]] end;
      simpl in *; subst c'; simpl; split; (done || lia).
  - intros size Hsize.
    unfold fetchmany, check_not_closed, check_query_executed, cursor_of,
      Cursor_HasCursor. rewrite Hc. rewrite bool_decide_eq_false_2 by done.
    exact (fetch_body_position size self rows Hrows Hidx Hsize).
  - intros Hsize.
    unfold fetchmany, check_not_closed, check_query_executed, cursor_of,
      Cursor_HasCursor. rewrite Hc. rewrite bool_decide_eq_false_2 by done.
    exact (fetch_body_position _ self rows Hrows Hidx Hsize).
  - intros Hsize.
    assert (fetchall self
            = (range ← _get_next_range (_rowcount self);
               rows ← rows_not_None;
               _parse_rows (Py.slice rows range.1 range.2)) self) as ->.
    { unfold fetchall, rowcount, check_not_closed, check_query_executed,
        cursor_of, Cursor_HasCursor. rewrite Hc.
      rewrite bool_decide_eq_false_2 by done.
      unfold mbind at 1. unfold M_bind at 1. cbv beta. by rewrite Hc. }
    exact (fetch_body_position _ self rows Hrows Hidx Hsize).
  - unfold nextset, check_not_closed, check_query_executed, cursor_of,
      Cursor_HasCursor, _pop_next_set. rewrite Hc.
    rewrite bool_decide_eq_false_2 by done.
    destruct (bool_decide (_ ≤ _)%nat); simpl.
    + intros rows'. rewrite Hrows. intros [= <-]. done.
    + destruct (_row_sets self !! _next_set_idx self); simpl.
      * intros rows' _. lia.
      * intros rows'. rewrite Hrows. intros [= <-]. done.
Qed.
End PositionProperties.

(** C9 fails on the code: [fetchmany(-1)] right after a query of three rows
    returns the first two rows and leaves the position at [-1]; the next
    [fetchone] then returns the last row and moves to 0, from where the rows
    are served again. *)
Lemma fetchmany_negative_size :
  let self := loaded 1 DONE [Fixture.three_rows] in
  execute (RT := Fixture.runtime) (TR := Fixture.transport) Fixture.conn
    "SELECT 2" None None
    ([Ok (Fixture.ok_response (Fixture.ints 3 [10; 20; 30]))], Cursor__init__)
  = (([], self), Ok 3) /\
  fetchmany (RT := Fixture.runtime) (Some (-1)) self
  = (set_idx (-1) self, Ok [[CInt 10]; [CInt 20]]) /\
  _idx (fetchmany (RT := Fixture.runtime) (Some (-1)) self).1 = -1 /\
  ~ (0 ≤ _idx (fetchmany (RT := Fixture.runtime) (Some (-1)) self).1) /\
  fetchone (RT := Fixture.runtime) (set_idx (-1) self)
  = (set_idx 0 self, Ok (Some [CInt 30])).
Proof.
  repeat split; try (vm_compute; reflexivity).
  vm_compute. intros H. by apply H.
Qed.

(** ** Closing a connection *)

Lemma remove_first_elem_of (x y : nat) (l : list nat) :
  y ∈ remove_first x l -> y ∈ l.
Proof.
  induction l as [|z l IH]; simpl; [done|].
  destruct (decide (x = z)) as [->|Hne].
  - intros Hy. by apply list_elem_of_further.
  - intros [->|Hy]%elem_of_cons; [apply list_elem_of_here|].
    by apply list_elem_of_further, IH.
Qed.

Lemma remove_first_other (x y : nat) (l : list nat) :
  y ∈ l -> y ≠ x -> y ∈ remove_first x l.
Proof.
  intros Hy Hne. induction l as [|z l IH]; simpl; [done|].
  apply elem_of_cons in Hy as [->|Hy].
  - rewrite decide_False by done. apply list_elem_of_here.
  - destruct (decide (x = z)); [done|]. by apply list_elem_of_further, IH.
Qed.

Section ConnectionProperties.
Context {RT : PyRuntime} {client : Type} {TR : Transport client}.

Local Ltac simpl_world :=
  unfold registered_or_closed, all_closed;
  cbn [connection store client_state fst snd _cursors _is_closed
       set_cursors set_is_closed database engine_url api_endpoint] in *.

Lemma call_spec {A} (c : nat) (m : M (client * Cursor) A)
    (w : World client) :
  (store w !! c = None /\
   call c m w = (w, Raise (AssertionError "no such cursor"))) \/
  (exists self,
     store w !! c = Some self /\
     call c m w
     = ({| connection := connection w;
           store := <[c := (m (client_state w, self)).1.2]> (store w);
           client_state := (m (client_state w, self)).1.1 |},
        (m (client_state w, self)).2)).
Proof.
  unfold call. destruct (store w !! c) as [self|]; [right|by left].
  exists self. split; [done|].
  by destruct (m (client_state w, self)) as [[cl self'] r].
Qed.

Lemma close_spec (c : nat) (w : World client) :
  (store w !! c = None /\
   close c w = (w, Raise (AssertionError "no such cursor"))) \/
  (exists self,
     store w !! c = Some self /\
     close c w
     = ({| connection :=
             set_cursors (remove_first c (_cursors (connection w)))
               (connection w);
           store := <[c := set_state CLOSED self]> (store w);
           client_state := client_state w |}, Ok tt)).
Proof.
  unfold close. unfold mbind, M_bind.
  destruct (call_spec c (on_cursor (modify (set_state CLOSED))) w)
    as [[Hnone ->]|(self & Hsome & ->)]; [by left|right].
  by exists self.
Qed.

(** A closed cursor answers [CursorClosedError] and stays as it is. *)
Lemma execute_closed (connection : Connection) (query : string)
    (parameters : option (list ParameterType))
    (set_parameters : option (gmap string string))
    (cl : client) (self : Cursor) :
  _state self = CLOSED ->
  execute connection query parameters set_parameters (cl, self)
  = ((cl, self), Raise (CursorClosedError "execute")).
Proof.
  intros Hst. unfold execute, check_not_closed, cursor_of, pair_HasCursor,
    closed. simpl. by rewrite bool_decide_eq_true_2.
Qed.

Lemma keeps_closed_guarded {A} (func_name : string) (m : M Cursor A) :
  keeps_closed (client := client)
    (on_cursor (check_not_closed func_name m)).
Proof.
  intros cl self Hst. unfold on_cursor, check_not_closed, cursor_of,
    Cursor_HasCursor, closed. simpl. by rewrite bool_decide_eq_true_2.
Qed.

Lemma keeps_closed_call (op : Call) (w : World client) :
  match op with
  | call_execute c query parameters set_parameters =>
      keeps_closed (execute (connection w) query parameters set_parameters)
  | call_executemany c query parameters_seq =>
      keeps_closed (executemany (connection w) query parameters_seq)
  | _ => True
  end.
Proof.
  destruct op; try done; intros cl self Hst.
  - by rewrite execute_closed.
  - unfold executemany, check_not_closed, cursor_of, pair_HasCursor,
      closed. simpl. by rewrite bool_decide_eq_true_2.
Qed.

Lemma call_registered {A} (c : nat) (m : M (client * Cursor) A)
    (w : World client) :
  keeps_closed m -> registered_or_closed w ->
  registered_or_closed (call c m w).1.
Proof.
  intros Hm Hw. pose proof Hw as (Hreg & Hvalid & Hclosed).
  destruct (call_spec c m w) as [[_ ->]|(self & Hself & ->)]; [exact Hw|].
  simpl_world. split; [|split].
  - intros c' self'. destruct (decide (c = c')) as [<-|Hne].
    + rewrite list_lookup_insert_eq by by eapply lookup_lt_Some.
      intros [= <-]. destruct (Hreg c self Hself) as [?|Hst]; [by left|].
      right. by apply Hm.
    + rewrite list_lookup_insert_ne by done. apply Hreg.
  - intros c' Hc'. rewrite length_insert. by apply Hvalid.
  - intros Hcl c' self'. destruct (decide (c = c')) as [<-|Hne].
    + rewrite list_lookup_insert_eq by by eapply lookup_lt_Some.
      intros [= <-]. apply Hm. by eapply Hclosed.
    + rewrite list_lookup_insert_ne by done. by apply Hclosed.
Qed.


(** The loop of [_aclose]: every cursor of the list ends closed, the
    others stay as they are. *)
Lemma close_all_spec (cursors : list nat) (w : World client) :
  (forall c, c ∈ cursors -> (c < length (store w))%nat) ->
  exists w',
    close_all cursors w = (w', Ok tt) /\
    length (store w') = length (store w) /\
    client_state w' = client_state w /\
    _is_closed (connection w') = _is_closed (connection w) /\
    (forall c, c ∈ _cursors (connection w') ->
               c ∈ _cursors (connection w)) /\
    (forall c self', store w' !! c = Some self' ->
       _state self' = CLOSED \/ ((c ∉ cursors) /\ store w !! c = Some self')).
Proof.
  revert w. induction cursors as [|c cursors IH]; intros w Hvalid.
  - exists w. repeat split; try done. intros c self' Hc. right.
    split; [apply not_elem_of_nil|done].
  - cbn [close_all]. unfold mbind, M_bind.
    destruct (close_spec c w) as [[Hnone _]|(self & Hself & ->)].
    { apply lookup_ge_None in Hnone.
      specialize (Hvalid c (list_elem_of_here _ _)). lia. }
    match goal with |- context [close_all cursors ?w1] =>
      destruct (IH w1) as (w' & -> & Hlen & Hcl & Hclosed & Hsub & Hst) end.
    { simpl_world. intros c' Hc'. rewrite length_insert.
      by apply Hvalid, list_elem_of_further. }
    simpl_world. rewrite length_insert in Hlen.
    exists w'. repeat split; try done.
    + intros c' Hc'. by eapply remove_first_elem_of, Hsub.
    + intros c' self' Hc'.
      destruct (Hst c' self' Hc') as [?|[Hnot Hold]]; [by left|].
      destruct (decide (c = c')) as [<-|Hne].
      * rewrite list_lookup_insert_eq in Hold by by eapply lookup_lt_Some.
        left. by injection Hold as <-.
      * rewrite list_lookup_insert_ne in Hold by done. right.
        split; [|done]. by intros [->|?]%elem_of_cons.
Qed.

Lemma aclose_spec (w : World client) :
  registered_or_closed w ->
  (forall w', _aclose w = (w', Ok tt) ->
     all_closed w' /\ length (store w') = length (store w)) /\
  registered_or_closed (_aclose w).1.
Proof.
  intros Hw. pose proof Hw as (Hreg & Hvalid & Hclosed).
  unfold _aclose, connection_closed.
  destruct (_is_closed (connection w)) eqn:Hcl.
  { split; [|exact Hw]. intros w' [= <-]. repeat split; try done.
    by apply Hclosed. }
  unfold mbind, M_bind.
  destruct (close_all_spec (_cursors (connection w)) w Hvalid)
    as (w1 & -> & Hlen & Hclient & Hcl1 & Hsub & Hst).
  assert (forall c self', store w1 !! c = Some self' ->
            _state self' = CLOSED) as Hall.
  { intros c self' Hc. destruct (Hst c self' Hc) as [?|[Hnot Hold]]; [done|].
    by destruct (Hreg c self' Hold). }
  destruct (aclose (client_state w1)) as [cl [[]|e]]; simpl.
  - split.
    + intros w' [= <-]. simpl. by rewrite Hlen.
    + split; [|split]; simpl; eauto.
      intros c Hc. rewrite Hlen. by apply Hvalid, Hsub.
  - split; [done|]. split; [|split]; simpl; eauto.
    + intros c Hc. rewrite Hlen. by apply Hvalid, Hsub.
Qed.

Lemma after_registered (op : Call) (w : World client) :
  registered_or_closed w -> registered_or_closed (after op w).
Proof.
  intros Hw. pose proof (keeps_closed_call op w) as Hop.
  destruct op; cbn [after];
    try (apply call_registered; [|done]; try done;
         try apply keeps_closed_guarded).
  - pose proof Hw as (Hreg & Hvalid & Hclosed).
    unfold _cursor, connection_closed.
    destruct (_is_closed (connection w)) eqn:Hcl; [exact Hw|].
    simpl_world. split; [|split].
    + intros c self Hc. apply lookup_app_Some in Hc as [Hc|[Hge Hc]].
      * destruct (Hreg c self Hc) as [?|?]; [left|by right].
        by apply elem_of_app; left.
      * left. apply elem_of_app; right.
        apply list_lookup_singleton_Some in Hc as [Hc _].
        replace c with (length (store w)) by lia. apply list_elem_of_here.
    + intros c [Hc|Hc%list_elem_of_singleton]%elem_of_app;
        rewrite length_app; simpl; [|lia].
      specialize (Hvalid c Hc). lia.
    + by rewrite Hcl.
  - by apply aclose_spec.
  - unfold commit. by destruct (connection_closed w).
  - pose proof Hw as (Hreg & Hvalid & Hclosed).
    destruct (close_spec c w) as [[_ ->]|(self & Hself & ->)]; [exact Hw|].
    simpl_world. split; [|split].
    + intros c' self'. destruct (decide (c = c')) as [<-|Hne].
      * rewrite list_lookup_insert_eq by by eapply lookup_lt_Some.
        intros [= <-]. by right.
      * rewrite list_lookup_insert_ne by done. intros Hc'.
        destruct (Hreg c' self' Hc') as [?|?]; [left|by right].
        by apply remove_first_other.
    + intros c' Hc'. rewrite length_insert.
      by eapply Hvalid, remove_first_elem_of.
    + intros Hcl c' self'. destruct (decide (c = c')) as [<-|Hne].
      * rewrite list_lookup_insert_eq by by eapply lookup_lt_Some.
        by intros [= <-].
      * rewrite list_lookup_insert_ne by done. by apply Hclosed.
  - intros cl self Hst. by unfold on_cursor, modify.
Qed.

Lemma after_all_registered (ops : list Call) (w : World client) :
  registered_or_closed w -> registered_or_closed (after_all ops w).
Proof.
  revert w. induction ops as [|op ops IH]; intros w Hw; [done|].
  simpl. by apply IH, after_registered.
Qed.

End ConnectionProperties.

Section ConnectionClose.
Context {RT : PyRuntime} {client : Type} {TR : Transport client}.


End ConnectionClose.



(** * Further properties *)

(** ** [parse_type] and [parse_value] *)

Lemma wrappers_rec_fuel (n m : nat) (s : string) :
  (String.length s ≤ n)%nat -> (String.length s ≤ m)%nat ->
  wrappers_rec n s = wrappers_rec m s.
Proof.
  revert m s. induction n as [|n IH]; intros m s Hn Hm.
  - destruct s; [|simpl in Hn; lia]. by destruct m.
  - destruct m as [|m]; [by destruct s; [|simpl in Hm; lia]|].
    cbn [wrappers_rec].
    destruct (Str.startswith s ARRAY_._prefix) eqn:Ha;
      destruct (Str.startswith s NULLABLE_PREFIX) eqn:Hnull;
      destruct (Str.endswith s ")"); cbn [andb]; try done.
    all: f_equal; apply IH.
    all: match goal with
         | |- (String.length (Str.slice_to_last ?k ?x) ≤ _)%nat =>
             pose proof (slice_to_last_shorter k x) as Hlt
         end.
    all: assert (s ≠ "") as Hne by (eapply startswith_nonempty; eauto).
    all: specialize (Hlt Hne); lia.
Qed.

(** [wrappers] satisfies the recursive equation of [parse_type_step]. *)
Lemma wrappers_unfold (s : string) :
  wrappers s
  = if Str.startswith s ARRAY_._prefix && Str.endswith s ")"
    then S (wrappers (Str.slice_to_last (String.length ARRAY_._prefix) s))
    else if Str.startswith s NULLABLE_PREFIX && Str.endswith s ")"
    then S (wrappers (Str.slice_to_last (String.length NULLABLE_PREFIX) s))
    else 0%nat.
Proof.
  unfold wrappers at 1.
  rewrite (wrappers_rec_fuel _ (S (String.length s))) by lia.
  cbn [wrappers_rec].
  destruct (Str.startswith s ARRAY_._prefix) eqn:Ha;
    destruct (Str.startswith s NULLABLE_PREFIX) eqn:Hnull;
    destruct (Str.endswith s ")"); cbn [andb]; try done.
  all: f_equal; apply wrappers_rec_fuel; [|done].
  all: match goal with
       | |- (String.length (Str.slice_to_last ?k ?x) ≤ _)%nat =>
           pose proof (slice_to_last_shorter k x) as Hlt
       end.
  all: assert (s ≠ "") as Hne by (eapply startswith_nonempty; eauto).
  all: specialize (Hlt Hne); lia.
Qed.

(** The recursion of [parse_type] is one call deeper than the name has
    wrappers. *)
Lemma parse_type_rec_frames (s : string) (frames : nat) :
  (wrappers s < frames)%nat -> parse_type_rec frames s = parse_type_str s.
Proof.
  remember (String.length s) as n eqn:Hn.
  revert s Hn frames. induction n as [n IH] using lt_wf_ind.
  intros s -> frames. destruct frames as [|frames]; [lia|].
  rewrite wrappers_unfold, parse_type_unfold, parse_type_rec_S.
  unfold parse_type_step.
  destruct (Str.startswith s ARRAY_._prefix) eqn:Ha;
    destruct (Str.startswith s NULLABLE_PREFIX) eqn:Hnull;
    destruct (Str.endswith s ")"); cbn [andb]; try done.
  all: intros Hlt; erewrite IH; [done| |reflexivity|lia].
  all: apply slice_to_last_shorter; eapply startswith_nonempty; eauto.
Qed.

Lemma parse_type_scalar_class (raw_type : string) :
  exists t, parse_type_str raw_type = Ok t /\ scalar_class (innermost t) = true.
Proof.
  remember (String.length raw_type) as n eqn:Hn.
  revert raw_type Hn. induction n as [n IH] using lt_wf_ind.
  intros s ->. rewrite parse_type_unfold. unfold parse_type_step.
  assert (exists t,
            match InternalType.of_value s with
            | Some t => Ok (Class (InternalType.python_type t))
            | None => Ok (Class py_str)
            end = Ok t /\ scalar_class (innermost t) = true) as Hscalar.
  { destruct (InternalType.of_value s) as [t|]; eexists;
      (split; [reflexivity|]); simpl; [by destruct t|done]. }
  assert (forall k, s ≠ "" ->
            exists t, parse_type_str (Str.slice_to_last k s) = Ok t /\
                      scalar_class (innermost t) = true) as Hrec.
  { intros k Hne. eapply IH; [|reflexivity]. by apply slice_to_last_shorter. }
  assert (forall t, scalar_class (innermost t) = true ->
            ARRAY_.__init__ t = Ok (ARRAY t)) as Hinit.
  { intros t Ht. apply ARRAY_init_ok. intros Hlist. by rewrite Hlist in Ht. }
  destruct (Str.startswith s ARRAY_._prefix) eqn:Ha;
    destruct (Str.startswith s NULLABLE_PREFIX) eqn:Hn;
    destruct (Str.endswith s ")"); cbn [andb]; try exact Hscalar.
  - destruct (Hrec (String.length ARRAY_._prefix)) as (t & -> & Ht);
      [by eapply startswith_nonempty|].
    simpl. rewrite Hinit by done. by eexists.
  - destruct (Hrec (String.length ARRAY_._prefix)) as (t & -> & Ht);
      [by eapply startswith_nonempty|].
    simpl. rewrite Hinit by done. by eexists.
  - apply Hrec. by eapply startswith_nonempty.
Qed.

Section TypeCodeProperties.
Context {RT : PyRuntime}.

(** X1: [parse_type] raises [DataError] for a type name that is not a
    [str].  For a [str], well formed or not, of at most [nesting_bound]
    wrappers, it returns a type code, after one call for each wrapper and
    one more; the innermost class of the code is one of [int], [float],
    [str], [date] and [datetime], so the assertion of [ARRAY] does not fail
    inside [parse_type]. *)
Theorem parse_type_str_gives_type_code (raw_type : RawValue) :
  match raw_type with
  | RStr s =>
      (wrappers s ≤ nesting_bound)%nat ->
      exists t, parse_type raw_type = Ok t /\
                parse_type_rec (S (wrappers s)) s = Ok t /\
                scalar_class (innermost t) = true
  | _ => exists msg, parse_type raw_type = Raise (DataError msg)
  end.
Proof.
  destruct raw_type as [| | | |s|]; try (simpl; by eauto). intros _.
  destruct (parse_type_scalar_class s) as (t & Ht & Hscalar).
  exists t. split; [done|]. split; [|done].
  rewrite <- Ht. apply parse_type_rec_frames. lia.
Qed.

(** X2: a name that is no known scalar name and does not end with a closing
    parenthesis, such as a new server type or a wrapper that is not closed,
    has the type code [str], and a value of any shape in such a column is
    fetched without an error: [None] as [None], the rest as text. *)
Theorem unknown_type_is_fetched_as_text (raw_type : string)
    (value : RawValue) :
  InternalType.of_value raw_type = None ->
  Str.endswith raw_type ")" = false ->
  parse_type (RStr raw_type) = Ok (Class py_str) /\
  parse_value value (Class py_str)
  = Ok (match value with RNone => CNone | _ => CStr (str_ value) end).
Proof.
  intros Hname Hend. split.
  - simpl. rewrite parse_type_unfold. unfold parse_type_step.
    rewrite Hend, !andb_false_r, Hname. done.
  - by destruct value.
Qed.

(** X3: nullability is not kept: a well-formed name and the same name
    without its [Nullable(...)] wrappers, wherever they stand, have the same
    type code. *)
Theorem parse_type_drops_nullable (x : type_name) :
  parse_type (RStr (type_name_str x))
  = parse_type (RStr (type_name_str (erase_nullable x))).
Proof.
  simpl. rewrite !parse_type_well_formed. f_equal.
  induction x as [t|x IH|x IH]; simpl; congruence.
Qed.
End TypeCodeProperties.

(** X1 on an array of nullable integers: two wrappers, three calls. *)
Lemma parse_type_str_gives_type_code_witness :
  wrappers "Array(Nullable(Int8))" = 2%nat /\
  exists t,
    parse_type (RT := Fixture.runtime) (RStr "Array(Nullable(Int8))") = Ok t /\
    parse_type_rec 3 "Array(Nullable(Int8))" = Ok t /\
    scalar_class (innermost t) = true.
Proof.
  split; [reflexivity|].
  apply (parse_type_str_gives_type_code (RT := Fixture.runtime)
           (RStr "Array(Nullable(Int8))")).
  vm_compute. lia.
Defined.

(** X2 on the wrapper [Array(Int8], which is not closed. *)
Lemma unknown_type_is_fetched_as_text_witness :
  parse_type (RT := Fixture.runtime) (RStr "Array(Int8") = Ok (Class py_str) /\
  parse_value (RT := Fixture.runtime) (RList [RInt 1]) (Class py_str)
  = Ok (CStr "[1]").
Proof.
  exact (unknown_type_is_fetched_as_text (RT := Fixture.runtime)
           "Array(Int8" (RList [RInt 1]) eq_refl eq_refl).
Defined.

(** ** [format_value] on a [str] *)

Lemma escape_cons (c : ascii) (s : string) :
  escape (String c s) = escape_char c +:+ escape s.
Proof. unfold escape. simpl. apply concat_cons. Qed.

Lemma escape_char_cases (c : ascii) :
  (c = "000"%char /\ escape_char c = "\0") \/
  (c = "\"%char /\ escape_char c = "\\") \/
  (c = "'"%char /\ escape_char c = "\'") \/
  (Str.char_eqb c "'" = false /\ Str.char_eqb c "\" = false /\
   escape_char c = String c "").
Proof.
  unfold escape_char, Str.char_eqb.
  destruct (decide (c = "000"%char)) as [->|H0]; [by left|].
  destruct (decide (c = "\"%char)) as [->|H1]; [by right; left|].
  destruct (decide (c = "'"%char)) as [->|H2]; [by right; right; left|].
  right; right; right. by rewrite !bool_decide_eq_false_2.
Qed.

Lemma literal_rest_escape (s rest : string) :
  literal_rest (escape s +:+ "'" +:+ rest) = Some rest.
Proof.
  induction s as [|c s IH]; [done|].
  rewrite escape_cons, string_app_assoc.
  destruct (escape_char_cases c)
    as [[-> ->]|[[-> ->]|[[-> ->]|(Hq & Hb & ->)]]]; try exact IH.
  rewrite string_app_cons, string_app_nil_l. simpl. by rewrite Hq, Hb.
Qed.

Lemma unescape_escape (s : string) : unescape (escape s) = s.
Proof.
  induction s as [|c s IH]; [done|].
  rewrite escape_cons.
  destruct (escape_char_cases c)
    as [[-> ->]|[[-> ->]|[[-> ->]|(Hq & Hb & ->)]]];
    rewrite ?string_app_cons, ?string_app_nil_l; simpl; rewrite ?Hb, IH;
    done.
Qed.

Section LiteralProperties.
Context {RT : PyRuntime}.

(** X4: the literal of a [str] parameter is one quoted literal, whatever
    the text holds: read after its opening quote, with a backslash taking
    the next character along, it is closed by its last character and not
    before, so the text that follows it in the query stays outside. *)
Theorem string_literal_closes_at_its_end (value rest : string) :
  exists body,
    format_value (PStr value) = Ok (String "'" body) /\
    literal_rest (body +:+ rest) = Some rest.
Proof.
  exists (escape value +:+ "'"). split; [done|].
  rewrite string_app_assoc. apply literal_rest_escape.
Qed.

(** X5: two [str] parameters with the same literal are the same text: the
    escaping loses nothing. *)
Theorem string_literal_injective (value1 value2 : string) :
  format_value (PStr value1) = format_value (PStr value2) ->
  value1 = value2.
Proof.
  simpl. intros [= Heq].
  assert (escape value1 = escape value2) as Hesc.
  { rewrite !string_app_nil_l in Heq.
    apply (f_equal Str.rev) in Heq. rewrite !rev_app in Heq.
    apply (inj (String.app _)) in Heq.
    by rewrite <- (rev_involutive (escape value1)), Heq, rev_involutive. }
  by rewrite <- (unescape_escape value1), Hesc, unescape_escape.
Qed.
End LiteralProperties.

(** X5 on a text with a quote and a backslash. *)
Lemma string_literal_injective_witness :
  format_value (RT := Fixture.runtime) (PStr "a'\")
  = format_value (RT := Fixture.runtime) (PStr "a'\") /\ "a'\" = "a'\".
Proof.
  split; [reflexivity|].
  exact (string_literal_injective (RT := Fixture.runtime) "a'\" "a'\" eq_refl).
Defined.

(** ** [split_format_sql] with parameter sets *)

Lemma traverse_Forall2 {A B} (f : A -> result B) (xs : list A) (ys : list B) :
  traverse f xs = Ok ys <-> Forall2 (fun x y => f x = Ok y) xs ys.
Proof.
  revert ys. induction xs as [|x xs IH]; intros ys; simpl.
  - split; [intros [= <-]; constructor|by intros ->%Forall2_nil_inv_l].
  - destruct (f x) as [y|e] eqn:Hx; simpl.
    + destruct (traverse f xs) as [ys'|e] eqn:Hxs; simpl.
      * split.
        -- intros [= <-]. constructor; [done|]. by apply IH.
        -- intros (y' & ys'' & Hy & Hys & ->)%Forall2_cons_inv_l.
           apply IH in Hys. congruence.
      * split; [done|].
        intros (y' & ys'' & Hy & Hys & ->)%Forall2_cons_inv_l.
        by apply IH in Hys.
    + split; [done|].
      intros (y' & ys'' & Hy & Hys & ->)%Forall2_cons_inv_l. congruence.
Qed.

Section SplitProperties.
Context {RT : PyRuntime}.

(** X6: with parameter sets, [split_format_sql] that returns has found one
    statement and gives one query for each parameter set, in order, each the
    statement formatted with that set alone; and a query in which
    [sqlparse] finds no statement comes back as it is, with the parameter
    sets not looked at. *)
Theorem split_format_sql_one_query_per_parameter_set (query : string)
    (parameters : list (list ParameterType)) :
  (parse_sql query = [] -> split_format_sql query parameters = Ok [query]) /\
  (forall queries,
     parameters ≠ [] -> parse_sql query ≠ [] ->
     split_format_sql query parameters = Ok queries ->
     exists statement,
       parse_sql query = [statement] /\
       length queries = length parameters /\
       Forall2 (fun paramset formatted =>
                  format_statement statement paramset = Ok formatted)
         parameters queries).
Proof.
  unfold split_format_sql. split.
  - by intros ->.
  - intros queries Hparams Hst.
    destruct (parse_sql query) as [|st0 sts]; [done|].
    destruct parameters as [|p ps]; [done|].
    case_bool_decide as Hlen; [done|]. intros Hrun.
    exists st0. destruct sts; [|simpl in Hlen; lia].
    split; [done|]. split; [by apply traverse_length in Hrun|].
    by apply traverse_Forall2.
Qed.
End SplitProperties.

(** X6 on [SELECT ?] with the three parameter sets [1], [2] and [3]. *)
Lemma split_format_sql_one_query_per_parameter_set_witness :
  split_format_sql (RT := Fixture.runtime) "SELECT ?"
    [[PInt 1]; [PInt 2]; [PInt 3]]
  = Ok ["SELECT 1"; "SELECT 2"; "SELECT 3"] /\
  exists statement,
    parse_sql (PyRuntime := Fixture.runtime) "SELECT ?" = [statement] /\
    length ["SELECT 1"; "SELECT 2"; "SELECT 3"]
    = length [[PInt 1]; [PInt 2]; [PInt 3]] /\
    Forall2 (fun paramset formatted =>
               format_statement (RT := Fixture.runtime) statement paramset
               = Ok formatted)
      [[PInt 1]; [PInt 2]; [PInt 3]] ["SELECT 1"; "SELECT 2"; "SELECT 3"].
Proof.
  assert (split_format_sql (RT := Fixture.runtime) "SELECT ?"
            [[PInt 1]; [PInt 2]; [PInt 3]]
          = Ok ["SELECT 1"; "SELECT 2"; "SELECT 3"]) as Hrun
    by (vm_compute; reflexivity).
  split; [exact Hrun|].
  apply (proj2 (split_format_sql_one_query_per_parameter_set
                  (RT := Fixture.runtime) "SELECT ?"
                  [[PInt 1]; [PInt 2]; [PInt 3]]));
    [discriminate|vm_compute; discriminate|exact Hrun].
Defined.

(** ** [execute] and what was buffered before *)

Section ExecuteProperties2.
Context {RT : PyRuntime} {client : Type} {TR : Transport client}.

(** X7: a call of [execute] or [executemany] keeps nothing of what the
    cursor held: on two open cursors with the same [arraysize], whatever
    they have buffered, fetched or failed before, the call does the same
    requests, leaves the same cursor and returns or raises the same. *)
Theorem execute_forgets_previous_results (connection : Connection)
    (query : string) (cl : client) (self1 self2 : Cursor) :
  closed self1 = false -> closed self2 = false ->
  _arraysize self1 = _arraysize self2 ->
  (forall parameters set_parameters,
     execute connection query parameters set_parameters (cl, self1)
     = execute connection query parameters set_parameters (cl, self2)) /\
  (forall parameters_seq,
     executemany connection query parameters_seq (cl, self1)
     = executemany connection query parameters_seq (cl, self2)).
Proof.
  intros H1 H2 Hsize. split; intros.
  - by rewrite !execute_unfold, Hsize.
  - by rewrite !executemany_unfold, Hsize.
Qed.

Lemma response_row_set_no_rows (resp : Response) (row_set : RowSet) :
  response_row_set resp = Ok row_set ->
  row_set.2 = None -> row_set.1.1 = -1.
Proof.
  unfold response_row_set. case_bool_decide; [|by intros [= <-]].
  unfold decode_row_set.
  destruct (json resp) as [data|[]]; simpl; try done.
  destruct (item "rows" _) as [?|[]]; simpl; try done.
  destruct (int_ _) as [?|[]]; simpl; try done.
  destruct (item "meta" _) as [?|[]]; simpl; try done.
  destruct (traverse _ _) as [?|[]]; simpl; try done.
  destruct (item "data" _) as [?|[]]; simpl; try done.
  by intros [= <-].
Qed.

Lemma collect_no_rows (connection : Connection)
    (set_parameters : option (gmap string string)) (queries : list string)
    (cl cl' : client) (sets : list RowSet) (r : result unit) :
  collect connection set_parameters queries cl = (cl', (sets, r)) ->
  Forall (fun row_set => row_set.2 = None -> row_set.1.1 = -1) sets.
Proof.
  revert cl cl' sets r.
  induction queries as [|query queries IH]; intros cl cl' sets r; simpl.
  - by intros [= <- <- <-].
  - unfold statement_row_set at 1. unfold mbind, M_bind, lift.
    destruct (checked_response _ _ query cl) as [cl1 [resp|e]].
    + destruct (response_row_set resp) as [row_set|e] eqn:Hset.
      * destruct (collect _ _ queries cl1) as [cl2 [new r']] eqn:Hrest.
        intros [= <- <- <-]. constructor; [|by eapply IH].
        by eapply response_row_set_no_rows.
      * by intros [= <- <- <-].
    + by intros [= <- <- <-].
Qed.

(** X8: the value [execute] and [executemany] return is the row count of
    the first row set buffered, the one that is active after the call,
    however many statements or parameter sets the call has run; it is [-1]
    when the first response has no rows. *)
Theorem execute_returns_first_row_count (connection : Connection)
    (query : string) (cl cl' : client) (self self' : Cursor) (n : Z) :
  closed self = false ->
  (forall parameters set_parameters,
     execute connection query parameters set_parameters (cl, self)
     = ((cl', self'), Ok n) ->
     exists descriptions rows,
       _row_sets self' !! 0%nat = Some (n, descriptions, rows) /\
       (rows = None -> n = -1)) /\
  (forall parameters_seq,
     executemany connection query parameters_seq (cl, self)
     = ((cl', self'), Ok n) ->
     exists descriptions rows,
       _row_sets self' !! 0%nat = Some (n, descriptions, rows) /\
       (rows = None -> n = -1)).
Proof.
  intros Hopen.
  assert (forall set_parameters queries sets,
    queries ≠ [] ->
    collect connection set_parameters queries cl = (cl', (sets, Ok tt)) ->
    exists descriptions rows,
      _row_sets (loaded (_arraysize self) DONE sets) !! 0%nat
      = Some (_rowcount (loaded (_arraysize self) DONE sets),
              descriptions, rows) /\
      (rows = None -> _rowcount (loaded (_arraysize self) DONE sets) = -1))
    as Hfirst.
  { intros set_parameters queries sets Hne Hcollect.
    pose proof (collect_length _ _ _ _ _ _ _ Hcollect) as Hlen.
    pose proof (collect_no_rows _ _ _ _ _ _ _ Hcollect) as Hshape.
    destruct sets as [|[[count descr] rows] rest];
      [by destruct queries|].
    apply Forall_cons_1 in Hshape as [Hshape _].
    exists descr, rows. split; [done|]. simpl in *. by apply Hshape. }
  split.
  - intros parameters set_parameters. rewrite execute_unfold by done.
    destruct (split_format_sql _ _) as [queries|] eqn:Hsplit; [|done].
    destruct (collect _ _ _ cl) as [cl2 [sets [[]|?]]] eqn:Hcollect; [|done].
    intros [= <- <- <-]. eapply Hfirst; [|done].
    by eapply split_format_sql_nonempty.
  - intros parameters_seq. rewrite executemany_unfold by done.
    destruct (split_format_sql _ _) as [queries|] eqn:Hsplit; [|done].
    destruct (collect _ _ _ cl) as [cl2 [sets [[]|?]]] eqn:Hcollect; [|done].
    intros [= <- <- <-]. eapply Hfirst; [|done].
    by eapply split_format_sql_nonempty.
Qed.
End ExecuteProperties2.

(** X7 on a fresh cursor and on one that holds three rows of a query that
    failed, read up to the second row. *)
Lemma execute_forgets_previous_results_witness :
  execute (RT := Fixture.runtime) (TR := Fixture.transport) Fixture.conn
    "SELECT 2" None None
    ([Ok (Fixture.ok_response (Fixture.ints 1 [7]))], Cursor__init__)
  = execute (RT := Fixture.runtime) (TR := Fixture.transport) Fixture.conn
      "SELECT 2" None None
      ([Ok (Fixture.ok_response (Fixture.ints 1 [7]))],
       set_idx 2 (loaded 1 ERROR [Fixture.three_rows])).
Proof.
  exact (proj1 (execute_forgets_previous_results
                  (RT := Fixture.runtime) (TR := Fixture.transport)
                  Fixture.conn "SELECT 2"
                  [Ok (Fixture.ok_response (Fixture.ints 1 [7]))]
                  Cursor__init__
                  (set_idx 2 (loaded 1 ERROR [Fixture.three_rows]))
                  eq_refl eq_refl eq_refl) None None).
Defined.

(** X8 on [executemany] with two parameter sets, answered with one row and
    with three rows: the call returns 1. *)
Lemma execute_returns_first_row_count_witness :
  executemany (RT := Fixture.runtime) (TR := Fixture.transport) Fixture.conn
    "SELECT ?" [[PInt 1]; [PInt 2]] (Fixture.both_answer, Cursor__init__)
  = (([], loaded 1 DONE [Fixture.one_row; Fixture.three_rows]), Ok 1) /\
  exists descriptions rows,
    _row_sets (loaded 1 DONE [Fixture.one_row; Fixture.three_rows]) !! 0%nat
    = Some (1, descriptions, rows) /\
    (rows = None -> 1 = -1).
Proof.
  assert (executemany (RT := Fixture.runtime) (TR := Fixture.transport)
            Fixture.conn "SELECT ?" [[PInt 1]; [PInt 2]]
            (Fixture.both_answer, Cursor__init__)
          = (([], loaded 1 DONE [Fixture.one_row; Fixture.three_rows]), Ok 1))
    as Hrun by (vm_compute; reflexivity).
  split; [exact Hrun|].
  exact (proj2 (execute_returns_first_row_count
                  (RT := Fixture.runtime) (TR := Fixture.transport)
                  Fixture.conn "SELECT ?" Fixture.both_answer []
                  Cursor__init__
                  (loaded 1 DONE [Fixture.one_row; Fixture.three_rows]) 1
                  eq_refl) [[PInt 1]; [PInt 2]] Hrun).
Defined.

(** ** Fetching in pieces *)

Section FetchProperties3.
Context {RT : PyRuntime}.

Lemma parse_row_pure (row : Row) (self : Cursor) :
  closed self = false ->
  _parse_row row self = (self, parse_row_with (_descriptions self) row).
Proof.
  intros Hc. unfold _parse_row, description, parse_row_with, check_not_closed.
  unfold cursor_of, Cursor_HasCursor. unfold_M. rewrite Hc. simpl.
  destruct (_descriptions self); [|done].
  by destruct (bool_decide (length row = _)).
Qed.

Lemma parse_rows_pure (rows : list Row) (self : Cursor) :
  closed self = false ->
  _parse_rows rows self
  = (self, traverse (parse_row_with (_descriptions self)) rows).
Proof.
  intros Hc. induction rows as [|row rows IH]; [done|].
  cbn [_parse_rows traverse]. unfold mbind at 1. unfold M_bind at 1.
  rewrite parse_row_pure by done.
  destruct (parse_row_with _ row); [|done].
  unfold mbind at 1. unfold M_bind at 1. rewrite IH.
  by destruct (traverse _ rows).
Qed.

Lemma slice_in_range {A} (l : list A) (i n : Z) :
  0 ≤ i ≤ Z.of_nat (length l) -> 0 ≤ n ->
  Py.slice l i (Z.min (i + n) (Z.of_nat (length l)))
  = take (Z.to_nat n) (drop (Z.to_nat i) l).
Proof.
  intros Hi Hn. unfold Py.slice, Py.slice_bound.
  rewrite !bool_decide_eq_false_2 by lia.
  rewrite (Z.min_l i) by lia. rewrite (Z.min_l (Z.min _ _)) by lia.
  destruct (Z.min_spec (i + n) (Z.of_nat (length l))) as [[? ->]|[? ->]].
  - f_equal. lia.
  - rewrite !take_ge; [done|rewrite length_drop; lia..].
Qed.

Lemma fetchmany_in_range (self : Cursor) (rows : list Row) (size : Z) :
  in_range self rows -> 0 ≤ size ->
  fetchmany (Some size) self
  = (set_idx (Z.min (_idx self + size) (Z.of_nat (length rows))) self,
     traverse (parse_row_with (_descriptions self))
       (take (Z.to_nat size) (drop (Z.to_nat (_idx self)) rows))).
Proof.
  intros (Hopen & Hrows & Hidx) Hsize.
  destruct (executed_open_not_closed _ Hopen) as [Hc Hn].
  unfold fetchmany, check_not_closed, check_query_executed, cursor_of,
    Cursor_HasCursor. rewrite Hc. rewrite bool_decide_eq_false_2 by done.
  unfold _get_next_range, rows_not_None. unfold_M.
  rewrite Hrows. simpl. rewrite Hrows.
  rewrite parse_rows_pure by done. simpl.
  by rewrite slice_in_range.
Qed.

Lemma in_range_set_idx (self : Cursor) (rows : list Row) (i : Z) :
  in_range self rows -> 0 ≤ i ≤ Z.of_nat (length rows) ->
  in_range (set_idx i self) rows.
Proof.
  unfold in_range, executed_open. simpl. intros (? & ? & ?) ?.
  split; [done|]. split; [done|lia].
Qed.

Lemma traverse_app {A B} (f : A -> result B) (xs1 xs2 : list A)
    (ys : list B) :
  traverse f (xs1 ++ xs2) = Ok ys <->
  exists ys1 ys2,
    traverse f xs1 = Ok ys1 /\ traverse f xs2 = Ok ys2 /\ ys = ys1 ++ ys2.
Proof.
  rewrite traverse_Forall2. split.
  - intros (ys1 & ys2 & H1 & H2 & ->)%Forall2_app_inv_l.
    exists ys1, ys2. by rewrite !traverse_Forall2.
  - intros (ys1 & ys2 & H1 & H2 & ->).
    apply Forall2_app; by apply traverse_Forall2.
Qed.

Lemma fetchone_in_range (self : Cursor) (rows : list Row) :
  in_range self rows ->
  fetchone self
  = match drop (Z.to_nat (_idx self)) rows with
    | [] => (self, Ok None)
    | row :: _ =>
        (set_idx (_idx self + 1) self,
         match parse_row_with (_descriptions self) row with
         | Ok parsed => Ok (Some parsed)
         | Raise e => Raise e
         end)
    end.
Proof.
  intros (Hopen & Hrows & Hidx).
  destruct (executed_open_not_closed _ Hopen) as [Hc Hn].
  unfold fetchone, check_not_closed, check_query_executed, cursor_of,
    Cursor_HasCursor. rewrite Hc. rewrite bool_decide_eq_false_2 by done.
  unfold _get_next_range, rows_not_None. unfold_M.
  rewrite Hrows. cbn [fst snd].
  destruct (drop (Z.to_nat (_idx self)) rows) as [|row rest] eqn:Hdrop.
  - apply (f_equal length) in Hdrop.
    rewrite length_drop in Hdrop. simpl in Hdrop.
    assert (_idx self = Z.of_nat (length rows)) as Hend by lia.
    rewrite Z.min_r by lia. rewrite bool_decide_eq_true_2 by done.
    by rewrite <- Hend, set_idx_same.
  - assert (rows !! Z.to_nat (_idx self) = Some row) as Hrow.
    { rewrite <- (Nat.add_0_r (Z.to_nat _)), <- lookup_drop.
      by rewrite Hdrop. }
    pose proof (lookup_lt_Some _ _ _ Hrow) as Hlt.
    rewrite Z.min_l by lia.
    rewrite (bool_decide_eq_false_2 (_idx self = _idx self + 1)) by lia.
    simpl. rewrite Hrows. unfold Py.getitem.
    rewrite (bool_decide_eq_false_2 (_idx self < 0)) by lia.
    rewrite bool_decide_eq_true_2 by lia. rewrite Hrow. simpl.
    rewrite parse_row_pure by done. simpl.
    by destruct (parse_row_with _ row).
Qed.

Lemma fetchall_in_range (self : Cursor) (rows : list Row) :
  in_range self rows ->
  Z.of_nat (length rows) - _idx self ≤ _rowcount self ->
  fetchall self
  = (set_idx (Z.of_nat (length rows)) self,
     traverse (parse_row_with (_descriptions self))
       (drop (Z.to_nat (_idx self)) rows)).
Proof.
  intros (Hopen & Hrows & Hidx) Hcount.
  destruct (executed_open_not_closed _ Hopen) as [Hc Hn].
  unfold fetchall, rowcount, check_not_closed, check_query_executed,
    cursor_of, Cursor_HasCursor. rewrite Hc.
  rewrite bool_decide_eq_false_2 by done.
  unfold _get_next_range, rows_not_None. unfold_M. rewrite Hc.
  rewrite Hrows. simpl. rewrite Hrows.
  rewrite parse_rows_pure by done. simpl.
  rewrite Z.min_r by lia. by rewrite slice_rest.
Qed.

(** X9: on an executed, open cursor with the position inside the rows, two
    calls of [fetchmany] in a row, of sizes [a] and [b] that are not
    negative, return together what one call of size [a + b] returns and
    leave the cursor where it leaves it: no row is skipped and none is
    served twice. *)
Theorem fetchmany_splits (self self1 self2 : Cursor) (rows : list Row) (a b : Z)
    (out1 out2 : list (list ColValue)) :
  in_range self rows -> 0 ≤ a -> 0 ≤ b ->
  fetchmany (Some a) self = (self1, Ok out1) ->
  fetchmany (Some b) self1 = (self2, Ok out2) ->
  fetchmany (Some (a + b)) self = (self2, Ok (out1 ++ out2)).
Proof.
  intros Hin Ha Hb. pose proof Hin as (Hopen & Hrows & Hidx).
  rewrite (fetchmany_in_range self rows a) by done.
  intros [= <- H1].
  rewrite (fetchmany_in_range _ rows b)
    by (try apply in_range_set_idx; done || lia).
  cbn [_idx _descriptions set_idx]. intros [= <- H2].
  rewrite (fetchmany_in_range self rows (a + b)) by (done || lia).
  f_equal.
  - unfold set_idx. simpl. f_equal. lia.
  - rewrite Z2Nat.inj_add by lia. rewrite <- take_take_drop.
    apply traverse_app. exists out1, out2. split; [done|]. split; [|done].
    rewrite <- H2. f_equal. rewrite drop_drop.
    destruct (Z.min_spec (_idx self + a) (Z.of_nat (length rows)))
      as [[? ->]|[? ->]].
    + do 2 f_equal. lia.
    + rewrite !drop_ge; [done|lia..].
Qed.

(** X10: on such a cursor [fetchmany(1)] is [fetchone]: it moves the cursor
    as [fetchone] does, returns the row of [fetchone] as a list of one row,
    the empty list where [fetchone] returns [None], and raises what
    [fetchone] raises. *)
Theorem fetchone_is_fetchmany_1 (self : Cursor) (rows : list Row) :
  in_range self rows ->
  fetchmany (Some 1) self
  = ((fetchone self).1,
     match (fetchone self).2 with
     | Ok None => Ok []
     | Ok (Some row) => Ok [row]
     | Raise e => Raise e
     end).
Proof.
  intros Hin. pose proof Hin as (Hopen & Hrows & Hidx).
  rewrite (fetchmany_in_range self rows 1) by done.
  rewrite (fetchone_in_range self rows) by done.
  destruct (drop (Z.to_nat (_idx self)) rows) as [|row rest] eqn:Hdrop.
  - apply (f_equal length) in Hdrop.
    rewrite length_drop in Hdrop. simpl in Hdrop.
    simpl. f_equal. rewrite Z.min_r by lia.
    replace (Z.of_nat (length rows)) with (_idx self) by lia.
    apply set_idx_same.
  - assert (Z.to_nat (_idx self) < length rows)%nat.
    { apply (f_equal length) in Hdrop. rewrite length_drop in Hdrop.
      simpl in Hdrop. lia. }
    cbn [fst snd]. rewrite Z.min_l by lia. f_equal.
    change (Z.to_nat 1) with 1%nat. cbn [take traverse].
    by destruct (parse_row_with _ row).
Qed.

Lemma fetchone_until_None_in_range (fuel : nat) (self : Cursor)
    (rows : list Row) (out : list (list ColValue)) :
  in_range self rows ->
  traverse (parse_row_with (_descriptions self))
    (drop (Z.to_nat (_idx self)) rows) = Ok out ->
  (length out < fuel)%nat ->
  fetchone_until_None fuel self
  = (set_idx (Z.of_nat (length rows)) self, Ok out).
Proof.
  revert self out. induction fuel as [|fuel IH]; intros self out Hin Hout Hfuel;
    [lia|].
  pose proof Hin as (Hopen & Hrows & Hidx).
  cbn [fetchone_until_None]. rewrite (fetchone_in_range self rows) by done.
  destruct (drop (Z.to_nat (_idx self)) rows) as [|row rest] eqn:Hdrop.
  - injection Hout as <-.
    apply (f_equal length) in Hdrop.
    rewrite length_drop in Hdrop. simpl in Hdrop.
    replace (Z.of_nat (length rows)) with (_idx self) by lia.
    by rewrite set_idx_same.
  - assert (Z.to_nat (_idx self) < length rows)%nat as Hlt.
    { apply (f_equal length) in Hdrop. rewrite length_drop in Hdrop.
      simpl in Hdrop. lia. }
    cbn [traverse] in Hout.
    destruct (parse_row_with _ row) as [parsed|] eqn:Hrow; [|done].
    simpl in Hout.
    destruct (traverse _ rest) as [parsed_rest|] eqn:Hrest; [|done].
    injection Hout as <-.
    rewrite (IH (set_idx (_idx self + 1) self) parsed_rest).
    + done.
    + apply in_range_set_idx; [done|lia].
    + cbn [_idx _descriptions set_idx].
      replace (Z.to_nat (_idx self + 1)) with (Z.to_nat (_idx self) + 1)%nat
        by lia.
      by rewrite <- drop_drop, Hdrop.
    + simpl in Hfuel. lia.
Qed.

(** X11: a loop of [fetchone] up to the first [None] returns the rows one
    [fetchall] returns, in the same order, and leaves the cursor where
    [fetchall] leaves it, when the row count of the active set is not below
    the number of rows that remain. *)
Theorem fetchone_loop_is_fetchall (fuel : nat) (self self' : Cursor)
    (rows : list Row) (out : list (list ColValue)) :
  in_range self rows ->
  Z.of_nat (length rows) - _idx self ≤ _rowcount self ->
  fetchall self = (self', Ok out) ->
  (length out < fuel)%nat ->
  fetchone_until_None fuel self = (self', Ok out).
Proof.
  intros Hin Hcount. rewrite (fetchall_in_range self rows) by done.
  intros [= <- Hout] Hfuel. by apply fetchone_until_None_in_range.
Qed.
End FetchProperties3.

(** X9 on three rows: one row, then two, as three at once. *)
Lemma fetchmany_splits_witness :
  let self := loaded 1 DONE [Fixture.three_rows] in
  fetchmany (RT := Fixture.runtime) (Some (1 + 2)) self
  = (set_idx 3 self, Ok ([[CInt 10]] ++ [[CInt 20]; [CInt 30]])).
Proof.
  apply (fetchmany_splits (RT := Fixture.runtime)
           (loaded 1 DONE [Fixture.three_rows])
           (set_idx 1 (loaded 1 DONE [Fixture.three_rows]))
           (set_idx 3 (loaded 1 DONE [Fixture.three_rows]))
           [[RInt 10]; [RInt 20]; [RInt 30]] 1 2).
  - split; [by left|]. split; [reflexivity|simpl; lia].
  - lia.
  - lia.
  - vm_compute; reflexivity.
  - vm_compute; reflexivity.
Defined.

(** X10 on the first of three rows. *)
Lemma fetchone_is_fetchmany_1_witness :
  fetchmany (RT := Fixture.runtime) (Some 1)
    (loaded 1 DONE [Fixture.three_rows])
  = (set_idx 1 (loaded 1 DONE [Fixture.three_rows]), Ok [[CInt 10]]).
Proof.
  apply (fetchone_is_fetchmany_1 (RT := Fixture.runtime)
           (loaded 1 DONE [Fixture.three_rows])
           [[RInt 10]; [RInt 20]; [RInt 30]]).
  split; [by left|]. split; [reflexivity|simpl; lia].
Defined.

(** X11 on three rows, from the second row on. *)
Lemma fetchone_loop_is_fetchall_witness :
  fetchone_until_None (H := Fixture.runtime) 3
    (set_idx 1 (loaded 1 DONE [Fixture.three_rows]))
  = (set_idx 3 (loaded 1 DONE [Fixture.three_rows]),
     Ok [[CInt 20]; [CInt 30]]).
Proof.
  apply (fetchone_loop_is_fetchall (RT := Fixture.runtime) 3
           (set_idx 1 (loaded 1 DONE [Fixture.three_rows]))
           (set_idx 3 (loaded 1 DONE [Fixture.three_rows]))
           [[RInt 10]; [RInt 20]; [RInt 30]]).
  - split; [by left|]. split; [reflexivity|simpl; lia].
  - simpl; lia.
  - vm_compute; reflexivity.
  - simpl; lia.
Defined.

(** ** The registry of cursors *)

Lemma remove_first_NoDup (x : nat) (l : list nat) :
  NoDup l -> NoDup (remove_first x l) /\
  forall y, y ∈ remove_first x l <-> y ∈ l /\ y ≠ x.
Proof.
  induction 1 as [|z l Hz Hl IH]; simpl.
  - split; [constructor|]. intros y. split; [by intros ?%not_elem_of_nil|].
    by intros [?%not_elem_of_nil _].
  - destruct IH as [IH1 IH2]. destruct (decide (x = z)) as [->|Hne].
    + split; [done|]. intros y. rewrite elem_of_cons. split.
      * intros Hy. split; [by right|]. by intros ->.
      * by intros [[->|Hy] Hyz].
    + split.
      * constructor; [|done]. rewrite IH2. by intros [? _].
      * intros y. rewrite !elem_of_cons, IH2. split.
        -- intros [->|[? ?]]; [split; [by left|done]|split; [by right|done]].
        -- intros [[->|?] ?]; [by left|by right].
Qed.

Section RegistryProperties.
Context {RT : PyRuntime} {client : Type} {TR : Transport client}.

Local Ltac simpl_world :=
  unfold registry_exact;
  cbn [connection store client_state fst snd _cursors _is_closed
       set_cursors set_is_closed database engine_url api_endpoint] in *.

Lemma guarded_keeps_state {A} (m : M Cursor A) :
  state_blind m ->
  (forall self, _state self = CLOSED \/ _state self = NONE ->
     _state (m self).1 = _state self) ->
  forall self, _state (m self).1 = _state self.
Proof.
  intros Hblind Hguard self.
  destruct (_state self) eqn:Hst.
  - rewrite <- Hst. apply Hguard. by right.
  - rewrite <- Hst. apply (Hblind self ERROR); [by right|by right].
  - rewrite <- Hst. apply (Hblind self DONE); [by left|by left].
  - rewrite <- Hst. apply Hguard. by left.
Qed.

Lemma guards_return {A} (func_name : string) (m : M Cursor A) (self : Cursor) :
  _state self = CLOSED \/ _state self = NONE ->
  (check_not_closed func_name (check_query_executed func_name m) self).1
  = self.
Proof.
  unfold check_not_closed, check_query_executed, cursor_of, Cursor_HasCursor,
    closed.
  intros [Hst|Hst]; rewrite Hst; simpl; [done|].
  done.
Qed.

Lemma nextset_keeps_state (self : Cursor) :
  _state (nextset self).1 = _state self.
Proof.
  apply guarded_keeps_state; [apply state_blind_nextset|].
  intros self' Hst. unfold nextset. by rewrite guards_return.
Qed.

Lemma fetchone_keeps_state (self : Cursor) :
  _state (fetchone self).1 = _state self.
Proof.
  apply guarded_keeps_state; [apply state_blind_fetchone|].
  intros self' Hst. unfold fetchone. by rewrite guards_return.
Qed.

Lemma fetchmany_keeps_state (size : option Z) (self : Cursor) :
  _state (fetchmany size self).1 = _state self.
Proof.
  apply guarded_keeps_state; [apply state_blind_fetchmany|].
  intros self' Hst. unfold fetchmany. by rewrite guards_return.
Qed.

Lemma fetchall_keeps_state (self : Cursor) :
  _state (fetchall self).1 = _state self.
Proof.
  apply guarded_keeps_state; [apply state_blind_fetchall|].
  intros self' Hst. unfold fetchall. by rewrite guards_return.
Qed.

Lemma on_cursor_fst {A} (m : M Cursor A) (cl : client) (self : Cursor) :
  (on_cursor m (cl, self)).1.2 = (m self).1.
Proof. unfold on_cursor. simpl. by destruct (m self). Qed.

(** What a call through a reference does to the closedness of cursors. *)
Lemma call_keeps_closedness (op : Call) (w : World client) :
  match op with
  | call_execute c query parameters set_parameters =>
      keeps_open (execute (connection w) query parameters set_parameters)
  | call_executemany c query parameters_seq =>
      keeps_open (executemany (connection w) query parameters_seq)
  | call_nextset c => keeps_open (client := client) (on_cursor nextset)
  | call_fetchone c => keeps_open (client := client) (on_cursor fetchone)
  | call_fetchmany c size =>
      keeps_open (client := client) (on_cursor (fetchmany size))
  | call_fetchall c => keeps_open (client := client) (on_cursor fetchall)
  | call_set_arraysize c value =>
      keeps_open (client := client) (on_cursor (modify (set_arraysize value)))
  | _ => True
  end.
Proof.
  destruct op; try done; intros cl self Hst;
    rewrite ?on_cursor_fst, ?nextset_keeps_state, ?fetchone_keeps_state,
      ?fetchmany_keeps_state, ?fetchall_keeps_state; try done.
  - assert (closed self = false) as Hopen
      by (unfold closed; by rewrite bool_decide_eq_false_2).
    rewrite execute_unfold by done.
    destruct (split_format_sql _ _); [|done].
    destruct (collect _ _ _ cl) as [cl2 [sets [[]|?]]]; simpl;
      by rewrite loaded_state.
  - assert (closed self = false) as Hopen
      by (unfold closed; by rewrite bool_decide_eq_false_2).
    rewrite executemany_unfold by done.
    destruct (split_format_sql _ _); [|done].
    destruct (collect _ _ _ cl) as [cl2 [sets [[]|?]]]; simpl;
      by rewrite loaded_state.
Qed.

Lemma call_registry {A} (c : nat) (m : M (client * Cursor) A)
    (w : World client) :
  keeps_closed m -> keeps_open m -> registry_exact w ->
  registry_exact (call c m w).1.
Proof.
  intros Hclosed Hopen Hw. pose proof Hw as (Hdup & Hreg).
  destruct (call_spec c m w) as [[_ ->]|(self & Hself & ->)]; [exact Hw|].
  simpl_world. split; [done|]. intros c'. rewrite Hreg.
  destruct (decide (c = c')) as [<-|Hne].
  - rewrite list_lookup_insert_eq by by eapply lookup_lt_Some.
    rewrite Hself. split.
    + intros (self' & [= <-] & Hst). eexists. split; [done|].
      by apply Hopen.
    + intros (self' & [= <-] & Hst). exists self. split; [done|].
      intros Hcl. apply Hst. by apply Hclosed.
  - by rewrite list_lookup_insert_ne by done.
Qed.

Lemma close_registry (c : nat) (w : World client) :
  registry_exact w -> registry_exact (close c w).1.
Proof.
  intros Hw. pose proof Hw as (Hdup & Hreg).
  destruct (close_spec c w) as [[_ ->]|(self & Hself & ->)]; [exact Hw|].
  simpl_world. destruct (remove_first_NoDup c _ Hdup) as [Hdup' Hin].
  split; [done|]. intros c'. rewrite Hin, Hreg.
  destruct (decide (c = c')) as [<-|Hne].
  - rewrite list_lookup_insert_eq by by eapply lookup_lt_Some.
    split; [by intros [_ ?]|]. by intros (self' & [= <-] & Hst).
  - rewrite list_lookup_insert_ne by done. split; [by intros [? _]|].
    intros ?. split; [done|]. by intros ->.
Qed.

Lemma close_all_registry (cursors : list nat) (w : World client) :
  registry_exact w -> registry_exact (close_all cursors w).1.
Proof.
  revert w. induction cursors as [|c cursors IH]; intros w Hw; [done|].
  cbn [close_all]. unfold mbind, M_bind.
  pose proof (close_registry c w Hw) as Hw1.
  destruct (close_spec c w) as [[_ Heq]|(self & Hself & Heq)];
    rewrite Heq in *; [done|].
  cbn [fst] in Hw1. by apply IH.
Qed.

Lemma aclose_registry (w : World client) :
  registry_exact w -> registry_exact (_aclose w).1.
Proof.
  intros Hw. unfold _aclose. destruct (connection_closed w); [done|].
  unfold mbind, M_bind.
  pose proof (close_all_registry (_cursors (connection w)) w Hw) as Hw1.
  destruct (close_all _ w) as [w1 [[]|e]]; [|done].
  cbn [fst] in Hw1.
  destruct (aclose (client_state w1)) as [cl [[]|e]]; exact Hw1.
Qed.

Lemma after_registry (op : Call) (w : World client) :
  registry_exact w -> registry_exact (after op w).
Proof.
  intros Hw. pose proof (keeps_closed_call op w) as Hclosed.
  pose proof (call_keeps_closedness op w) as Hopen.
  destruct op; cbn [after];
    try (apply call_registry; [| |done]; try done;
         try apply keeps_closed_guarded).
  - pose proof Hw as (Hdup & Hreg).
    unfold _cursor, connection_closed.
    destruct (_is_closed (connection w)) eqn:Hcl; [exact Hw|].
    simpl_world.
    assert (length (store w) ∉ _cursors (connection w)) as Hfresh.
    { rewrite Hreg. intros (self & Hself & _).
      apply lookup_lt_Some in Hself. lia. }
    split.
    + apply NoDup_app. split; [done|]. split; [|apply NoDup_singleton].
      intros c Hc ->%list_elem_of_singleton. done.
    + intros c. rewrite elem_of_app, list_elem_of_singleton, Hreg. split.
      * intros [(self & Hself & Hst)| ->].
        -- exists self. split; [|done]. apply lookup_app_Some. by left.
        -- exists Cursor__init__. split; [|done].
           apply lookup_app_Some. right. split; [done|].
           by rewrite Nat.sub_diag.
      * intros (self & Hself & Hst).
        apply lookup_app_Some in Hself as [Hself|[Hge Hself]].
        -- left. by exists self.
        -- right. apply list_lookup_singleton_Some in Hself as [Hc _]. lia.
  - by apply aclose_registry.
  - unfold commit. by destruct (connection_closed w).
  - by apply close_registry.
  - intros cl self Hst. by unfold on_cursor, modify.
Qed.

Lemma reachable_registry_exact
    (engine_url database api_endpoint : string) (cl : client)
    (ops : list Call) :
  registry_exact
    (after_all ops (Connection__init__ engine_url database api_endpoint cl)).
Proof.
  assert (forall w, registry_exact w -> registry_exact (after_all ops w))
    as Hall.
  { induction ops as [|op ops IH]; intros w Hw; [done|].
    simpl. by apply IH, after_registry. }
  apply Hall. split; simpl.
  - constructor.
  - intros c. split; [by intros ?%not_elem_of_nil|].
    intros (self & Hself & _). by rewrite lookup_nil in Hself.
Qed.


Lemma remove_first_absent (x : nat) (l : list nat) :
  x ∉ l -> remove_first x l = l.
Proof.
  induction l as [|z l IH]; simpl; [done|].
  intros [Hne Hl]%not_elem_of_cons.
  rewrite decide_False by done. by rewrite IH.
Qed.

Lemma init_registered (engine_url database api_endpoint : string)
    (cl : client) :
  registered_or_closed
    (Connection__init__ engine_url database api_endpoint cl).
Proof.
  split; [|split]; simpl.
  - intros c self Hc. by rewrite lookup_nil in Hc.
  - intros c Hc. by apply not_elem_of_nil in Hc.
  - done.
Qed.

(** X13: when the close of the HTTP client raises, the close of a
    connection that was open raises the same, after it has closed every
    cursor and emptied the registry; the connection itself is not marked
    closed, so it still hands out a cursor. *)
Theorem failed_close_leaves_connection_open
    (engine_url database api_endpoint : string) (cl cl' : client)
    (ops : list Call) (e : exn) :
  let w := after_all ops
             (Connection__init__ engine_url database api_endpoint cl) in
  _is_closed (connection w) = false ->
  aclose (client_state w) = (cl', Raise e) ->
  exists w',
    _aclose w = (w', Raise e) /\
    client_state w' = cl' /\
    length (store w') = length (store w) /\
    (forall c self, store w' !! c = Some self -> _state self = CLOSED) /\
    _cursors (connection w') = [] /\
    _is_closed (connection w') = false /\
    (_cursor w').2 = Ok (length (store w)).
Proof.
  intros w Hopen Hfail.
  assert (registered_or_closed w) as Hw
    by apply after_all_registered, init_registered.
  assert (registry_exact w) as Hexact
    by apply reachable_registry_exact.
  pose proof Hw as (Hreg & Hvalid & _).
  pose proof (close_all_registry (_cursors (connection w)) w Hexact) as Hex1.
  destruct (close_all_spec (_cursors (connection w)) w Hvalid)
    as (w1 & Hrun & Hlen & Hclient & Hcl1 & Hsub & Hst).
  rewrite Hrun in Hex1. cbn [fst] in Hex1.
  assert (forall c self', store w1 !! c = Some self' ->
            _state self' = CLOSED) as Hall.
  { intros c self' Hc. destruct (Hst c self' Hc) as [?|[Hnot Hold]]; [done|].
    by destruct (Hreg c self' Hold). }
  assert (_cursors (connection w1) = []) as Hempty.
  { destruct (_cursors (connection w1)) as [|c l] eqn:Hl; [done|].
    destruct Hex1 as [_ Hin]. rewrite Hl in Hin.
    destruct (proj1 (Hin c) (list_elem_of_here _ _)) as (self & Hself & Hne).
    by apply Hall in Hself. }
  exists {| connection := connection w1; store := store w1;
            client_state := cl' |}.
  split; [|simpl; repeat split; try done].
  - unfold _aclose, connection_closed. rewrite Hopen.
    unfold mbind, M_bind. rewrite Hrun. rewrite Hclient, Hfail. done.
  - congruence.
  - unfold _cursor, connection_closed. simpl.
    rewrite Hcl1, Hopen. simpl. by rewrite Hlen.
Qed.

(** X14: the close of a cursor returns, also on a cursor that is closed
    and on a closed connection; it sends nothing, leaves the cursor closed
    and out of the registry, and the other cursors, their place in the
    registry and the connection as they were; a second close changes
    nothing. *)
Theorem cursor_close_twice
    (engine_url database api_endpoint : string) (cl : client)
    (ops : list Call) (c : nat) :
  let w := after_all ops
             (Connection__init__ engine_url database api_endpoint cl) in
  (c < length (store w))%nat ->
  exists w1,
    close c w = (w1, Ok tt) /\
    close c w1 = (w1, Ok tt) /\
    (exists self, store w1 !! c = Some self /\ _state self = CLOSED) /\
    (c ∉ _cursors (connection w1)) /\
    (forall c', c' ≠ c ->
       store w1 !! c' = store w !! c' /\
       (c' ∈ _cursors (connection w1) <-> c' ∈ _cursors (connection w))) /\
    client_state w1 = client_state w /\
    _is_closed (connection w1) = _is_closed (connection w).
Proof.
  intros w Hc.
  assert (registry_exact w) as (Hdup & Hreg)
    by apply reachable_registry_exact.
  destruct (remove_first_NoDup c _ Hdup) as [Hdup' Hin].
  assert (c ∉ remove_first c (_cursors (connection w))) as Hout.
  { rewrite Hin. by intros [_ ?]. }
  destruct (close_spec c w) as [[Hnone _]|(self & Hself & Hrun)].
  { apply lookup_ge_None in Hnone. lia. }
  eexists. split; [exact Hrun|].
  split; [|simpl; repeat split; try done].
  - destruct (close_spec c
                {| connection :=
                     set_cursors (remove_first c (_cursors (connection w)))
                       (connection w);
                   store := <[c:=set_state CLOSED self]> (store w);
                   client_state := client_state w |})
      as [[Hnone _]|(self' & Hself' & ->)]; simpl in *.
    { apply lookup_ge_None in Hnone. rewrite length_insert in Hnone. lia. }
    rewrite list_lookup_insert_eq in Hself' by done.
    injection Hself' as <-.
    rewrite list_insert_insert_eq, remove_first_absent by done. done.
  - exists (set_state CLOSED self). by rewrite list_lookup_insert_eq.
  - by rewrite list_lookup_insert_ne.
  - by intros [? _]%Hin.
  - intros ?. by apply Hin.
Qed.
End RegistryProperties.

(** X13 on a connection with two cursors, one closed before. *)
Lemma failed_close_leaves_connection_open_witness :
  let w := after_all (RT := Fixture.runtime) (TR := refusing_close)
             [call_cursor; call_cursor; call_close 0;
              call_execute 1 "SELECT 2" None None]
             (Connection__init__ "https://engine" "db" "api.app.firebolt.io"
                [Ok (Fixture.ok_response (Fixture.ints 1 [7]))]) in
  exists w',
    _aclose (TR := refusing_close) w
    = (w', Raise (HTTPError "connection reset")) /\
    client_state w' = [] /\
    length (store w') = length (store w) /\
    (forall c self, store w' !! c = Some self -> _state self = CLOSED) /\
    _cursors (connection w') = [] /\
    _is_closed (connection w') = false /\
    (_cursor w').2 = Ok (length (store w)).
Proof.
  exact (failed_close_leaves_connection_open
           (RT := Fixture.runtime) (TR := refusing_close)
           "https://engine" "db" "api.app.firebolt.io"
           [Ok (Fixture.ok_response (Fixture.ints 1 [7]))] []
           [call_cursor; call_cursor; call_close 0;
            call_execute 1 "SELECT 2" None None]
           (HTTPError "connection reset")
           ltac:(vm_compute; reflexivity) ltac:(vm_compute; reflexivity)).
Defined.

(** X14 on the second of two cursors, after a query on it. *)
Lemma cursor_close_twice_witness :
  exists w1,
    close 1 Fixture.two_cursors = (w1, Ok tt) /\
    close 1 w1 = (w1, Ok tt) /\
    (exists self, store w1 !! 1%nat = Some self /\ _state self = CLOSED) /\
    (1%nat ∉ _cursors (connection w1)) /\
    (forall c', c' ≠ 1%nat ->
       store w1 !! c' = store Fixture.two_cursors !! c' /\
       (c' ∈ _cursors (connection w1)
        <-> c' ∈ _cursors (connection Fixture.two_cursors))) /\
    client_state w1 = client_state Fixture.two_cursors /\
    _is_closed (connection w1) = _is_closed (connection Fixture.two_cursors).
Proof.
  exact (cursor_close_twice (RT := Fixture.runtime) (TR := Fixture.transport)
           "https://engine" "db" "api.app.firebolt.io"
           [Ok (Fixture.ok_response (Fixture.ints 1 [7]))]
           [call_cursor; call_cursor; call_close 0;
            call_execute 1 "SELECT 2" None None] 1
           ltac:(vm_compute; lia)).
Defined.

(** ** Responses *)

Section ResponseProperties.
Context {RT : PyRuntime} {client : Type} {TR : Transport client}.

(** X15: the check of a response.  It passes only a response whose status
    is neither 500 nor 403 and that [raise_for_status] accepts, and for the
    statuses 503 and 404 only after the engine has answered that it runs;
    for any other status it asks nothing of the network.  Status 500 raises
    [OperationalError] with the body; status 403 raises
    [FireboltDatabaseError] when the database is not there and
    [ProgrammingError] with the body when it is; status 503 or 404 with an
    engine that does not run raises [EngineNotRunningError]. *)
Theorem raise_if_error_policy (connection : Connection) (resp : Response)
    (cl : client) :
  let code := status_code resp in
  (forall cl',
     _raise_if_error connection resp cl = (cl', Ok tt) ->
     code ≠ 500 /\ code ≠ 403 /\ raise_for_status resp = Ok tt /\
     (code = 503 \/ code = 404 ->
      is_engine_running (engine_url connection) cl = (cl', Ok true)) /\
     (code ≠ 503 -> code ≠ 404 -> cl' = cl)) /\
  (code = 500 ->
     forall body, read_text resp = Ok body ->
       _raise_if_error connection resp cl
       = (cl, Raise (OperationalError
                       ("Error executing query:" +:+ Str.newline +:+ body)))) /\
  (code = 403 ->
     forall cl' available body,
       is_db_available (database connection) cl = (cl', Ok available) ->
       read_text resp = Ok body ->
       _raise_if_error connection resp cl
       = (cl', Raise (if available then ProgrammingError body
                      else FireboltDatabaseError
                             ("Database " +:+ database connection
                              +:+ " does not exist")))) /\
  (code = 503 \/ code = 404 ->
     forall cl',
       is_engine_running (engine_url connection) cl = (cl', Ok false) ->
       _raise_if_error connection resp cl
       = (cl', Raise (EngineNotRunningError
                        ("Firebolt engine " +:+ engine_url connection
                         +:+ " needs to be running to run queries against it.")))) /\
  (code ≠ 500 -> code ≠ 403 -> code ≠ 503 -> code ≠ 404 ->
     _raise_if_error connection resp cl = (cl, raise_for_status resp)).
Proof.
  intros code. subst code.
  unfold _raise_if_error, codes.INTERNAL_SERVER_ERROR,
    codes.FORBIDDEN, codes.SERVICE_UNAVAILABLE, codes.NOT_FOUND.
  split; [|split; [|split; [|split]]].
  - intros cl'. unfold_M.
    destruct (decide (status_code resp = 500)) as [H500|H500].
    { rewrite H500. simpl. by destruct (read_text resp). }
    rewrite (bool_decide_eq_false_2 (status_code resp = 500)) by done.
    destruct (decide (status_code resp = 403)) as [H403|H403].
    { rewrite H403. simpl.
      destruct (is_db_available _ cl) as [cl1 [[]|e]]; simpl; try done.
      by destruct (read_text resp). }
    rewrite (bool_decide_eq_false_2 (status_code resp = 403)) by done.
    simpl.
    destruct (bool_decide (status_code resp = 503)
              || bool_decide (status_code resp = 404)) eqn:Hcode.
    + destruct (is_engine_running _ cl) as [cl1 [[]|e]] eqn:Hprobe; simpl;
        try done.
      destruct (raise_for_status resp) as [[]|]; [|done].
      intros [= <-]. repeat split; try done.
      intros H503 H404.
      by rewrite !bool_decide_eq_false_2 in Hcode by done.
    + apply orb_false_iff in Hcode as [H503%bool_decide_eq_false
                                        H404%bool_decide_eq_false].
      destruct (raise_for_status resp) as [[]|]; [|done].
      intros [= <-]. repeat split; try done. by intros [?|?].
  - intros H500 body Hbody. unfold_M. rewrite H500. simpl. by rewrite Hbody.
  - intros H403 cl' available body Hprobe Hbody. unfold_M.
    rewrite H403. simpl. rewrite Hprobe.
    destruct available; simpl; [by rewrite Hbody|done].
  - intros Hcode cl' Hprobe. unfold_M.
    destruct Hcode as [Hcode|Hcode]; rewrite Hcode; simpl;
      by rewrite Hprobe.
  - intros H500 H403 H503 H404. unfold_M.
    rewrite !bool_decide_eq_false_2 by done. simpl.
    by destruct (raise_for_status resp) as [[]|].
Qed.

Lemma invalid_query_data_raises {A} (r : result A) (e : exn) :
  invalid_query_data r = Raise e ->
  (forall key, e ≠ KeyError key) /\ (forall msg, e ≠ ValueError msg).
Proof.
  destruct r as [a|[]]; simpl; intros [= <-]; by split.
Qed.

(** X16: [_append_query_data] buffers one row set or nothing.  When it
    returns, one set has been appended, with descriptions and rows or with
    neither, [(-1, None, None)] for an empty body; the state is kept, and a
    cursor that has an active set keeps it.  When it raises, the body was not
    empty, the cursor is as it was, and the exception is no [KeyError] and no
    [ValueError]: a body without ["rows"] gives [DataError] "Invalid query
    data format: 'rows'". *)
Theorem append_query_data_outcomes (response : Response) (self : Cursor) :
  match _append_query_data response self with
  | (self', Ok _) =>
      exists row_set,
        _row_sets self' = _row_sets self ++ [row_set] /\
        paired row_set /\
        (content_length response = Some "0" -> row_set = (-1, None, None)) /\
        _state self' = _state self /\
        (_next_set_idx self ≠ 0%nat -> self' = append_row_set row_set self)
  | (self', Raise e) =>
      self' = self /\
      content_length response ≠ Some "0" /\
      (forall key, e ≠ KeyError key) /\ (forall msg, e ≠ ValueError msg) /\
      (forall data, json response = Ok data -> qd_rows data = None ->
         e = DataError "Invalid query data format: 'rows'")
  end.
Proof.
  pose proof (response_row_set_paired response) as Hpaired.
  unfold _append_query_data. unfold response_row_set in Hpaired.
  destruct (bool_decide (default "" (content_length response) ≠ "0"))
    eqn:Hlen.
  - apply bool_decide_eq_true in Hlen. unfold_M.
    destruct (invalid_query_data (decode_row_set response))
      as [row_set|e] eqn:Hdecode.
    + simpl. destruct (bool_decide (_next_set_idx self = 0%nat)) eqn:Hidx.
      * apply bool_decide_eq_true in Hidx. unfold _pop_next_set. simpl.
        rewrite Hidx, length_app. simpl.
        rewrite bool_decide_eq_false_2 by lia.
        destruct (_row_sets self) as [|first rest] eqn:Hsets; simpl;
          rewrite Hsets; exists row_set;
          (repeat split; try done; try by apply Hpaired);
          intros Hc; by rewrite Hc in Hlen.
      * apply bool_decide_eq_false in Hidx. simpl.
        exists row_set. repeat split; try done; try by apply Hpaired.
        intros Hc. by rewrite Hc in Hlen.
    + simpl. split; [done|]. split; [by intros Hc; rewrite Hc in Hlen|].
      destruct (invalid_query_data_raises _ _ Hdecode) as [Hk Hv].
      split; [done|]. split; [done|].
      intros data Hjson Hrows. unfold decode_row_set in Hdecode.
      rewrite Hjson in Hdecode. simpl in Hdecode. rewrite Hrows in Hdecode.
      simpl in Hdecode. by injection Hdecode as <-.
  - apply bool_decide_eq_false in Hlen. apply dec_stable in Hlen.
    unfold_M. simpl.
    destruct (bool_decide (_next_set_idx self = 0%nat)) eqn:Hidx.
    + apply bool_decide_eq_true in Hidx. unfold _pop_next_set. simpl.
      rewrite Hidx, length_app. simpl.
      rewrite bool_decide_eq_false_2 by lia.
      destruct (_row_sets self) as [|first rest] eqn:Hsets; simpl;
        rewrite Hsets; exists (-1, None, None); repeat split; done.
    + apply bool_decide_eq_false in Hidx. simpl.
      exists (-1, None, None). repeat split; done.
Qed.
End ResponseProperties.

(** X15 on a response with status 500. *)
Lemma raise_if_error_policy_witness :
  _raise_if_error (TR := Fixture.transport) Fixture.conn
    (Fixture.internal_error "boom") []
  = ([], Raise (OperationalError
                  ("Error executing query:" +:+ Str.newline +:+ "boom"))).
Proof.
  destruct (raise_if_error_policy (TR := Fixture.transport) Fixture.conn
              (Fixture.internal_error "boom") []) as (_ & H500 & _).
  exact (H500 eq_refl "boom" eq_refl).
Defined.

(** X16 on a body without ["rows"]. *)
Lemma append_query_data_outcomes_witness :
  let response :=
    Fixture.ok_response
      {| qd_rows := None; qd_meta := Some []; qd_data := Some [] |} in
  (_append_query_data (RT := Fixture.runtime) response
     (loaded 1 NONE [Fixture.one_row])).1
  = loaded 1 NONE [Fixture.one_row] /\
  (_append_query_data (RT := Fixture.runtime) response
     (loaded 1 NONE [Fixture.one_row])).2
  = Raise (DataError "Invalid query data format: 'rows'").
Proof.
  intros response.
  pose proof (append_query_data_outcomes (RT := Fixture.runtime) response
                (loaded 1 NONE [Fixture.one_row])) as Hout.
  destruct (_append_query_data response (loaded 1 NONE [Fixture.one_row]))
    as [self' [[]|e]] eqn:Hrun.
  - exfalso. vm_compute in Hrun. discriminate.
  - destruct Hout as (-> & _ & _ & _ & Hrows). split; [reflexivity|].
    simpl. f_equal. exact (Hrows _ eq_refl eq_refl).
Defined.

(** ** What holds of every cursor *)

Section ReachableCursors.
Context {RT : PyRuntime} {client : Type} {TR : Transport client}.

Lemma call_store {A} (c : nat) (m : M (client * Cursor) A) (w : World client)
    (P : Cursor -> Prop) :
  (forall cl self, P self -> P (m (cl, self)).1.2) ->
  (forall c' self, store w !! c' = Some self -> P self) ->
  forall c' self, store (call c m w).1 !! c' = Some self -> P self.
Proof.
  intros Hm Hw c' self'.
  destruct (call_spec c m w) as [[_ ->]|(self & Hself & ->)]; [apply Hw|].
  cbn [fst store]. destruct (decide (c = c')) as [<-|Hne].
  - rewrite list_lookup_insert_eq by by eapply lookup_lt_Some.
    intros [= <-]. by eapply Hm, Hw.
  - rewrite list_lookup_insert_ne by done. apply Hw.
Qed.

Lemma close_store (c : nat) (w : World client) (P : Cursor -> Prop) :
  (forall self, P self -> P (set_state CLOSED self)) ->
  (forall c' self, store w !! c' = Some self -> P self) ->
  forall c' self, store (close c w).1 !! c' = Some self -> P self.
Proof.
  intros Hm Hw c' self'.
  destruct (close_spec c w) as [[_ ->]|(self & Hself & ->)]; [apply Hw|].
  cbn [fst store]. destruct (decide (c = c')) as [<-|Hne].
  - rewrite list_lookup_insert_eq by by eapply lookup_lt_Some.
    intros [= <-]. by eapply Hm, Hw.
  - rewrite list_lookup_insert_ne by done. apply Hw.
Qed.

Lemma close_all_store (cursors : list nat) (w : World client)
    (P : Cursor -> Prop) :
  (forall self, P self -> P (set_state CLOSED self)) ->
  (forall c' self, store w !! c' = Some self -> P self) ->
  forall c' self, store (close_all cursors w).1 !! c' = Some self -> P self.
Proof.
  intros Hm. revert w. induction cursors as [|c cursors IH]; intros w Hw;
    [done|].
  cbn [close_all]. unfold mbind, M_bind.
  pose proof (close_store c w P Hm Hw) as Hw1.
  destruct (close_spec c w) as [[_ Heq]|(self & Hself & Heq)];
    rewrite Heq in *; [done|].
  cbn [fst] in Hw1. by apply IH.
Qed.

Lemma aclose_store (w : World client) (P : Cursor -> Prop) :
  (forall self, P self -> P (set_state CLOSED self)) ->
  (forall c' self, store w !! c' = Some self -> P self) ->
  forall c' self, store (_aclose w).1 !! c' = Some self -> P self.
Proof.
  intros Hm Hw. unfold _aclose. destruct (connection_closed w); [done|].
  unfold mbind, M_bind.
  pose proof (close_all_store (_cursors (connection w)) w P Hm Hw) as Hw1.
  destruct (close_all _ w) as [w1 [[]|e]]; [|done].
  cbn [fst] in Hw1.
  destruct (aclose (client_state w1)) as [cl [[]|e]]; exact Hw1.
Qed.

(** A property of cursors that the creation of a cursor gives and every
    method keeps holds of every cursor of a connection, whatever has been
    called. *)
Lemma reachable_cursors (P : Cursor -> Prop) :
  P Cursor__init__ ->
  (forall self, P self -> P (set_state CLOSED self)) ->
  (forall value self, P self -> P (set_arraysize value self)) ->
  (forall connection query parameters set_parameters (cl : client) self,
     P self ->
     P (execute connection query parameters set_parameters (cl, self)).1.2) ->
  (forall connection query parameters_seq (cl : client) self,
     P self ->
     P (executemany connection query parameters_seq (cl, self)).1.2) ->
  (forall self, P self -> P (nextset self).1) ->
  (forall self, P self -> P (fetchone self).1) ->
  (forall size self, P self -> P (fetchmany size self).1) ->
  (forall self, P self -> P (fetchall self).1) ->
  forall engine_url database api_endpoint (cl : client) ops c self,
    store (after_all ops
             (Connection__init__ engine_url database api_endpoint cl)) !! c
    = Some self ->
    P self.
Proof.
  intros Hinit Hclose Hsize Hexec Hmany Hnext Hone Hfetch Hall
    engine_url database api_endpoint cl ops.
  assert (forall w : World client,
            (forall c self, store w !! c = Some self -> P self) ->
            forall c self, store (after_all ops w) !! c = Some self -> P self)
    as Hstep.
  { induction ops as [|op ops IH]; intros w Hw; [done|].
    simpl. apply IH. clear IH.
    destruct op; cbn [after];
      try (apply call_store; [|done]; intros cl' self' Hself;
           rewrite ?on_cursor_fst; eauto; fail).
    - unfold _cursor. destruct (connection_closed w); [done|].
      cbn [fst store]. intros c self Hc.
      apply lookup_app_Some in Hc as [Hc|[_ Hc]]; [by eapply Hw|].
      apply list_lookup_singleton_Some in Hc as [_ <-]. done.
    - by apply aclose_store.
    - unfold commit. by destruct (connection_closed w).
    - by apply close_store.
    - apply call_store; [|done]. intros cl' self' Hself.
      unfold on_cursor, modify. simpl. by apply Hsize. }
  apply Hstep. intros c self Hc. simpl in Hc. by rewrite lookup_nil in Hc.
Qed.

Lemma get_next_range_moves (size : Z) (self : Cursor) :
  exists i, (_get_next_range size self).1 = set_idx i self.
Proof.
  unfold _get_next_range. destruct (_rows self); simpl; [by eexists|].
  exists (_idx self). by rewrite set_idx_same.
Qed.

Lemma fetch_body_moves (size : Z) (self : Cursor) :
  exists i,
    ((range ← _get_next_range size; rows ← rows_not_None;
      _parse_rows (Py.slice rows range.1 range.2)) self).1 = set_idx i self.
Proof.
  unfold _get_next_range, rows_not_None. unfold_M.
  destruct (_rows self) as [rows|] eqn:Hrows; simpl.
  - rewrite Hrows.
    match goal with |- context [_parse_rows ?l ?c] =>
      pose proof (parse_rows_cursor l c) as Hc;
      destruct (_parse_rows l c) as [c' r] end.
    simpl in *. subst c'. by eexists.
  - exists (_idx self). by rewrite set_idx_same.
Qed.

Lemma guards_moves {A} (func_name : string) (m : M Cursor A) (self : Cursor) :
  (exists i, (m self).1 = set_idx i self) ->
  exists i,
    (check_not_closed func_name (check_query_executed func_name m) self).1
    = set_idx i self.
Proof.
  intros Hm. unfold check_not_closed, check_query_executed, cursor_of,
    Cursor_HasCursor.
  destruct (closed self); [exists (_idx self); by rewrite set_idx_same|].
  destruct (bool_decide (_state self = NONE));
    [exists (_idx self); by rewrite set_idx_same|done].
Qed.

Lemma fetchone_moves (self : Cursor) :
  exists i, (fetchone self).1 = set_idx i self.
Proof.
  apply guards_moves. unfold _get_next_range, rows_not_None. unfold_M.
  destruct (_rows self) as [rows|] eqn:Hrows; simpl;
    [|exists (_idx self); by rewrite set_idx_same].
  destruct (bool_decide (_idx self = _)); simpl; [by eexists|].
  rewrite Hrows.
  destruct (Py.getitem rows (_idx self)); simpl; [|by eexists].
  match goal with |- context [_parse_row ?r ?c] =>
    pose proof (parse_row_cursor r c) as Hrow;
    destruct (_parse_row r c) as [c' [?|?]] end;
    simpl in *; subst c'; by eexists.
Qed.

Lemma fetchmany_moves (size : option Z) (self : Cursor) :
  exists i, (fetchmany size self).1 = set_idx i self.
Proof.
  apply guards_moves. destruct size as [n|].
  - apply (fetch_body_moves n).
  - apply (fetch_body_moves (_arraysize self)).
Qed.

Lemma fetchall_moves (self : Cursor) :
  exists i, (fetchall self).1 = set_idx i self.
Proof.
  unfold fetchall. apply guards_moves. unfold rowcount, check_not_closed,
    cursor_of, Cursor_HasCursor.
  unfold mbind at 1. unfold M_bind at 1.
  destruct (closed self); [exists (_idx self); by rewrite set_idx_same|].
  apply (fetch_body_moves (_rowcount self)).
Qed.

Lemma execute_not_NONE (connection : Connection) (query : string)
    (parameters : option (list ParameterType))
    (set_parameters : option (gmap string string))
    (cl : client) (self : Cursor) :
  _state (execute connection query parameters set_parameters (cl, self)).1.2
  ≠ NONE.
Proof.
  destruct (closed self) eqn:Hclosed.
  - apply bool_decide_eq_true in Hclosed.
    rewrite execute_closed by done. simpl. by rewrite Hclosed.
  - rewrite execute_unfold by done.
    destruct (split_format_sql _ _); [|done].
    destruct (collect _ _ _ cl) as [cl2 [sets [[]|?]]]; simpl;
      by rewrite loaded_state.
Qed.

Lemma executemany_closed (connection : Connection) (query : string)
    (parameters_seq : list (list ParameterType))
    (cl : client) (self : Cursor) :
  _state self = CLOSED ->
  executemany connection query parameters_seq (cl, self)
  = ((cl, self), Raise (CursorClosedError "executemany")).
Proof.
  intros Hst. unfold executemany, check_not_closed, cursor_of,
    pair_HasCursor, closed. simpl. by rewrite bool_decide_eq_true_2.
Qed.

Lemma executemany_not_NONE (connection : Connection) (query : string)
    (parameters_seq : list (list ParameterType))
    (cl : client) (self : Cursor) :
  _state (executemany connection query parameters_seq (cl, self)).1.2 ≠ NONE.
Proof.
  destruct (closed self) eqn:Hclosed.
  - apply bool_decide_eq_true in Hclosed.
    rewrite executemany_closed by done. simpl. by rewrite Hclosed.
  - rewrite executemany_unfold by done.
    destruct (split_format_sql _ _); [|done].
    destruct (collect _ _ _ cl) as [cl2 [sets [[]|?]]]; simpl;
      by rewrite loaded_state.
Qed.

Lemma guarded_unexecuted {A} (func_name : string) (m : M Cursor A)
    (self : Cursor) :
  let guarded :=
    check_not_closed func_name (check_query_executed func_name m) in
  _state (guarded self).1 = _state self ->
  (_state self = NONE -> self = unexecuted (_arraysize self)) ->
  _state (guarded self).1 = NONE ->
  (guarded self).1 = unexecuted (_arraysize (guarded self).1).
Proof.
  intros guarded Hkeep Hself Hst. rewrite Hkeep in Hst.
  unfold guarded. rewrite guards_return by by right. by apply Hself.
Qed.

(** X17: after any calls on a connection and on its cursors, a cursor in
    state [NONE] is as it was created, but for its [arraysize]: no query has
    left anything in it.  Its description is [None], its row count [-1], and
    every fetch and [nextset] raise [QueryNotRunError] with the name of the
    method and change nothing. *)
Theorem unexecuted_cursor_holds_nothing
    (engine_url database api_endpoint : string) (cl : client)
    (ops : list Call) (c : nat) (self : Cursor) :
  store (after_all ops
           (Connection__init__ engine_url database api_endpoint cl)) !! c
  = Some self ->
  _state self = NONE ->
  self = unexecuted (_arraysize self) /\
  description self = (self, Ok None) /\
  rowcount self = (self, Ok (-1)) /\
  fetchone self = (self, Raise (QueryNotRunError "fetchone")) /\
  (forall size,
     fetchmany size self = (self, Raise (QueryNotRunError "fetchmany"))) /\
  fetchall self = (self, Raise (QueryNotRunError "fetchall")) /\
  nextset self = (self, Raise (QueryNotRunError "nextset")).
Proof.
  intros Hc Hst.
  assert (self = unexecuted (_arraysize self)) as Hself.
  { revert Hst. revert Hc.
    apply (reachable_cursors
             (fun self => _state self = NONE ->
                          self = unexecuted (_arraysize self))).
    - done.
    - done.
    - intros value self' Hself' Hst. simpl in Hst.
      by rewrite (Hself' Hst).
    - intros connection query parameters set_parameters cl' self' _ Hst.
      by apply execute_not_NONE in Hst.
    - intros connection query parameters_seq cl' self' _ Hst.
      by apply executemany_not_NONE in Hst.
    - intros self'. apply guarded_unexecuted, nextset_keeps_state.
    - intros self'. apply guarded_unexecuted, fetchone_keeps_state.
    - intros size self'.
      apply (guarded_unexecuted "fetchmany"), (fetchmany_keeps_state size).
    - intros self'. apply guarded_unexecuted, fetchall_keeps_state. }
  split; [done|].
  unfold description, rowcount, fetchone, fetchmany, fetchall, nextset,
    check_not_closed, check_query_executed, cursor_of, Cursor_HasCursor,
    closed.
  rewrite Hst. simpl. rewrite Hself. by repeat split.
Qed.

Lemma active_set_idx (i : Z) (self : Cursor) :
  active_is_buffered self -> active_is_buffered (set_idx i self).
Proof. done. Qed.

Lemma active_moves (self self' : Cursor) :
  (exists i, self' = set_idx i self) ->
  active_is_buffered self -> active_is_buffered self'.
Proof. by intros [i ->]. Qed.

Lemma loaded_active (a : Z) (st : CursorState) (sets : list RowSet) :
  Forall paired sets -> active_is_buffered (loaded a st sets).
Proof.
  intros Hsets. destruct sets as [|[[count descr] rows] rest];
    split; simpl; done.
Qed.

Lemma pop_next_set_active (self : Cursor) :
  active_is_buffered self -> active_is_buffered (_pop_next_set self).1.
Proof.
  intros Hself. unfold _pop_next_set.
  destruct (bool_decide (_ ≤ _)%nat); [done|].
  destruct (_row_sets self !! _next_set_idx self) as [[[count descr] rows]|]
    eqn:Hnext; [|done].
  destruct Hself as [Hpaired _]. split; simpl; done.
Qed.

Lemma execute_active (connection : Connection) (query : string)
    (parameters : option (list ParameterType))
    (set_parameters : option (gmap string string))
    (cl : client) (self : Cursor) :
  active_is_buffered self ->
  active_is_buffered
    (execute connection query parameters set_parameters (cl, self)).1.2.
Proof.
  intros Hself. destruct (closed self) eqn:Hclosed.
  - apply bool_decide_eq_true in Hclosed. by rewrite execute_closed.
  - rewrite execute_unfold by done.
    destruct (split_format_sql _ _); [|by apply loaded_active].
    destruct (collect _ _ _ cl) as [cl2 [sets r]] eqn:Hcollect.
    apply collect_paired in Hcollect.
    destruct r as [[]|?]; by apply loaded_active.
Qed.

Lemma executemany_active (connection : Connection) (query : string)
    (parameters_seq : list (list ParameterType))
    (cl : client) (self : Cursor) :
  active_is_buffered self ->
  active_is_buffered
    (executemany connection query parameters_seq (cl, self)).1.2.
Proof.
  intros Hself. destruct (closed self) eqn:Hclosed.
  - apply bool_decide_eq_true in Hclosed. by rewrite executemany_closed.
  - rewrite executemany_unfold by done.
    destruct (split_format_sql _ _); [|by apply loaded_active].
    destruct (collect _ _ _ cl) as [cl2 [sets r]] eqn:Hcollect.
    apply collect_paired in Hcollect.
    destruct r as [[]|?]; by apply loaded_active.
Qed.

(** X18: after any calls on a connection and on its cursors, the active set
    of a cursor is the buffered set before [_next_set_idx], or there is none
    and nothing is buffered; the descriptions are [None] exactly when the
    rows are; and on an executed, open cursor whose description is [None]
    every fetch raises [DataError] "no rows to fetch" and changes nothing. *)
Theorem active_set_is_buffered
    (engine_url database api_endpoint : string) (cl : client)
    (ops : list Call) (c : nat) (self : Cursor) :
  store (after_all ops
           (Connection__init__ engine_url database api_endpoint cl)) !! c
  = Some self ->
  active_is_buffered self /\
  (_descriptions self = None <-> _rows self = None) /\
  (executed_open self -> _descriptions self = None ->
     fetchone self = (self, Raise (DataError "no rows to fetch")) /\
     (forall size,
        fetchmany size self = (self, Raise (DataError "no rows to fetch"))) /\
     fetchall self = (self, Raise (DataError "no rows to fetch"))).
Proof.
  intros Hc.
  assert (active_is_buffered self) as Hself.
  { revert Hc. apply (reachable_cursors active_is_buffered).
    - by split.
    - done.
    - done.
    - intros. by apply execute_active.
    - intros. by apply executemany_active.
    - intros self' Hself'. unfold nextset, check_not_closed,
        check_query_executed, cursor_of, Cursor_HasCursor.
      destruct (closed self'); [done|].
      destruct (bool_decide (_state self' = NONE)); [done|].
      by apply pop_next_set_active.
    - intros self'. apply active_moves, fetchone_moves.
    - intros size self'. apply active_moves, fetchmany_moves.
    - intros self'. apply active_moves, fetchall_moves. }
  assert (_descriptions self = None <-> _rows self = None) as Hboth.
  { destruct Hself as [Hpaired Hactive].
    destruct (_next_set_idx self) as [|k].
    - destruct Hactive as (_ & _ & -> & ->). done.
    - rewrite Forall_forall in Hpaired.
      apply (Hpaired _ (list_elem_of_lookup_2 _ _ _ Hactive)). }
  split; [done|]. split; [done|].
  intros Hopen Hnone. apply Hboth in Hnone.
  destruct (executed_open_not_closed _ Hopen) as [Hclosed Hrun].
  unfold fetchone, fetchmany, fetchall, rowcount, arraysize,
    check_not_closed, check_query_executed, cursor_of, Cursor_HasCursor,
    _get_next_range.
  rewrite Hclosed. rewrite (bool_decide_eq_false_2 (_state self = NONE)) by done.
  unfold_M. rewrite Hclosed, Hnone. repeat split; try done.
  intros [n|]; simpl; by rewrite Hnone.
Qed.
End ReachableCursors.

(** X17 on a cursor whose [arraysize] has been set to 5. *)
Lemma unexecuted_cursor_holds_nothing_witness :
  unexecuted (H := Fixture.runtime) 5
  = unexecuted (H := Fixture.runtime)
      (_arraysize (unexecuted (H := Fixture.runtime) 5)) /\
  description (unexecuted (H := Fixture.runtime) 5)
  = (unexecuted (H := Fixture.runtime) 5, Ok None) /\
  rowcount (unexecuted (H := Fixture.runtime) 5)
  = (unexecuted (H := Fixture.runtime) 5, Ok (-1)) /\
  fetchone (RT := Fixture.runtime) (unexecuted (H := Fixture.runtime) 5)
  = (unexecuted (H := Fixture.runtime) 5,
     Raise (QueryNotRunError "fetchone")) /\
  (forall size,
     fetchmany (RT := Fixture.runtime) size
       (unexecuted (H := Fixture.runtime) 5)
     = (unexecuted (H := Fixture.runtime) 5,
        Raise (QueryNotRunError "fetchmany"))) /\
  fetchall (RT := Fixture.runtime) (unexecuted (H := Fixture.runtime) 5)
  = (unexecuted (H := Fixture.runtime) 5,
     Raise (QueryNotRunError "fetchall")) /\
  nextset (unexecuted (H := Fixture.runtime) 5)
  = (unexecuted (H := Fixture.runtime) 5,
     Raise (QueryNotRunError "nextset")).
Proof.
  exact (unexecuted_cursor_holds_nothing
           (RT := Fixture.runtime) (TR := Fixture.transport)
           "https://engine" "db" "api.app.firebolt.io" []
           [call_cursor; call_set_arraysize 0 5] 0
           (unexecuted (H := Fixture.runtime) 5) eq_refl eq_refl).
Defined.

(** X18 on the second of two cursors, after a query on it. *)
Lemma active_set_is_buffered_witness :
  let self := loaded 1 DONE [Fixture.one_row] in
  active_is_buffered self /\
  (_descriptions self = None <-> _rows self = None) /\
  (executed_open self -> _descriptions self = None ->
     fetchone (RT := Fixture.runtime) self
     = (self, Raise (DataError "no rows to fetch")) /\
     (forall size,
        fetchmany (RT := Fixture.runtime) size self
        = (self, Raise (DataError "no rows to fetch"))) /\
     fetchall (RT := Fixture.runtime) self
     = (self, Raise (DataError "no rows to fetch"))).
Proof.
  exact (active_set_is_buffered
           (RT := Fixture.runtime) (TR := Fixture.transport)
           "https://engine" "db" "api.app.firebolt.io"
           [Ok (Fixture.ok_response (Fixture.ints 1 [7]))]
           [call_cursor; call_cursor; call_close 0;
            call_execute 1 "SELECT 2" None None] 1
           (loaded 1 DONE [Fixture.one_row])
           ltac:(vm_compute; reflexivity)).
Defined.

(** ** The types of fetched values *)

Section TypedRows.
Context {RT : PyRuntime}.

Lemma parse_value_has_type (ctype : coltype) (value : RawValue)
    (parsed : ColValue) :
  parse_value value ctype = Ok parsed -> has_type parsed ctype = true.
Proof.
  revert value parsed.
  induction ctype as [t|subtype IH]; intros value parsed.
  - destruct value, t; simpl; try done; try (by intros [= <-]);
      unfold mbind, result_bind; intros Hrun;
      repeat case_match; by simplify_eq.
  - destruct value as [| | | | |items]; try (by intros [= <-]); try done.
    simpl. destruct (traverse _ items) as [its|] eqn:Hits; simpl; [|done].
    intros [= <-]. simpl. apply traverse_Forall2 in Hits.
    induction Hits as [|raw item raws its' Hitem _ IHits]; simpl; [done|].
    apply andb_true_iff. split; [by eapply IH|done].
Qed.

(** X19: a value [parse_value] returns is of the type code it was parsed
    for: [None], or a value of the class of the code, or for [ARRAY] a list
    whose items, at every depth, are of the subtype; and it is [None] for a
    [null] only. *)
Theorem parse_value_typed (ctype : coltype) (value : RawValue)
    (parsed : ColValue) :
  parse_value value ctype = Ok parsed ->
  has_type parsed ctype = true /\ (parsed = CNone <-> value = RNone).
Proof.
  intros Hrun. split; [by eapply parse_value_has_type|].
  split.
  - intros ->. destruct value; [done|..]; exfalso;
      destruct ctype as [[]|subtype]; simpl in Hrun;
      unfold mbind, result_bind in Hrun; repeat case_match; by simplify_eq.
  - intros ->. destruct ctype; by injection Hrun as <-.
Qed.

Lemma parse_row_with_typed (cols : list Column) (row : Row)
    (parsed : list ColValue) :
  parse_row_with (Some cols) row = Ok parsed -> row_typed cols parsed.
Proof.
  unfold parse_row_with. case_bool_decide as Hlen; [|done].
  intros Hrun. pose proof (traverse_length _ _ _ Hrun) as Hlen'.
  unfold Py.enumerate in *. rewrite length_imap in Hlen'.
  apply Forall2_same_length_lookup_2; [congruence|].
  intros i col value Hcol Hvalue.
  destruct (lookup_lt_is_Some_2 row i) as [raw Hraw].
  { apply lookup_lt_Some in Hvalue. lia. }
  destruct (traverse_lookup _ _ _ i (i, raw) Hrun) as (value' & Hparse & Hi).
  { by rewrite list_lookup_imap, Hraw. }
  simpl in Hparse. rewrite Hcol in Hparse.
  assert (value' = value) as -> by congruence.
  by eapply parse_value_has_type.
Qed.

Lemma parse_row_typed (row : Row) (self self' : Cursor) (cols : list Column)
    (parsed : list ColValue) :
  _descriptions self = Some cols ->
  _parse_row row self = (self', Ok parsed) -> row_typed cols parsed.
Proof.
  intros Hcols. destruct (closed self) eqn:Hclosed.
  - unfold _parse_row, description, check_not_closed, cursor_of,
      Cursor_HasCursor. unfold_M. by rewrite Hclosed.
  - rewrite parse_row_pure by done. rewrite Hcols. intros [= _ Hrun].
    by eapply parse_row_with_typed.
Qed.

Lemma parse_rows_typed (rows : list Row) (self self' : Cursor)
    (cols : list Column) (out : list (list ColValue)) :
  _descriptions self = Some cols ->
  _parse_rows rows self = (self', Ok out) -> Forall (row_typed cols) out.
Proof.
  intros Hcols. revert self' out.
  induction rows as [|row rows IH]; intros self' out.
  - intros [= <- <-]. constructor.
  - cbn [_parse_rows]. unfold mbind, M_bind.
    pose proof (parse_row_cursor row self) as Hrow.
    destruct (_parse_row row self) as [self1 [r|e]] eqn:Hparse;
      simpl in Hrow; subst; [|done].
    destruct (_parse_rows rows self) as [self2 [rs|e]] eqn:Hrest; [|done].
    intros [= <- <-]. constructor; [by eapply parse_row_typed|by eapply IH].
Qed.

Lemma fetch_body_typed (size : Z) (self self' : Cursor) (cols : list Column)
    (out : list (list ColValue)) :
  _descriptions self = Some cols ->
  (range ← _get_next_range size; rows ← rows_not_None;
   _parse_rows (Py.slice rows range.1 range.2)) self = (self', Ok out) ->
  Forall (row_typed cols) out.
Proof.
  intros Hcols. unfold _get_next_range, rows_not_None. unfold_M.
  destruct (_rows self) as [rows|] eqn:Hrows; simpl; [|done].
  rewrite Hrows. by apply parse_rows_typed.
Qed.

(** X20: on a cursor with a description, every row that [fetchone],
    [fetchmany] and [fetchall] return has one value for each column of the
    description, in order, each [None] or of the type code of its column. *)
Theorem fetched_rows_match_description (self : Cursor) (cols : list Column) :
  _descriptions self = Some cols ->
  (forall self' row,
     fetchone self = (self', Ok (Some row)) -> row_typed cols row) /\
  (forall size self' out,
     fetchmany size self = (self', Ok out) -> Forall (row_typed cols) out) /\
  (forall self' out,
     fetchall self = (self', Ok out) -> Forall (row_typed cols) out).
Proof.
  intros Hcols. split; [|split].
  - intros self' row. unfold fetchone, check_not_closed,
      check_query_executed, cursor_of, Cursor_HasCursor.
    destruct (closed self); [done|].
    destruct (bool_decide (_state self = NONE)); [done|].
    unfold _get_next_range, rows_not_None. unfold_M.
    destruct (_rows self) as [rows|] eqn:Hrows; simpl; [|done].
    destruct (bool_decide (_idx self = _)); simpl; [done|].
    rewrite Hrows.
    destruct (Py.getitem rows (_idx self)) as [raw|]; simpl; [|done].
    destruct (_parse_row raw _) as [self1 [parsed|e]] eqn:Hparse; [|done].
    intros [= _ <-]. by eapply parse_row_typed in Hparse.
  - intros size self' out. unfold fetchmany, check_not_closed,
      check_query_executed, cursor_of, Cursor_HasCursor.
    destruct (closed self); [done|].
    destruct (bool_decide (_state self = NONE)); [done|].
    destruct size as [n|]; by apply fetch_body_typed.
  - intros self' out. unfold fetchall, rowcount, check_not_closed,
      check_query_executed, cursor_of, Cursor_HasCursor.
    destruct (closed self) eqn:Hclosed; [done|].
    destruct (bool_decide (_state self = NONE)); [done|].
    unfold mbind at 1. unfold M_bind at 1. rewrite Hclosed.
    by apply fetch_body_typed.
Qed.
End TypedRows.

(** X19 on a list with an integer and a [null]. *)
Lemma parse_value_typed_witness :
  has_type (CList [CInt 1; CNone]) (ARRAY (Class py_int)) = true /\
  (CList [CInt 1; CNone] = CNone <-> RList [RInt 1; RNone] = RNone).
Proof.
  exact (parse_value_typed (RT := Fixture.runtime) (ARRAY (Class py_int))
           (RList [RInt 1; RNone]) (CList [CInt 1; CNone]) eq_refl).
Defined.

(** X20 on a cursor with three rows of one integer column. *)
Lemma fetched_rows_match_description_witness :
  let self := loaded 1 DONE [Fixture.three_rows] in
  (forall self' row,
     fetchone (RT := Fixture.runtime) self = (self', Ok (Some row)) ->
     row_typed Fixture.int_column row) /\
  (forall size self' out,
     fetchmany (RT := Fixture.runtime) size self = (self', Ok out) ->
     Forall (row_typed Fixture.int_column) out) /\
  (forall self' out,
     fetchall (RT := Fixture.runtime) self = (self', Ok out) ->
     Forall (row_typed Fixture.int_column) out).
Proof.
  exact (fetched_rows_match_description (RT := Fixture.runtime)
           (loaded 1 DONE [Fixture.three_rows]) Fixture.int_column eq_refl).
Defined.

(** ** Literals and type codes *)

Lemma ParameterType_ind' (P : ParameterType -> Prop)
    (Hbool : forall b, P (PBool b)) (Hint : forall z, P (PInt z))
    (Hfloat : forall f, P (PFloat f)) (Hdecimal : forall d, P (PDecimal d))
    (Hstr : forall s, P (PStr s)) (Hdatetime : forall dt, P (PDatetime dt))
    (Hdate : forall d, P (PDate d)) (Hnone : P PNone)
    (Hseq : forall items, Forall P items -> P (PSeq items))
    (Hobject : forall type_str, P (PObject type_str)) :
  forall value, P value.
Proof.
  fix IH 1. intros [b|z|f|d|s|dt|d| |items|type_str];
    [apply Hbool|apply Hint|apply Hfloat|apply Hdecimal|apply Hstr
    |apply Hdatetime|apply Hdate|apply Hnone| |apply Hobject].
  apply Hseq. induction items as [|t ts IHts]; constructor; [apply IH|done].
Qed.

Lemma app_char_inj (s t : string) (c : ascii) :
  s +:+ String c "" = t +:+ String c "" -> s = t.
Proof.
  intros Heq. apply (f_equal Str.rev) in Heq. rewrite !rev_app in Heq.
  apply (inj (String.app _)) in Heq.
  by rewrite <- (rev_involutive s), Heq, rev_involutive.
Qed.

Section LiteralProperties2.
Context {RT : PyRuntime} {client : Type} {TR : Transport client}.

(** X21: with a conversion to UTC that does not fail, and for a value whose
    [int]s have at most 4300 digits and whose sequences are nested at most
    [nesting_bound] deep, [format_value] has a literal unless the value
    holds, at some depth, an item of an unsupported class; then it raises
    [DataError] with the type of the first such item, depth first and left
    to right. *)
Theorem format_value_first_unsupported (value : ParameterType) :
  (forall dt, exists utc, astimezone_utc dt = Ok utc) ->
  within_limits (S nesting_bound) value = true ->
  match first_unsupported value with
  | Some type_str =>
      format_value value
      = Raise (DataError ("unsupported parameter type " +:+ type_str))
  | None => exists literal, format_value value = Ok literal
  end.
Proof.
  intros Hutc. generalize (S nesting_bound). intros frames. revert frames.
  induction value as [|z| | | |dt| | |items IH|] using ParameterType_ind';
    intros frames Hlimits; try (by eexists).
  - destruct frames; simpl in Hlimits; simpl; unfold str_of_int;
      rewrite Hlimits; by eexists.
  - simpl. destruct (tzinfo dt); [|by eexists].
    destruct (Hutc dt) as [utc ->]. by eexists.
  - destruct frames as [|frames]; [done|].
    cbn [within_limits] in Hlimits. cbn [format_value first_unsupported].
    assert (match (fix first (items : list ParameterType) : option string :=
                     match items with
                     | [] => None
                     | item :: items' =>
                         match first_unsupported item with
                         | Some type_str => Some type_str
                         | None => first items'
                         end
                     end) items with
            | Some type_str =>
                traverse format_value items
                = Raise (DataError
                           ("unsupported parameter type " +:+ type_str))
            | None => exists literals, traverse format_value items = Ok literals
            end) as Hitems.
    { induction IH as [|item items Hitem _ IHitems]; [by eexists|].
      cbn [forallb] in Hlimits.
      apply andb_true_iff in Hlimits as [Hitem_limits Hitems_limits].
      specialize (Hitem frames Hitem_limits).
      specialize (IHitems Hitems_limits).
      cbn [traverse]. destruct (first_unsupported item) as [type_str|].
      - by rewrite Hitem.
      - destruct Hitem as [literal ->]. simpl.
        destruct ((fix first (items : list ParameterType) := _) items)
          as [type_str|].
        + by rewrite IHitems.
        + destruct IHitems as [literals ->]. by eexists. }
    destruct ((fix first (items : list ParameterType) := _) items)
      as [type_str|].
    + by rewrite Hitems.
    + destruct Hitems as [literals ->]. by eexists.
Qed.

Lemma pytype_str_inj (c d : pytype) : pytype_str c = pytype_str d -> c = d.
Proof. destruct c, d; simpl; intros Heq; try done; discriminate. Qed.

(** X22: the equality of type codes, which [ARRAY.__eq__] settles subtype
    by subtype, holds exactly when the two codes have the same text
    [ARRAY.__str__]; it is reflexive, symmetric and transitive. *)
Theorem type_code_text_identifies_it (a b : coltype) :
  (ARRAY_.__eq__ a b = true <-> ARRAY_.__str__ a = ARRAY_.__str__ b) /\
  ARRAY_.__eq__ a a = true /\
  ARRAY_.__eq__ a b = ARRAY_.__eq__ b a /\
  (forall c, ARRAY_.__eq__ a b = true -> ARRAY_.__eq__ b c = true ->
             ARRAY_.__eq__ a c = true).
Proof.
  split; [|split; [|split]].
  - rewrite ARRAY_eq_spec. split; [by intros ->|].
    revert b. induction a as [c|a IH]; intros [d|b]; simpl.
    + by intros ->%pytype_str_inj.
    + destruct c; discriminate.
    + destruct d; discriminate.
    + rewrite !string_app_cons, !string_app_nil_l.
      intros [= Heq]. f_equal. by apply IH, (app_char_inj _ _ ")").
  - by apply ARRAY_eq_spec.
  - apply ARRAY_eq_sym.
  - intros c. rewrite !ARRAY_eq_spec. congruence.
Qed.

(** X23: the request of a statement carries every entry of
    [set_parameters] as given, [database] and [output_format] included: the
    database of the connection and [JSONCompact] are sent only for the keys
    that [set_parameters] does not have, and no other key is added. *)
Theorem set_parameters_override_request_parameters (connection : Connection)
    (set_parameters : option (gmap string string)) (query : string) :
  run_query connection set_parameters query
  = (resp ← on_client (request "/" "POST"
                         (request_params connection set_parameters) query);
     on_client (_raise_if_error connection resp);;
     on_cursor (_append_query_data resp);;
     on_cursor rowcount;;
     mret tt) /\
  (forall key value,
     default ∅ set_parameters !! key = Some value ->
     request_params connection set_parameters !! key = Some value) /\
  (default ∅ set_parameters !! "database" = None ->
   request_params connection set_parameters !! "database"
   = Some (database connection)) /\
  (default ∅ set_parameters !! "output_format" = None ->
   request_params connection set_parameters !! "output_format"
   = Some "JSONCompact") /\
  (forall key,
     key ≠ "database" -> key ≠ "output_format" ->
     request_params connection set_parameters !! key
     = default ∅ set_parameters !! key).
Proof.
  split; [done|]. unfold request_params. split; [|split; [|split]].
  - intros key value Hkey. by apply lookup_union_Some_l.
  - intros Hnone. rewrite lookup_union_r by done.
    by rewrite lookup_insert_eq.
  - intros Hnone. rewrite lookup_union_r by done.
    rewrite lookup_insert_ne by done. by rewrite lookup_singleton_eq.
  - intros key Hd Ho.
    destruct (default ∅ set_parameters !! key) as [value|] eqn:Hkey.
    + by apply lookup_union_Some_l.
    + rewrite lookup_union_r by done.
      rewrite lookup_insert_ne by done. by rewrite lookup_singleton_ne.
Qed.
End LiteralProperties2.

(** X21 on a list that holds a dictionary in a list, and then a set. *)
Lemma format_value_first_unsupported_witness :
  within_limits (S nesting_bound)
    (PSeq [PInt 1; PSeq [PObject "<class 'dict'>"]; PObject "<class 'set'>"])
  = true /\
  format_value (RT := Fixture.runtime)
    (PSeq [PInt 1; PSeq [PObject "<class 'dict'>"]; PObject "<class 'set'>"])
  = Raise (DataError "unsupported parameter type <class 'dict'>").
Proof.
  split; [vm_compute; reflexivity|].
  apply (format_value_first_unsupported (RT := Fixture.runtime)
           (PSeq [PInt 1; PSeq [PObject "<class 'dict'>"];
                  PObject "<class 'set'>"])
           (fun dt => ex_intro _ dt eq_refl)).
  vm_compute. reflexivity.
Defined.

(** X22 on [ARRAY(ARRAY(int))] and [ARRAY(ARRAY(str))]. *)
Lemma type_code_text_identifies_it_witness :
  ARRAY_.__eq__ (ARRAY (ARRAY (Class py_int))) (ARRAY (ARRAY (Class py_str)))
  = true <->
  ARRAY_.__str__ (ARRAY (ARRAY (Class py_int)))
  = ARRAY_.__str__ (ARRAY (ARRAY (Class py_str))).
Proof.
  exact (proj1 (type_code_text_identifies_it
                  (ARRAY (ARRAY (Class py_int)))
                  (ARRAY (ARRAY (Class py_str))))).
Defined.

(** X23 with [set_parameters] that name another database. *)
Lemma set_parameters_override_request_parameters_witness :
  request_params Fixture.conn (Some {[ "database" := "other" ]})
  !! "database" = Some "other" /\
  request_params Fixture.conn (Some {[ "database" := "other" ]})
  !! "output_format" = Some "JSONCompact".
Proof.
  destruct (set_parameters_override_request_parameters
              (RT := Fixture.runtime) (TR := Fixture.transport)
              Fixture.conn (Some {[ "database" := "other" ]}) "SELECT 2")
    as (_ & Hgiven & _ & Hformat & _).
  split.
  - apply Hgiven. simpl. apply lookup_singleton_eq.
  - apply Hformat. simpl. by apply lookup_singleton_ne.
Defined.

(** ** The token of the client, and [connect] *)

Ltac unfold_Act :=
  unfold mbind, Act_bind, mret, Act_ret, of_result, Auth.on_net, Auth.on_auth
    in *.

Section AuthProperties.
Context {RT : PyRuntime} {net : Type} {NW : Auth.Network net}.
Import Auth.

Lemma request_token_accepted (n na n1 : net) (auth : FireboltAuth)
    (response : LoginResponse) (parsed : gmap string RawValue)
    (access_token : RawValue) (t0 : Z) :
  post ("https://" +:+ _api_endpoint auth +:+ "/auth/v1/login")
    (username auth) (password auth) n = (na, Ok response) ->
  login_raise_for_status response = Ok tt ->
  login_json response = Ok parsed ->
  parsed !! "error" = None ->
  parsed !! "access_token" = Some access_token ->
  time na = (n1, t0) ->
  request_token (n, auth)
  = match (raw ← item "expiry" (parsed !! "expiry"); int_ raw) with
    | Ok expiry =>
        ((n1, set_expires (t0 + expiry) (set_token access_token auth)),
         Return tt)
    | Raise e => ((n1, set_token access_token auth), Throw (Builtin e))
    end.
Proof.
  intros Hpost Hstatus Hjson Herror Htoken Htime.
  unfold request_token, _check_response_error. unfold_Act. cbn [fst snd].
  rewrite Hpost, Hstatus, Hjson, Herror. cbn [fst snd].
  rewrite bool_decide_eq_false_2 by (by intros [? ?]).
  rewrite Htoken. cbn [item fst snd]. rewrite Htime.
  unfold result_bind.
  destruct (parsed !! "expiry") as [raw|]; simpl; [|done].
  by destruct (int_ raw).
Qed.

(** X24: after a login that the server has answered with a token and an
    expiry, [get_new_token] has stored the token and, as its end, the time
    read after the answer plus the expiry; from then on [token] returns the
    stored token without a request as long as the clock is before that end,
    and asks for a new token once the clock has reached it. *)
Theorem token_is_served_until_it_expires (n na n1 : net)
    (auth : FireboltAuth) (response : LoginResponse)
    (parsed : gmap string RawValue) (access_token raw : RawValue)
    (t0 expiry : Z) :
  post ("https://" +:+ _api_endpoint auth +:+ "/auth/v1/login")
    (username auth) (password auth) n = (na, Ok response) ->
  login_raise_for_status response = Ok tt ->
  login_json response = Ok parsed ->
  parsed !! "error" = None ->
  parsed !! "access_token" = Some access_token ->
  time na = (n1, t0) ->
  parsed !! "expiry" = Some raw -> int_ raw = Ok expiry ->
  truthy access_token = true ->
  let auth1 := set_expires (t0 + expiry) (set_token access_token auth) in
  get_new_token (n, auth) = ((n1, auth1), Return tt) /\
  forall n2 t, time n1 = (n2, t) ->
    (t < t0 + expiry ->
     token (n1, auth1) = ((n2, auth1), Return access_token)) /\
    (t0 + expiry ≤ t ->
     token (n1, auth1)
     = match get_new_token (n2, auth1) with
       | (s, Return _) => (s, Return (_token s.2))
       | (s, Throw e) => (s, Throw e)
       end).
Proof.
  intros Hpost Hstatus Hjson Herror Htoken Htime Hraw Hint Htruthy auth1.
  split.
  - unfold get_new_token.
    rewrite (request_token_accepted n na n1 auth response parsed
               access_token t0) by done.
    rewrite Hraw. simpl. by rewrite Hint.
  - intros n2 t Hnow. unfold token, expired. unfold_Act. cbn [fst snd].
    simpl. rewrite Htruthy. simpl. rewrite Hnow. split; intros Ht.
    + by rewrite bool_decide_eq_false_2 by lia.
    + by rewrite bool_decide_eq_true_2 by lia.
Qed.

(** X25: [get_new_token] stores the token before it reads the expiry.
    When the answer holds a token and no ["expiry"], it raises
    [AuthenticationError] for the missing key with the new token stored and
    the old end kept; if there was no end, [token] returns that token from
    then on without a request, whatever the time. *)
Theorem token_without_expiry_is_kept (n na n1 : net)
    (auth : FireboltAuth) (response : LoginResponse)
    (parsed : gmap string RawValue) (access_token : RawValue) (t0 : Z) :
  post ("https://" +:+ _api_endpoint auth +:+ "/auth/v1/login")
    (username auth) (password auth) n = (na, Ok response) ->
  login_raise_for_status response = Ok tt ->
  login_json response = Ok parsed ->
  parsed !! "error" = None ->
  parsed !! "access_token" = Some access_token ->
  time na = (n1, t0) ->
  parsed !! "expiry" = None ->
  get_new_token (n, auth)
  = ((n1, set_token access_token auth),
     Throw (AuthenticationError (RStr (repr_exn (KeyError "expiry")))
              (_api_endpoint auth))) /\
  (truthy access_token = true -> _expires auth = None ->
   forall n2,
     token (n2, set_token access_token auth)
     = ((n2, set_token access_token auth), Return access_token)).
Proof.
  intros Hpost Hstatus Hjson Herror Htoken Htime Hraw. split.
  - unfold get_new_token.
    rewrite (request_token_accepted n na n1 auth response parsed
               access_token t0) by done.
    by rewrite Hraw.
  - intros Htruthy Hexpires n2. unfold token, expired. unfold_Act.
    simpl. rewrite Htruthy, Hexpires. done.
Qed.

(** X26: a call of [get_new_token] that raises leaves the user name, the
    password, the endpoint and the end of validity as they were.  It raises
    an [AuthenticationError] that carries the endpoint, or an exception that
    is none of the request errors: no [HTTPError], [KeyError] or
    [ValueError] comes out as such.  The token has changed only if the
    request was answered and the answer held that token. *)
Theorem get_new_token_failures (n n' : net) (auth auth' : FireboltAuth)
    (e : error) :
  get_new_token (n, auth) = ((n', auth'), Throw e) ->
  _expires auth' = _expires auth /\
  username auth' = username auth /\ password auth' = password auth /\
  _api_endpoint auth' = _api_endpoint auth /\
  match e with
  | AuthenticationError cause api_endpoint =>
      api_endpoint = _api_endpoint auth
  | InterfaceError _ => False
  | Builtin b => is_request_error b = false
  end /\
  (_token auth' ≠ _token auth ->
   exists na response parsed,
     post ("https://" +:+ _api_endpoint auth +:+ "/auth/v1/login")
       (username auth) (password auth) n = (na, Ok response) /\
     login_json response = Ok parsed /\
     parsed !! "access_token" = Some (_token auth')).
Proof.
  unfold get_new_token.
  assert (forall e0,
    request_token (n, auth) = ((n', auth'), Throw e0) ->
    _expires auth' = _expires auth /\
    username auth' = username auth /\ password auth' = password auth /\
    _api_endpoint auth' = _api_endpoint auth /\
    match e0 with
    | AuthenticationError cause api_endpoint =>
        api_endpoint = _api_endpoint auth
    | InterfaceError _ => False
    | Builtin b => True
    end /\
    (_token auth' ≠ _token auth ->
     exists na response parsed,
       post ("https://" +:+ _api_endpoint auth +:+ "/auth/v1/login")
         (username auth) (password auth) n = (na, Ok response) /\
       login_json response = Ok parsed /\
       parsed !! "access_token" = Some (_token auth'))) as Hbody.
  { intros e0. unfold request_token, _check_response_error. unfold_Act.
    cbn [fst snd].
    destruct (post _ _ _ n) as [na [response|e1]] eqn:Hpost;
      [|by intros [= <- <- <-]].
    destruct (login_raise_for_status response) as [[]|e1];
      [|by intros [= <- <- <-]].
    destruct (login_json response) as [parsed|e1] eqn:Hjson;
      [|by intros [= <- <- <-]].
    cbn [fst snd].
    destruct (bool_decide (is_Some (parsed !! "error")));
      [by intros [= <- <- <-]|].
    destruct (parsed !! "access_token") as [access_token|] eqn:Htoken;
      cbn [item]; [|by intros [= <- <- <-]].
    cbn [fst snd]. destruct (time na) as [n1 t0]. unfold result_bind.
    destruct (parsed !! "expiry") as [raw|]; simpl;
      [destruct (int_ raw) as [expiry|e1]; [done|]|];
      intros [= <- <- <-]; (repeat split; try done);
      intros _; by exists na, response, parsed. }
  destruct (request_token (n, auth)) as [[n1 auth1] [[]|e0]] eqn:Hrun;
    [done|].
  destruct e0 as [cause endpoint|msg|b].
  - intros [= <- <- <-]. by apply (Hbody _ eq_refl).
  - intros [= <- <- <-]. by apply (Hbody _ eq_refl).
  - destruct (is_request_error b) eqn:Hb; intros [= <- <- <-];
      destruct (Hbody _ eq_refl) as (? & ? & ? & Hep & _ & ?);
      repeat split; try done. 
Qed.
End AuthProperties.

Section ConnectProperties.
Context {RT : PyRuntime} {client net : Type}.
Variable fix_url_schema : string -> string.
Variable _resolve_engine_url :
  string -> string -> string -> string -> option string -> Act net string.
Variable AsyncClient : string -> string -> string -> string -> client.

(** X27: [connect] raises [InterfaceError] when both an engine name and an
    engine URL are given and when neither is, before anything else is
    looked at; with one of the two, it raises [InterfaceError] for the first
    of database, user name and password that is missing, before any
    request.  A connection it returns was asked for with one of the two and
    with all three; it is open, has no cursor, holds the database given and
    the API endpoint with its schema fixed; and when the engine URL was
    given, that URL with its schema fixed, with no request made. *)
Theorem connect_needs_one_engine_and_credentials
    (db user pass name url account_name : option string)
    (endpoint : string) (n : net) :
  let connect :=
    connect_inner fix_url_schema _resolve_engine_url AsyncClient
      db user pass name url account_name endpoint in
  (given name = true -> given url = true ->
   connect n = (n, Throw (InterfaceError
     "Both engine_name and engine_url are provided. Provide only one to connect."))) /\
  (given name = false -> given url = false ->
   connect n = (n, Throw (InterfaceError
     "Neither engine_name nor engine_url is provided. Provide one to connect."))) /\
  (given name ≠ given url ->
   given db && given user && given pass = false ->
   connect n
   = (n, Throw (InterfaceError
                  ((if negb (given db) then "database"
                    else if negb (given user) then "username"
                    else "password") +:+ " is required to connect.")))) /\
  (forall n' w,
     connect n = (n', Return w) ->
     given name ≠ given url /\
     given db = true /\ given user = true /\ given pass = true /\
     _cursors (connection w) = [] /\ store w = [] /\
     _is_closed (connection w) = false /\
     database (connection w) = default "" db /\
     api_endpoint (connection w) = fix_url_schema endpoint /\
     (given url = true ->
      n' = n /\
      engine_url (connection w) = fix_url_schema (default "" url))).
Proof.
  intros connect. subst connect. unfold connect_inner.
  split; [by intros -> ->|]. split; [by intros -> ->|].
  split.
  - intros Hone Hmissing.
    destruct (given name), (given url); try done; simpl;
      unfold required; unfold_Act;
      destruct db as [[|? ?]|]; simpl; try done;
      destruct user as [[|? ?]|]; simpl; try done;
      destruct pass as [[|? ?]|]; simpl; try done.
  - intros n' w.
    destruct (given name) eqn:Hname, (given url) eqn:Hurl;
      try done; simpl; unfold required; unfold_Act;
      destruct db as [[|? ?]|]; simpl; try done;
      destruct user as [[|? ?]|]; simpl; try done;
      destruct pass as [[|? ?]|]; simpl; try done.
    + destruct (_resolve_engine_url _ _ _ _ _ n) as [n1 [resolved|e]]; [|done].
      intros [= <- <-]. by repeat split.
    + intros [= <- <-]. by repeat split.
Qed.
End ConnectProperties.

(** X24 on a login at second 100, answered with a token valid for an hour. *)
Lemma token_is_served_until_it_expires_witness :
  let fields : gmap string RawValue :=
    {[ "access_token" := RStr "t1"; "expiry" := RInt 3600 ]} in
  let auth := Auth.__init__ "user" "secret" "api.app.firebolt.io" in
  let auth1 :=
    Auth.set_expires (100 + 3600) (Auth.set_token (RStr "t1") auth) in
  Auth.get_new_token (RT := Fixture.runtime) (NW := scripted_login)
    (([Ok (login_ok fields)], 100), auth)
  = ((([], 101), auth1), Return tt) /\
  Auth.token (RT := Fixture.runtime) (NW := scripted_login)
    (([], 101), auth1)
  = ((([], 102), auth1), Return (RStr "t1")).
Proof.
  intros fields auth auth1.
  destruct (token_is_served_until_it_expires
              (RT := Fixture.runtime) (NW := scripted_login)
              ([Ok (login_ok fields)], 100) ([], 100) ([], 101) auth
              (login_ok fields) fields (RStr "t1") (RInt 3600) 100 3600
              eq_refl eq_refl eq_refl ltac:(vm_compute; reflexivity)
              ltac:(vm_compute; reflexivity) eq_refl
              ltac:(vm_compute; reflexivity) eq_refl eq_refl)
    as [Hlogin Hserved].
  split; [exact Hlogin|].
  apply (Hserved ([], 102) 101 eq_refl). lia.
Defined.

(** X25 on a first login answered with a token and no expiry. *)
Lemma token_without_expiry_is_kept_witness :
  let fields : gmap string RawValue := {[ "access_token" := RStr "t1" ]} in
  let auth := Auth.__init__ "user" "secret" "api.app.firebolt.io" in
  Auth.get_new_token (RT := Fixture.runtime) (NW := scripted_login)
    (([Ok (login_ok fields)], 100), auth)
  = ((([], 101), Auth.set_token (RStr "t1") auth),
     Throw (AuthenticationError (RStr "KeyError('expiry')")
              "api.app.firebolt.io")) /\
  forall n2,
    Auth.token (RT := Fixture.runtime) (NW := scripted_login)
      (n2, Auth.set_token (RStr "t1") auth)
    = ((n2, Auth.set_token (RStr "t1") auth), Return (RStr "t1")).
Proof.
  intros fields auth.
  destruct (token_without_expiry_is_kept
              (RT := Fixture.runtime) (NW := scripted_login)
              ([Ok (login_ok fields)], 100) ([], 100) ([], 101) auth
              (login_ok fields) fields (RStr "t1") 100
              eq_refl eq_refl eq_refl ltac:(vm_compute; reflexivity)
              ltac:(vm_compute; reflexivity) eq_refl
              ltac:(vm_compute; reflexivity))
    as [Hlogin Hkept].
  split; [exact Hlogin|]. exact (Hkept eq_refl eq_refl).
Defined.

(** X26 on a login request that gets no answer. *)
Lemma get_new_token_failures_witness :
  let auth := Auth.__init__ "user" "secret" "api.app.firebolt.io" in
  Auth.get_new_token (RT := Fixture.runtime) (NW := scripted_login)
    (([], 100), auth)
  = ((([], 100), auth),
     Throw (AuthenticationError (RStr "Exception()") "api.app.firebolt.io"))
  /\ Auth._expires auth = Auth._expires auth.
Proof.
  intros auth.
  assert (Auth.get_new_token (RT := Fixture.runtime) (NW := scripted_login)
            (([], 100), auth)
          = ((([], 100), auth),
             Throw (AuthenticationError (RStr "Exception()")
                      "api.app.firebolt.io"))) as Hrun
    by (vm_compute; reflexivity).
  split; [exact Hrun|].
  exact (proj1 (get_new_token_failures
                  (RT := Fixture.runtime) (NW := scripted_login)
                  _ _ _ _ _ Hrun)).
Defined.

(** X27 on a call with an engine name and an engine URL. *)
Lemma connect_needs_one_engine_and_credentials_witness :
  connect_inner (client := unit) (net := unit)
    (fun url => "https://" +:+ url)
    (fun _ _ _ _ _ n => (n, Return "engine.firebolt.io"))
    (fun _ _ _ _ => tt)
    (Some "db") (Some "user") (Some "secret") (Some "engine")
    (Some "engine.firebolt.io") None "api.app.firebolt.io" tt
  = (tt, Throw (InterfaceError
       "Both engine_name and engine_url are provided. Provide only one to connect.")).
Proof.
  exact (proj1 (connect_needs_one_engine_and_credentials
                  (client := unit) (net := unit)
                  (fun url => "https://" +:+ url)
                  (fun _ _ _ _ _ n => (n, Return "engine.firebolt.io"))
                  (fun _ _ _ _ => tt)
                  (Some "db") (Some "user") (Some "secret") (Some "engine")
                  (Some "engine.firebolt.io") None "api.app.firebolt.io" tt)
           eq_refl eq_refl).
Defined.

(** ** From the response to the rows *)

Section Answer.
Context {RT : PyRuntime} {client : Type} {TR : Transport client}.

Lemma decode_row_set_fields (response : Response) (count : Z)
    (descriptions : option (list Column)) (rows : option (list Row)) :
  decode_row_set response = Ok (count, descriptions, rows) ->
  exists data raw_count meta cols data_rows,
    json response = Ok data /\
    qd_rows data = Some raw_count /\ int_ raw_count = Ok count /\
    qd_meta data = Some meta /\ Forall2 column_of meta cols /\
    descriptions = Some cols /\
    qd_data data = Some data_rows /\ rows = Some data_rows.
Proof.
  unfold decode_row_set.
  destruct (json response) as [data|] eqn:Hjson; simpl; [|done].
  destruct (qd_rows data) as [raw_count|] eqn:Hrows; simpl; [|done].
  destruct (int_ raw_count) as [count'|] eqn:Hcount; simpl; [|done].
  destruct (qd_meta data) as [meta|] eqn:Hmeta; simpl; [|done].
  destruct (traverse _ meta) as [cols|] eqn:Hcols; simpl; [|done].
  destruct (qd_data data) as [data_rows|] eqn:Hdata; simpl; [|done].
  intros [= <- <- <-].
  exists data, raw_count, meta, cols, data_rows.
  do 4 (split; [done|]). split; [|done].
  apply traverse_Forall2 in Hcols.
  eapply Forall2_impl; [exact Hcols|]. intros entry col. simpl.
  destruct (meta_name entry) as [entry_name|] eqn:Hname; simpl; [|done].
  destruct (meta_type entry) as [raw_type|] eqn:Hraw; simpl; [|done].
  destruct (parse_type raw_type) as [parsed|] eqn:Htype; simpl; [|done].
  intros [= <-]. split; [done|]. split; [by exists raw_type|done].
Qed.

(** X28: a query of one statement whose response passes the check and
    decodes leaves the cursor with that response as its only, active set:
    [execute] returns the row count of the response, the description has
    one column for each entry of ["meta"], with the name of the entry and
    the type code of its type name, and, when the row count is not below
    the number of rows, [fetchall] returns the rows of ["data"], in order,
    each decoded with these columns. *)
Theorem fetchall_returns_the_answer (connection : Connection)
    (query statement : string) (parameters : option (list ParameterType))
    (set_parameters : option (gmap string string))
    (cl cl1 cl2 : client) (self : Cursor) (response : Response)
    (count : Z) (descriptions : option (list Column))
    (rows : option (list Row)) :
  closed self = false ->
  split_format_sql query (params_list parameters) = Ok [statement] ->
  request "/" "POST" (request_params connection set_parameters) statement cl
  = (cl1, Ok response) ->
  _raise_if_error connection response cl1 = (cl2, Ok tt) ->
  content_length response ≠ Some "0" ->
  decode_row_set response = Ok (count, descriptions, rows) ->
  exists data raw_count meta cols data_rows,
    let self' := loaded (_arraysize self) DONE
                   [(count, Some cols, Some data_rows)] in
    json response = Ok data /\
    qd_rows data = Some raw_count /\ int_ raw_count = Ok count /\
    qd_meta data = Some meta /\ Forall2 column_of meta cols /\
    qd_data data = Some data_rows /\
    execute connection query parameters set_parameters (cl, self)
    = ((cl2, self'), Ok count) /\
    description self' = (self', Ok (Some cols)) /\
    (Z.of_nat (length data_rows) ≤ count ->
     fetchall self'
     = (set_idx (Z.of_nat (length data_rows)) self',
        traverse (parse_row_with (Some cols)) data_rows)).
Proof.
  intros Hopen Hsplit Hrequest Hcheck Hlength Hdecode.
  destruct (decode_row_set_fields _ _ _ _ Hdecode)
    as (data & raw_count & meta & cols & data_rows & Hjson & Hrows & Hcount
        & Hmeta & Hcols & -> & Hdata & ->).
  exists data, raw_count, meta, cols, data_rows. intros self'.
  repeat (split; [done|]). split; [|split].
  - rewrite execute_unfold by done. rewrite Hsplit. cbn [collect].
    unfold statement_row_set, checked_response, response_row_set.
    unfold request_params in Hrequest. unfold_M.
    rewrite Hrequest, Hcheck.
    rewrite bool_decide_eq_true_2.
    + by rewrite Hdecode.
    + intros Hzero. apply Hlength.
      by destruct (content_length response) as [?|]; simplify_eq/=.
  - unfold description, check_not_closed, cursor_of, Cursor_HasCursor, closed.
    by unfold_M.
  - intros Hall.
    rewrite (fetchall_in_range self' data_rows).
    + done.
    + split; [by left|]. split; [done|simpl; lia].
    + simpl. lia.
Qed.
End Answer.

(** X28 on [SELECT 2] answered with three rows of one integer column. *)
Lemma fetchall_returns_the_answer_witness :
  let response := Fixture.ok_response (Fixture.ints 3 [10; 20; 30]) in
  exists data raw_count meta cols data_rows,
    let self' := loaded (_arraysize Cursor__init__) DONE
                   [(3, Some cols, Some data_rows)] in
    json response = Ok data /\
    qd_rows data = Some raw_count /\
    int_ (RT := Fixture.runtime) raw_count = Ok 3 /\
    qd_meta data = Some meta /\
    Forall2 (column_of (H := Fixture.runtime)) meta cols /\
    qd_data data = Some data_rows /\
    execute (RT := Fixture.runtime) (TR := Fixture.transport) Fixture.conn
      "SELECT 2" None None ([Ok response], Cursor__init__)
    = (([], self'), Ok 3) /\
    description self' = (self', Ok (Some cols)) /\
    (Z.of_nat (length data_rows) ≤ 3 ->
     fetchall (RT := Fixture.runtime) self'
     = (set_idx (Z.of_nat (length data_rows)) self',
        traverse (parse_row_with (H := Fixture.runtime) (Some cols))
          data_rows)).
Proof.
  intros response.
  exact (fetchall_returns_the_answer
           (RT := Fixture.runtime) (TR := Fixture.transport)
           Fixture.conn "SELECT 2" "SELECT 2" None None
           [Ok response] [] [] Cursor__init__ response 3
           (Some Fixture.int_column)
           (Some [[RInt 10]; [RInt 20]; [RInt 30]])
           eq_refl ltac:(vm_compute; reflexivity) eq_refl
           ltac:(vm_compute; reflexivity) ltac:(discriminate)
           ltac:(vm_compute; reflexivity)).
Defined.
